(** * FenaBot, [wotd.py]: splitting Word-of-the-day archives into day pages

    A shallow embedding of [src/wotd.py] and the properties of its four
    components: the section splitter ([re.split] and the validity scan),
    the day processor ([process_one_day]), the month orchestrator
    ([run_wotd_processing_for_month]) and the calendar driver ([main]).

    Conventions of the embedding.
    - A Python [str] is a [string]; its characters are the code points
      0..255, so the whitespace, digit and case tables below are
      Python's tables restricted to that range.
    - A Python [int] is a [Z], printed in decimal by stdpp's [pretty].
    - The wiki behind [pywikibot] is an explicit [world]: page texts,
      protection dictionaries, and the two sources of nondeterminism of
      a run, namely which backend calls raise, and how the worker
      threads of a pool interleave.
    - Every backend call and every line written through
      [pywikibot.output], [warning] or [error] is recorded in a trace of
      [event]s, in the order in which it happens. *)

From Stdlib Require Import ZArith Ascii String.
From stdpp Require Import gmap strings list pretty.


(** ** Text: the [str] methods the script uses *)

Module Text.

(** [str.isspace] for one code point below 256: TAB..CR, FS..US, SPACE,
    NEL and NBSP.  [\s] in [re] (a [str] pattern) and [str.strip] use
    the same table. *)
Definition is_space (c : ascii) : bool :=
  let n := nat_of_ascii c in
  (((9 <=? n) && (n <=? 13)) || ((28 <=? n) && (n <=? 32))
   || (n =? 133) || (n =? 160))%nat.

(** [\d] for one code point below 256: the ten ASCII digits. *)
Definition is_digit (c : ascii) : bool :=
  let n := nat_of_ascii c in ((48 <=? n) && (n <=? 57))%nat.

(** [str.lower] for one code point below 256: [A-Z] and the Latin-1
    capitals U+00C0..U+00DE (U+00D7, the multiplication sign, is not a
    letter) move up by 32. *)
Definition lower_char (c : ascii) : ascii :=
  let n := nat_of_ascii c in
  if (((65 <=? n) && (n <=? 90))
      || ((192 <=? n) && (n <=? 222) && negb (n =? 215)))%nat
  then ascii_of_nat (n + 32) else c.

(** [str.upper] on ASCII letters; the script applies it to month names
    only. *)
Definition upper_char (c : ascii) : ascii :=
  let n := nat_of_ascii c in
  if ((97 <=? n) && (n <=? 122))%nat then ascii_of_nat (n - 32) else c.

Fixpoint map_chars (f : ascii -> ascii) (s : string) : string :=
  match s with
  | EmptyString => EmptyString
  | String c s' => String (f c) (map_chars f s')
  end.

Definition lower : string -> string := map_chars lower_char.
Definition upper : string -> string := map_chars upper_char.

Fixpoint all_chars (p : ascii -> bool) (s : string) : bool :=
  match s with
  | EmptyString => true
  | String c s' => p c && all_chars p s'
  end.

Fixpoint lstrip (s : string) : string :=
  match s with
  | EmptyString => EmptyString
  | String c s' => if is_space c then lstrip s' else s
  end.

Fixpoint rstrip (s : string) : string :=
  match s with
  | EmptyString => EmptyString
  | String c s' =>
      match rstrip s' with
      | EmptyString => if is_space c then EmptyString else String c EmptyString
      | r => String c r
      end
  end.

(** [s.strip()] *)
Definition strip (s : string) : string := rstrip (lstrip s).

(** Truth value of a [str]: non-empty. *)
Definition truthy (s : string) : bool :=
  match s with EmptyString => false | String _ _ => true end.

Fixpoint starts_with (pat s : string) : bool :=
  match pat, s with
  | EmptyString, _ => true
  | String a pat', String b s' => if Ascii.eqb a b then starts_with pat' s' else false
  | String _ _, EmptyString => false
  end.

(** [pat in s] for two strings. *)
Fixpoint contains (pat s : string) : bool :=
  starts_with pat s
  || match s with
     | EmptyString => false
     | String _ s' => contains pat s'
     end.

(** [c * n] for a one-character string [c]. *)
Fixpoint repeat_char (c : ascii) (n : nat) : string :=
  match n with
  | O => EmptyString
  | S n' => String c (repeat_char c n')
  end.

Fixpoint drop (n : nat) (s : string) : string :=
  match n, s with
  | O, _ => s
  | S n', String _ s' => drop n' s'
  | S _, EmptyString => EmptyString
  end.

Fixpoint take (n : nat) (s : string) : string :=
  match n, s with
  | O, _ => EmptyString
  | S n', String c s' => String c (take n' s')
  | S _, EmptyString => EmptyString
  end.

End Text.

(** ** The heading pattern and [re.split] *)

Module Re.
Import Text.

(** A backtracking matcher in continuation-passing style, as [re] runs
    a pattern: each combinator consumes a prefix of the subject and
    hands the rest to the continuation [k]; a greedy repetition tries
    the longest run first and gives characters back one at a time when
    the continuation fails. *)
Section Combinators.
Context {R : Type}.

Definition lit (c : ascii) (k : string -> option R) (s : string) : option R :=
  match s with
  | String c' s' => if Ascii.eqb c c' then k s' else None
  | EmptyString => None
  end.

(** [cls*], greedy *)
Fixpoint star (cls : ascii -> bool) (k : string -> option R) (s : string)
  : option R :=
  match s with
  | String c s' =>
      if cls c
      then match star cls k s' with
           | Some r => Some r
           | None => k s
           end
      else k s
  | EmptyString => k s
  end.

(** [cls+], greedy *)
Definition plus (cls : ascii -> bool) (k : string -> option R) (s : string)
  : option R :=
  match s with
  | String c s' => if cls c then star cls k s' else None
  | EmptyString => None
  end.
End Combinators.

(** The text a group captured: the subject at the opening parenthesis
    minus what is left at the closing one. *)
Definition captured (at_open at_close : string) : string :=
  take (String.length at_open - String.length at_close) at_open.

(** [r'==\s*(\d+)\s*=='] matched at the start of [s]: group 1 and the
    text after the match.  ([heading_sound] and [heading_complete]
    below: it matches the texts made of [==], white space, digits, white
    space and [==], and no other.) *)
Definition heading (s : string) : option (string * string) :=
  lit "=" (lit "=" (star is_space (fun at_open =>
    plus is_digit (fun at_close =>
      star is_space (lit "=" (lit "=" (fun rest =>
        Some (captured at_open at_close, rest)))) at_close)
    at_open))) s.

(** The scan of [re.split]: [piece] is the text since the last match;
    [skip] counts the characters of the current match still to pass.
    The pattern matches no empty string, so every match found at a
    position is taken and the scan resumes after it. *)
Fixpoint split_scan (s : string) (skip : nat) (piece : string) : list string :=
  match s with
  | EmptyString => [piece]
  | String c s' =>
      match skip with
      | S n => split_scan s' n piece
      | O =>
          match heading s with
          | Some (group, rest) =>
              piece :: group
                :: split_scan s' (String.length s' - String.length rest) ""
          | None => split_scan s' 0 (piece +:+ String c "")
          end
      end
  end.

(** [re.split(r'==\s*(\d+)\s*==', wikitext)] *)
Definition split (wikitext : string) : list string :=
  split_scan wikitext 0 "".

End Re.

(** ** The wiki backend *)

(** Exceptions.  The script's handlers catch [pywikibot.Error] and its
    subclasses only; anything else a call raises passes through them. *)
Inductive exn :=
| PywikibotError (reason : string)
| OtherException (descr : string)
| IndexError.

Inductive outcome (A : Type) :=
| Ok (a : A)
| Exc (e : exn).
Arguments Ok {A} a.
Arguments Exc {A} e.

(** What [Page.protection()] returns: action -> (level, expiry). *)
Abbreviation protection_dict := (gmap string (string * string)).

(** The trace: backend calls with their results, and log lines. *)
Inductive event :=
| EvLogin (r : outcome unit)
| EvExists (title : string) (r : outcome bool)
| EvText (title : string) (r : outcome string)
| EvSave (title text summary : string) (r : outcome unit)
| EvProtection (title : string) (r : outcome protection_dict)
| EvProtect (title : string) (protections : list (string * string))
            (reason : string) (r : outcome unit)
| EvOutput (msg : string)
| EvWarning (msg : string)
| EvError (msg : string).

(** A backend write: a call of [Page.save] or [Page.protect]. *)
Definition is_write (ev : event) : bool :=
  match ev with
  | EvSave _ _ _ _ | EvProtect _ _ _ _ => true
  | _ => false
  end.

(** [Page.save] called on the page [title]. *)
Definition is_save_of (title : string) (ev : event) : bool :=
  match ev with
  | EvSave t _ _ _ => bool_decide (t = title)
  | _ => false
  end.

(** [Page.exists] called on the page [title]. *)
Definition is_exists_of (title : string) (ev : event) : bool :=
  match ev with
  | EvExists t _ => bool_decide (t = title)
  | _ => false
  end.

(** A call of the protection step: [Page.protection] or [Page.protect]. *)
Definition is_protection_call (ev : event) : bool :=
  match ev with
  | EvProtection _ _ | EvProtect _ _ _ _ => true
  | _ => false
  end.

Definition count (P : event -> bool) (evs : list event) : nat :=
  length (filter (fun ev => P ev = true) evs).

(** The state of the wiki and of the run.
    - [texts]: the pages that exist, with their text;
    - [prots]: the protection of each page;
    - [faults]: for each backend call still to come, in order, the
      exception it raises, if any (past the end of the list no call
      raises);
    - [sched]: for each scheduling decision still to come, the worker
      thread that runs next;
    - [executors]: how many thread pools were created so far (it names
      their threads). *)
Record world := World {
  texts : gmap string string;
  prots : gmap string protection_dict;
  faults : list (option exn);
  sched : list nat;
  executors : nat
}.

Definition set_texts (f : gmap string string -> gmap string string)
    (w : world) :=
  World (f (texts w)) (prots w) (faults w) (sched w) (executors w).
Definition set_prots
    (f : gmap string protection_dict -> gmap string protection_dict)
    (w : world) :=
  World (texts w) (f (prots w)) (faults w) (sched w) (executors w).
Definition set_faults (fs : list (option exn)) (w : world) :=
  World (texts w) (prots w) fs (sched w) (executors w).
Definition set_sched (s : list nat) (w : world) :=
  World (texts w) (prots w) (faults w) s (executors w).
Definition set_executors (n : nat) (w : world) :=
  World (texts w) (prots w) (faults w) (sched w) n.

(** Sequential code: state, trace and exceptions. *)
Definition M (A : Type) : Type := world -> list event * world * outcome A.

Definition ret {A} (a : A) : M A := fun w => ([], w, Ok a).
Definition raise {A} (e : exn) : M A := fun w => ([], w, Exc e).
Definition bind {A B} (m : M A) (f : A -> M B) : M B :=
  fun w =>
    match m w with
    | (evs, w1, Ok a) =>
        let '(evs2, w2, r) := f a w1 in (evs ++ evs2, w2, r)
    | (evs, w1, Exc e) => (evs, w1, Exc e)
    end.

Global Instance M_ret : MRet M := @ret.
Global Instance M_bind : MBind M := fun A B f m => bind m f.

(** [try: m  except pywikibot.Error as e: handler e] *)
Definition try_except {A} (m : M A) (handler : string -> M A) : M A :=
  fun w =>
    match m w with
    | (evs, w1, Exc (PywikibotError reason)) =>
        let '(evs2, w2, r) := handler reason w1 in (evs ++ evs2, w2, r)
    | res => res
    end.

Definition emit (ev : event) : M unit := fun w => ([ev], w, Ok tt).
Definition output (msg : string) : M unit := emit (EvOutput msg).
Definition warning (msg : string) : M unit := emit (EvWarning msg).
Definition error (msg : string) : M unit := emit (EvError msg).

(** One backend call: it raises what [faults] says, or succeeds with
    the effect [run] on the wiki. *)
Definition backend {A} (ev : outcome A -> event) (run : world -> world * A)
  : M A :=
  fun w =>
    match faults w with
    | Some e :: fs => ([ev (Exc e)], set_faults fs w, Exc e)
    | None :: fs =>
        let '(w', a) := run (set_faults fs w) in ([ev (Ok a)], w', Ok a)
    | [] => let '(w', a) := run w in ([ev (Ok a)], w', Ok a)
    end.

(** [site.login()] *)
Definition login : M unit := backend EvLogin (fun w => (w, tt)).

(** [page.exists()] *)
Definition page_exists (title : string) : M bool :=
  backend (EvExists title)
          (fun w => (w, bool_decide (is_Some (texts w !! title)))).

(** [page.text], read for the first time: the text of the page, the
    empty string for a page that does not exist. *)
Definition page_text (title : string) : M string :=
  backend (EvText title) (fun w => (w, default "" (texts w !! title))).

(** [page.text = text; page.save(summary=summary)] *)
Definition page_save (title text summary : string) : M unit :=
  backend (EvSave title text summary)
          (fun w => (set_texts <[title := text]> w, tt)).

(** [page.protection()] *)
Definition page_protection (title : string) : M protection_dict :=
  backend (EvProtection title) (fun w => (w, default ∅ (prots w !! title))).

(** [page.protect(protections=protections, reason=reason)]: the listed
    actions get the listed levels, without expiry. *)
Definition page_protect (title : string) (protections : list (string * string))
    (reason : string) : M unit :=
  backend (EvProtect title protections reason)
          (fun w =>
             (set_prots
                <[title := list_to_map
                             ((fun p => (p.1, (p.2, "infinity"))) <$> protections)]>
                w, tt)).

(** ** Worker threads *)

(** The body of a function run by a worker, as a tree of its atomic
    steps: a backend call hands its result (a value or an exception) to
    the rest of the body, which handles the exception or raises it
    again; [Emit] is one [with print_lock:] block. *)
Inductive thread :=
| Return
| Raise (e : exn)
| Emit (lines : list event) (k : thread)
| PageExists (title : string) (k : outcome bool -> thread)
| PageSave (title text summary : string) (k : outcome unit -> thread)
| PageProtection (title : string) (k : outcome protection_dict -> thread)
| PageProtect (title : string) (protections : list (string * string))
              (reason : string) (k : outcome unit -> thread).

Definition finished (t : thread) : bool :=
  match t with
  | Return | Raise _ => true
  | _ => false
  end.

(** One atomic step of a thread. *)
Definition step (t : thread) (w : world) : list event * world * thread :=
  match t with
  | Return | Raise _ => ([], w, t)
  | Emit lines k => (lines, w, k)
  | PageExists title k =>
      let '(evs, w', r) := page_exists title w in (evs, w', k r)
  | PageSave title text summary k =>
      let '(evs, w', r) := page_save title text summary w in (evs, w', k r)
  | PageProtection title k =>
      let '(evs, w', r) := page_protection title w in (evs, w', k r)
  | PageProtect title protections reason k =>
      let '(evs, w', r) := page_protect title protections reason w in
      (evs, w', k r)
  end.

(** A thread run to its end without interruption: a plain call of the
    function. *)
Fixpoint run_thread (t : thread) : M unit :=
  match t with
  | Return => ret tt
  | Raise e => raise e
  | Emit lines k =>
      fun w => let '(evs, w', r) := run_thread k w in (lines ++ evs, w', r)
  | PageExists title k =>
      fun w =>
        let '(evs, w1, r) := page_exists title w in
        let '(evs2, w2, r2) := run_thread (k r) w1 in (evs ++ evs2, w2, r2)
  | PageSave title text summary k =>
      fun w =>
        let '(evs, w1, r) := page_save title text summary w in
        let '(evs2, w2, r2) := run_thread (k r) w1 in (evs ++ evs2, w2, r2)
  | PageProtection title k =>
      fun w =>
        let '(evs, w1, r) := page_protection title w in
        let '(evs2, w2, r2) := run_thread (k r) w1 in (evs ++ evs2, w2, r2)
  | PageProtect title protections reason k =>
      fun w =>
        let '(evs, w1, r) := page_protect title protections reason w in
        let '(evs2, w2, r2) := run_thread (k r) w1 in (evs ++ evs2, w2, r2)
  end.

(** [ThreadPoolExecutor]: the workers of a pool interleave at their
    atomic steps, in the order [sched] dictates.  Entry [i] of the
    schedule runs one step of worker [i mod n]; the schedule is read
    until every worker is finished. *)
Fixpoint interleave (s : list nat) (ths : list thread) (w : world)
  : list event * world * list thread * list nat :=
  match s with
  | [] => ([], w, ths, [])
  | i :: s' =>
      if forallb finished ths then ([], w, ths, s)
      else
        let j := (i mod length ths)%nat in
        match ths !! j with
        | Some t =>
            let '(evs, w1, t') := step t w in
            let '(evs2, w2, ths2, s2) := interleave s' (<[j := t']> ths) w1 in
            (evs ++ evs2, w2, ths2, s2)
        | None => ([], w, ths, s)
        end
  end.

(** Leaving the [with] block joins the workers: when the schedule says
    nothing more, those still running run to their end one after the
    other.  An exception that ends a worker stays in its future, which
    nobody reads. *)
Fixpoint join (ths : list thread) (w : world) : list event * world :=
  match ths with
  | [] => ([], w)
  | t :: ths' =>
      let '(evs, w1, _) := run_thread t w in
      let '(evs2, w2) := join ths' w1 in (evs ++ evs2, w2)
  end.

(** The name of worker [i] of the pool created as number [pool]. *)
Definition worker_name (pool i : nat) : string :=
  "ThreadPoolExecutor-" +:+ pretty pool +:+ "_" +:+ pretty i.

(** [with ThreadPoolExecutor(max_workers=len(tasks)) as executor:
        executor.map(body, tasks)]: one worker per task.  Which worker
    takes which task is the pool's choice; here task [i] goes to worker
    [i], which matters for the thread name in the log only. *)
Definition executor_map {T} (body : string -> T -> thread) (tasks : list T)
  : M unit :=
  fun w =>
    let pool := executors w in
    let ths := imap (fun i task => body (worker_name pool i) task) tasks in
    let '(evs, w1, ths1, s1) := interleave (sched w) ths w in
    let '(evs2, w2) := join ths1 (set_sched s1 w1) in
    (evs ++ evs2, set_executors (S pool) w2, Ok tt).

(** ** The script *)

Definition START_YEAR : Z := 2006.
Definition START_MONTH : Z := 1.
Definition END_YEAR : Z := 2011.
Definition END_MONTH : Z := 12.

Definition DEFAULT_DRY_RUN : bool := false.

Definition nl : string := "
".

(** The [task_info] dictionary; its ['site'] entry is the [world]. *)
Record task_info := TaskInfo {
  year : Z;
  month_name : string;
  day : string;
  content : string;
  dry_run : bool;
  create_summary : string;
  protect_reason : string
}.

(** ['{{wotd' in content.lower()] *)
Definition has_wotd_template (content : string) : bool :=
  Text.contains "{{wotd" (Text.lower content).

Definition target_page_title_of (year : Z) (month_name day : string) : string :=
  "Wiktionary:Word of the day/" +:+ pretty year +:+ "/" +:+ month_name
  +:+ " " +:+ day.

Definition source_page_title_of (year : Z) (month_name : string) : string :=
  "Wiktionary:Word of the day/Archive/" +:+ pretty year +:+ "/" +:+ month_name.

(** [current_protection.get('edit', (None,))[0]] *)
Definition edit_level (current_protection : protection_dict) : option string :=
  match current_protection !! "edit" with
  | Some (level, _) => Some level
  | None => None
  end.

(** Lines 58-75 of [process_one_day]: the protection step. *)
Definition protection_step (task_info : task_info) (target_page_title : string)
  : thread :=
  let dry_run := dry_run task_info in
  let protect_reason := protect_reason task_info in
  let except (e : exn) : thread :=
    match e with
    | PywikibotError reason =>
        Emit [EvError ("ERROR: Failed to protect page. Reason: " +:+ reason)]
             Return
    | _ => Raise e
    end in
  if negb dry_run then
    PageProtection target_page_title (fun r =>
      match r with
      | Exc e => except e
      | Ok current_protection =>
          if negb (bool_decide (edit_level current_protection = Some "sysop"))
          then
            let protections := [("edit", "sysop"); ("move", "sysop")] in
            PageProtect target_page_title protections protect_reason (fun r =>
              match r with
              | Exc e => except e
              | Ok _ =>
                  Emit [EvOutput "SUCCESS: Page has been protected."] Return
              end)
          else
            Emit [EvOutput "INFO: Page is already correctly protected."] Return
      end)
  else
    Emit [EvOutput "DRY RUN: Page would be checked and protected if necessary."]
         Return.

(** [process_one_day(task_info)], run by the thread [thread_name].
    Building the [Page] object calls no backend. *)
Definition process_one_day (thread_name : string) (task_info : task_info)
  : thread :=
  let year := year task_info in
  let month_name := month_name task_info in
  let day := day task_info in
  let content := content task_info in
  let dry_run := dry_run task_info in
  let create_summary := create_summary task_info in
  let target_page_title := target_page_title_of year month_name day in
  Emit [EvOutput (nl +:+ "--- Day " +:+ day +:+ " (Thread: " +:+ thread_name
                  +:+ ") ---");
        EvOutput ("Target page: " +:+ target_page_title)] (
  PageExists target_page_title (fun r =>
    match r with
    | Exc e => Raise e
    | Ok page_exists =>
        if negb page_exists then
          Emit [EvOutput "Content to be saved:";
                EvOutput (Text.repeat_char "-" 25);
                EvOutput content;
                EvOutput (Text.repeat_char "-" 25)] (
          if negb dry_run then
            PageSave target_page_title content create_summary (fun r =>
              match r with
              | Ok _ =>
                  Emit [EvOutput "SUCCESS: New page created."]
                       (protection_step task_info target_page_title)
              | Exc (PywikibotError reason) =>
                  Emit [EvError ("ERROR: Failed to create page. Reason: "
                                 +:+ reason)]
                       Return
              | Exc e => Raise e
              end)
          else protection_step task_info target_page_title)
        else
          Emit [EvOutput "INFO: Page already exists, skipping creation."]
               (protection_step task_info target_page_title)
    end)).

(** [l[i]] *)
Definition py_index (l : list string) (i : nat) : M string :=
  match l !! i with
  | Some x => ret x
  | None => raise IndexError
  end.

(** [range(start, stop, 2)] for [start <= stop]. *)
Definition py_range_by_2 (start stop : nat) : list nat :=
  (fun k => start + 2 * k)%nat <$> seq 0 ((stop - start + 1) / 2).

(** [range(start, stop)] *)
Definition py_range (start stop : Z) : list Z := seqZ start (stop - start).

(** A [for] loop whose body updates the loop's variables. *)
Fixpoint for_fold {A S} (l : list A) (body : S -> A -> M S) (s : S) : M S :=
  match l with
  | [] => ret s
  | x :: l' => s' ← body s x; for_fold l' body s'
  end.

(** Line 101: [content and '{{wotd' in content.lower()] *)
Definition is_valid_section (content : string) : bool :=
  Text.truthy content && has_wotd_template content.

(** Lines 97-110: one turn of the loop over the sections. *)
Definition scan_section (year : Z) (month_name : string) (dry_run : bool)
    (create_summary protect_reason : string) (sections : list string)
    (vars : list task_info * bool) (i : nat) : M (list task_info * bool) :=
  let '(tasks, was_section_skipped) := vars in
  day ← py_index sections i;
  section ← py_index sections (i + 1);
  let content := Text.strip section in
  if is_valid_section content return M (list task_info * bool) then
    ret (tasks ++ [TaskInfo year month_name day content dry_run
                             create_summary protect_reason],
          was_section_skipped)
  else if Text.truthy content return M (list task_info * bool) then
    warning ("Skipping section for day " +:+ day
             +:+ " as it does not contain a WOTD template.");;
    ret (tasks, true)
  else ret (tasks, was_section_skipped).

Definition archive_content (year : Z) : string :=
  "{{WOTD month archive|" +:+ pretty year +:+ "|{{SUBPAGENAME}}}}".

(** Lines 94-110: the loop over the sections, from empty [tasks] and
    [was_section_skipped = False]. *)
Definition scan_sections (year : Z) (month_name : string) (dry_run : bool)
    (create_summary protect_reason : string) (sections : list string)
  : M (list task_info * bool) :=
  for_fold (py_range_by_2 1 (length sections))
           (scan_section year month_name dry_run create_summary protect_reason
                         sections)
           ([], false).

Definition create_summary_of (year : Z) (month_name : string) : string :=
  "Creating Word of the Day page from the " +:+ month_name +:+ " "
  +:+ pretty year +:+ " archive.".

Definition protect_reason_text : string :=
  "Protecting created Word of the Day page.".

Definition archive_summary_of (year : Z) (month_name : string) : string :=
  "Archiving WOTD source page for " +:+ month_name +:+ " " +:+ pretty year
  +:+ ".".

(** Lines 129-147: the decision on the source page, after the workers
    are joined. *)
Definition archive_step (year : Z) (month_name : string) (dry_run : bool)
    (was_section_skipped : bool) : M unit :=
  let archive_summary := archive_summary_of year month_name in
  let source_page_title := source_page_title_of year month_name in
  if was_section_skipped return M unit then
    error (nl +:+ "Source page for " +:+ month_name +:+ " " +:+ pretty year
           +:+ " will NOT be archived because one or more sections were invalid.")
  else
    let new_content := archive_content year in
    if negb dry_run return M unit then
      try_except
        (page_save source_page_title new_content archive_summary;;
         output ("SUCCESS: Source page for " +:+ month_name +:+ " "
                 +:+ pretty year +:+ " has been archived."))
        (fun e =>
           error ("Could not update source page for " +:+ month_name
                  +:+ " " +:+ pretty year +:+ ". Reason: " +:+ e))
    else
      output (nl +:+ "DRY RUN: All sections valid. Would replace content of '"
              +:+ source_page_title +:+ "' with: " +:+ new_content).

(** Lines 112-147: the tasks handed to the workers, then the decision
    on the source page. *)
Definition dispatch (year : Z) (month_name : string) (dry_run : bool)
    (tasks : list task_info) (was_section_skipped : bool) : M unit :=
  let source_page_title := source_page_title_of year month_name in
  if bool_decide (tasks = []) return M unit then
    warning ("No valid WOTD sections found in '" +:+ source_page_title
             +:+ "'. Skipping.")
  else
    let num_workers := length tasks in
    output (nl +:+ "Starting processing for " +:+ pretty num_workers
            +:+ " days in " +:+ month_name +:+ " " +:+ pretty year
            +:+ " using " +:+ pretty num_workers +:+ " threads...");;
    executor_map process_one_day tasks;;
    output (nl +:+ "Concurrent tasks complete for " +:+ month_name +:+ " "
            +:+ pretty year +:+ ".");;
    archive_step year month_name dry_run was_section_skipped.

(** [run_wotd_processing_for_month(site, year, month_name, dry_run)] *)
Definition run_wotd_processing_for_month (year : Z) (month_name : string)
    (dry_run : bool) : M unit :=
  let create_summary := create_summary_of year month_name in
  let protect_reason := protect_reason_text in
  let source_page_title := source_page_title_of year month_name in
  source_exists ← page_exists source_page_title;
  if negb source_exists return M unit then
    error ("Source page '" +:+ source_page_title
           +:+ "' does not exist. Skipping month.")
  else
    wikitext ← page_text source_page_title;
    let sections := Re.split wikitext in
    vars ← scan_sections year month_name dry_run create_summary protect_reason
                         sections;
    let '(tasks, was_section_skipped) := (vars : list task_info * bool) in
    dispatch year month_name dry_run tasks was_section_skipped.

(** [calendar.month_name], with the English names: an array of thirteen
    entries, the first one empty, indexed as a Python list. *)
Definition month_names : list string :=
  [""; "January"; "February"; "March"; "April"; "May"; "June"; "July";
   "August"; "September"; "October"; "November"; "December"].

(** [calendar.month_name[i]] *)
Definition calendar_month_name (i : Z) : M string :=
  if bool_decide (0 ≤ i)%Z then py_index month_names (Z.to_nat i)
  else if bool_decide (-13 ≤ i)%Z then py_index month_names (Z.to_nat (13 + i))
  else raise IndexError.

(** How a loop body ends: it falls through to the next turn, or it
    executes [return]. *)
Inductive flow := Continue | Returned.

Fixpoint for_each {A} (l : list A) (body : A -> M flow) : M flow :=
  match l with
  | [] => ret Continue
  | x :: l' =>
      f ← body x;
      match f with
      | Continue => for_each l' body
      | Returned => ret Returned
      end
  end.

Definition banner : string := nl +:+ Text.repeat_char "#" 50.

(** [year > now.year or (year == now.year and month_num > now.month)] *)
Definition in_future (now : Z * Z) (year month_num : Z) : bool :=
  bool_decide (year > now.1)%Z
  || (bool_decide (year = now.1) && bool_decide (month_num > now.2)%Z).

(** Lines 169-180 of [main]: one turn of the loop over the months of a
    year. *)
Definition month_turn (now : Z * Z) (run_month : Z -> string -> M unit)
    (year month_num : Z) : M flow :=
  if in_future now year month_num return M flow then
    output banner;;
    name ← calendar_month_name month_num;
    output ("### Reached future date (" +:+ name +:+ " "
            +:+ pretty year +:+ "). Stopping script. ###");;
    output (Text.repeat_char "#" 50);;
    ret Returned
  else
    month_name ← calendar_month_name month_num;
    output banner;;
    output ("### PROCESSING " +:+ Text.upper month_name +:+ " "
            +:+ pretty year +:+ " ###");;
    output (Text.repeat_char "#" 50);;
    run_month year month_name;;
    ret Continue.

(** Lines 165-168 of [main]: the months of [year] the inner loop goes
    through. *)
Definition months_of_year (start_year start_month end_year end_month : Z)
    (year : Z) : list Z :=
  let month_start_num :=
    if bool_decide (year = start_year) then start_month else 1%Z in
  let month_end_num :=
    if bool_decide (year = end_year) then end_month else 12%Z in
  py_range month_start_num (month_end_num + 1).

(** Lines 164-182 of [main], for a range of months and a month
    processor [run_month]. *)
Definition calendar_driver (start_year start_month end_year end_month : Z)
    (now : Z * Z) (run_month : Z -> string -> M unit) : M unit :=
  f ← for_each (py_range start_year (end_year + 1)) (fun year =>
        for_each (months_of_year start_year start_month end_year end_month
                                 year)
                 (month_turn now run_month year));
  match f with
  | Returned => ret tt
  | Continue => output (nl +:+ "Script finished.")
  end.

(** Lines 151-153 of [main]: the value of [is_dry_run] for the command
    line [argv]. *)
Definition is_dry_run_of (argv : list string) : bool :=
  let is_dry_run := DEFAULT_DRY_RUN in
  if bool_decide ("-live" ∈ argv) then false else is_dry_run.

(** [main()], for the command line [argv] and the month [now] of
    [datetime.now()].  Removing [-live] from [sys.argv] has no effect
    on what follows and is left out. *)
Definition main (argv : list string) (now : Z * Z) : M unit :=
  let is_dry_run := is_dry_run_of argv in
  (if bool_decide ("-live" ∈ argv) return M unit then
     output (nl +:+ "*** LIVE MODE: Edits will be saved to Wiktionary! ***"
             +:+ nl)
   else
     output (nl +:+ "*** DRY RUN MODE: No edits will be made. Use -live argument to save. ***"
             +:+ nl));;
  login;;
  calendar_driver START_YEAR START_MONTH END_YEAR END_MONTH now
    (fun year month_name =>
       run_wotd_processing_for_month year month_name is_dry_run).

(** ** Notions used to state the properties *)

(** Two worlds hold the same wiki: same pages, same protections. *)
Definition same_wiki (w w' : world) : Prop :=
  texts w = texts w' ∧ prots w = prots w'.

(** [page] exists and its edit protection is at the level ['sysop']. *)
Definition created_and_protected (w : world) (page : string) : Prop :=
  is_Some (texts w !! page)
  ∧ edit_level (default ∅ (prots w !! page)) = Some "sysop".

(** Every complete run of the thread [t], whatever the backend answers,
    emits exactly [n] events that satisfy [P]. *)
Fixpoint emits (P : event -> bool) (t : thread) (n : nat) : Prop :=
  match t with
  | Return | Raise _ => n = 0%nat
  | Emit lines k => count P lines ≤ n ∧ emits P k (n - count P lines)
  | PageExists title k =>
      ∀ r, count P [EvExists title r] ≤ n
           ∧ emits P (k r) (n - count P [EvExists title r])
  | PageSave title text summary k =>
      ∀ r, count P [EvSave title text summary r] ≤ n
           ∧ emits P (k r) (n - count P [EvSave title text summary r])
  | PageProtection title k =>
      ∀ r, count P [EvProtection title r] ≤ n
           ∧ emits P (k r) (n - count P [EvProtection title r])
  | PageProtect title protections reason k =>
      ∀ r, count P [EvProtect title protections reason r] ≤ n
           ∧ emits P (k r) (n - count P [EvProtect title protections reason r])
  end.

(** No run of [m] emits an event that satisfies [P]. *)
Definition silent {A} (P : event -> bool) (m : M A) : Prop :=
  ∀ w, count P (m w).1.1 = 0%nat.

(** A run of [m] that emits no write leaves the wiki as it was. *)
Definition framed {A} (m : M A) : Prop :=
  ∀ w, count is_write (m w).1.1 = 0%nat → same_wiki w (m w).1.2.

(** The sections after the first, two by two: heading number and the
    text that follows it. *)
Fixpoint pair_up (l : list string) : list (string * string) :=
  match l with
  | d :: c :: rest => (d, c) :: pair_up rest
  | _ => []
  end.

(** The (day, content) pairs of a month text: the captured day numbers
    with the trimmed text between the headings. *)
Definition day_pairs (wikitext : string) : list (string * string) :=
  (fun p => (p.1, Text.strip p.2)) <$> pair_up (tail (Re.split wikitext)).

(** The marker [{{wotd], in any case of its letters. *)
Definition is_marker (m : string) : Prop :=
  ∃ w o t d : ascii,
    m = String "{" (String "{" (String w (String o (String t (String d "")))))
    ∧ (w = "w" ∨ w = "W")%char ∧ (o = "o" ∨ o = "O")%char
    ∧ (t = "t" ∨ t = "T")%char ∧ (d = "d" ∨ d = "D")%char.

Definition has_marker (content : string) : Prop :=
  ∃ pre m post, content = pre +:+ m +:+ post ∧ is_marker m.

(** A pair is valid: its content is not empty and contains the marker,
    case-insensitively. *)
Definition valid (content : string) : Prop :=
  content ≠ "" ∧ has_marker content.

(** A pair is invalid: its content is not empty and lacks the marker. *)
Definition invalid (content : string) : Prop :=
  content ≠ "" ∧ ¬ has_marker content.

(** What becomes of the pairs of a month, in their order: the valid
    pairs are [accepted], each becomes a task; the days of the invalid
    pairs are [skipped], each with a warning; the empty pairs are
    dropped. *)
Inductive scanned :
  list (string * string) → list (string * string) → list string → Prop :=
| scanned_nil : scanned [] [] []
| scanned_valid p pairs accepted skipped :
    valid p.2 → scanned pairs accepted skipped →
    scanned (p :: pairs) (p :: accepted) skipped
| scanned_invalid p pairs accepted skipped :
    invalid p.2 → scanned pairs accepted skipped →
    scanned (p :: pairs) accepted (p.1 :: skipped)
| scanned_empty p pairs accepted skipped :
    p.2 = "" → scanned pairs accepted skipped →
    scanned (p :: pairs) accepted skipped.

(** The warning of line 110. *)
Definition skip_warning (day : string) : event :=
  EvWarning ("Skipping section for day " +:+ day
             +:+ " as it does not contain a WOTD template.").

(** [day] is the number of a heading of [wikitext], as written there:
    [==], white space, the digits, white space, [==]. *)
Definition heading_number_in (wikitext day : string) : Prop :=
  ∃ pre ws1 ws2 post,
    wikitext = pre +:+ "==" +:+ ws1 +:+ day +:+ ws2 +:+ "==" +:+ post
    ∧ Text.all_chars Text.is_space ws1 = true
    ∧ Text.all_chars Text.is_space ws2 = true
    ∧ Text.all_chars Text.is_digit day = true
    ∧ day ≠ "".

(** The title of the page a task is about. *)
Definition title_of (task_info : task_info) : string :=
  target_page_title_of (year task_info) (month_name task_info) (day task_info).

(** The task the orchestrator builds for a pair. *)
Definition task_of (year : Z) (month_name : string) (dry_run : bool)
    (p : string * string) : task_info :=
  TaskInfo year month_name p.1 p.2 dry_run
           (create_summary_of year month_name) protect_reason_text.

(** The months of the closed range from [start] to [end], each a pair
    (year, month number in 1..12), in chronological order: months are
    counted from year 0, twelve to a year. *)
Definition month_index (ym : Z * Z) : Z := 12 * ym.1 + (ym.2 - 1).
Definition month_of_index (i : Z) : Z * Z := (i `div` 12, i `mod` 12 + 1)%Z.
Definition months_between (start_year start_month end_year end_month : Z)
  : list (Z * Z) :=
  month_of_index
    <$> seqZ (month_index (start_year, start_month))
             (month_index (end_year, end_month)
              - month_index (start_year, start_month) + 1).

(** [ym] is strictly after the month [now]. *)
Definition after (now ym : Z * Z) : Prop :=
  (month_index now < month_index ym)%Z.

Global Instance after_dec (now ym : Z * Z) : Decision (after now ym) :=
  Z_lt_dec _ _.

(** The (year, month) pairs the two loops of the driver go through, in
    the order of the loops. *)
Definition visited (start_year start_month end_year end_month : Z)
  : list (Z * Z) :=
  py_range start_year (end_year + 1)
  ≫= λ year, (λ month_num, (year, month_num))
               <$> months_of_year start_year start_month end_year end_month
                                  year.

(** [ym1] is strictly before [ym2]. *)
Definition before (ym1 ym2 : Z * Z) : Prop :=
  (month_index ym1 < month_index ym2)%Z.

(** A list of months in strictly chronological order. *)
Definition chronological (months : list (Z * Z)) : Prop :=
  ∀ i j ym1 ym2,
    (i < j)%nat → months !! i = Some ym1 → months !! j = Some ym2 →
    before ym1 ym2.

(** What the driver does for one month that is not in the future. *)
Definition process_month (run_month : Z -> string -> M unit) (ym : Z * Z)
  : M unit :=
  month_name ← calendar_month_name ym.2;
  output banner;;
  output ("### PROCESSING " +:+ Text.upper month_name +:+ " "
          +:+ pretty ym.1 +:+ " ###");;
  output (Text.repeat_char "#" 50);;
  run_month ym.1 month_name.

(** What the driver does when it meets a month in the future. *)
Definition stop_at (ym : Z * Z) : M unit :=
  output banner;;
  name ← calendar_month_name ym.2;
  output ("### Reached future date (" +:+ name +:+ " "
          +:+ pretty ym.1 +:+ "). Stopping script. ###");;
  output (Text.repeat_char "#" 50).

(** The months of [processed] handled one after the other, then the end
    of the run: the stop at the first of the months [later], or the
    last line of the script when there is none. *)
Fixpoint in_sequence (run_month : Z -> string -> M unit)
    (processed later : list (Z * Z)) : M unit :=
  match processed with
  | ym :: processed' =>
      process_month run_month ym;; in_sequence run_month processed' later
  | [] =>
      match later with
      | ym :: _ => stop_at ym
      | [] => output (nl +:+ "Script finished.")
      end
  end.

(** No leading zero: the numeral is not padded. *)
Definition unpadded (day : string) : bool :=
  match day with
  | String "0" (String _ _) => false
  | _ => true
  end.

(** ** Notions used to state the further properties *)

(** A month text put back together from its matches: for each match,
    the heading as it is written, then the section that follows. *)
Fixpoint rebuild (matches : list (string * string * string)) : string :=
  match matches with
  | [] => ""
  | (heading_text, _, section) :: matches' =>
      heading_text +:+ section +:+ rebuild matches'
  end.

(** A call of the backend, as opposed to a log line. *)
Definition is_backend (ev : event) : bool :=
  match ev with
  | EvOutput _ | EvWarning _ | EvError _ => false
  | _ => true
  end.

(** A save of the page [title] that succeeded. *)
Definition is_saved (title : string) (ev : event) : bool :=
  match ev with
  | EvSave t _ _ (Ok _) => bool_decide (t = title)
  | _ => false
  end.

(** A [protect] of the page [title] that succeeded. *)
Definition is_protected (title : string) (ev : event) : bool :=
  match ev with
  | EvProtect t _ _ (Ok _) => bool_decide (t = title)
  | _ => false
  end.

(** A call of [save] whose title, text and summary are not among
    [allowed]. *)
Definition saves_outside (allowed : list (string * string * string))
    (ev : event) : bool :=
  match ev with
  | EvSave t text summary _ => negb (bool_decide ((t, text, summary) ∈ allowed))
  | _ => false
  end.

(** A call of [protect] other than the one of line 64 on a page of
    [titles]. *)
Definition protects_outside (titles : list string) (ev : event) : bool :=
  match ev with
  | EvProtect t protections reason _ =>
      negb (bool_decide (t ∈ titles)
            && bool_decide (protections = [("edit", "sysop"); ("move", "sysop")])
            && bool_decide (reason = protect_reason_text))
  | _ => false
  end.

(** The exception a backend call ended with, if it did. *)
Definition failure_of (ev : event) : option exn :=
  match ev with
  | EvLogin (Exc e) | EvExists _ (Exc e) | EvText _ (Exc e)
  | EvSave _ _ _ (Exc e) | EvProtection _ (Exc e) | EvProtect _ _ _ (Exc e) =>
      Some e
  | _ => None
  end.



(** Between [w] and [w'], with the events [evs] in between: without a
    successful save of [title] among them the text of [title] is as it
    was, and without a successful [protect] of [title] its protection. *)
Definition kept (title : string) (w : world) (evs : list event) (w' : world)
  : Prop :=
  (count (is_saved title) evs = 0%nat -> texts w' !! title = texts w !! title)
  /\ (count (is_protected title) evs = 0%nat ->
      prots w' !! title = prots w !! title).

(** Every run of [m] is such. *)
Definition keeps {A} (title : string) (m : M A) : Prop :=
  forall w, kept title w (m w).1.1 (m w).1.2.

(** ** Sample data *)

(** A wiki without pages where no call fails. *)
Definition quiet_world : world := World ∅ ∅ [] [] 0.

(** The first day of January 2006, live and as a dry run. *)
Definition sample_task : task_info :=
  TaskInfo 2006 "January" "1" "{{wotd|foo}}" false
           (create_summary_of 2006 "January") protect_reason_text.

Definition sample_dry_task : task_info :=
  TaskInfo 2006 "January" "1" "{{wotd|foo}}" true
           (create_summary_of 2006 "January") protect_reason_text.

(** The month text of the scenario of the specification. *)
Definition sample_month : string :=
  "==1==
{{wotd|foo}}
==2==
irrelevant
==3==
{{wotd|bar}}".

(** A wiki that holds the source page of January 2006 with the text
    [text]; [faults] and [sched] as given. *)
Definition january_world (text : string) (faults : list (option exn))
    (sched : list nat) : world :=
  World {[ source_page_title_of 2006 "January" := text ]} ∅ faults sched 0.

(** * Properties *)

(** ** Strings *)

#[local] Arguments String.append !_ _ / : simpl nomatch.

Section Strings.
Import Text.

Lemma str_app_nil_r (s : string) : s +:+ "" = s.
Proof. induction s as [|c s IH]; simpl; [done | by rewrite IH]. Qed.

Lemma str_app_assoc (a b c : string) : (a +:+ b) +:+ c = a +:+ (b +:+ c).
Proof. induction a as [|x a IH]; simpl; [done | by rewrite IH]. Qed.

Lemma str_length_app (a b : string) :
  String.length (a +:+ b) = (String.length a + String.length b)%nat.
Proof. induction a as [|x a IH]; simpl; [done | by rewrite IH]. Qed.

Lemma take_app_length (a b : string) : take (String.length a) (a +:+ b) = a.
Proof. induction a as [|x a IH]; simpl; [by destruct b | by rewrite IH]. Qed.

Lemma truthy_true (s : string) : truthy s = true ↔ s ≠ "".
Proof. destruct s; simpl; split; (done || congruence). Qed.

Lemma starts_with_spec (pat s : string) :
  starts_with pat s = true ↔ ∃ post, s = pat +:+ post.
Proof.
  revert s; induction pat as [|a pat IH]; intros s; simpl.
  - split; [eauto | done].
  - destruct s as [|b s].
    + split; [done | intros [post H]; discriminate].
    + destruct (Ascii.eqb_spec a b) as [->|Hne].
      * rewrite IH. split; intros [post H]; exists post; congruence.
      * split; [done | intros [post H]; congruence].
Qed.

Lemma contains_spec (pat s : string) :
  contains pat s = true ↔ ∃ pre post, s = pre +:+ pat +:+ post.
Proof.
  induction s as [|c s IH].
  - simpl. rewrite orb_false_r, starts_with_spec. split.
    + intros [post H]. by exists "", post.
    + intros (pre & post & H). destruct pre; [by exists post | discriminate].
  - cbn [contains]. rewrite orb_true_iff, starts_with_spec, IH. split.
    + intros [[post H] | (pre & post & H)].
      * by exists "", post.
      * exists (String c pre), post. simpl. by rewrite H.
    + intros (pre & post & H). destruct pre as [|x pre]; simpl in H.
      * left. by exists post.
      * right. exists pre, post. congruence.
Qed.

Lemma lower_app (a b : string) : lower (a +:+ b) = lower a +:+ lower b.
Proof.
  unfold lower. induction a as [|x a IH]; simpl; [done | by rewrite IH].
Qed.

Lemma lower_app_inv (s a b : string) :
  lower s = a +:+ b → ∃ s1 s2, s = s1 +:+ s2 ∧ lower s1 = a ∧ lower s2 = b.
Proof.
  unfold lower. revert s; induction a as [|x a IH]; intros s H; simpl in H.
  - by exists "", s.
  - destruct s as [|c s]; simpl in H; [discriminate|].
    injection H as Hc Hs. destruct (IH _ Hs) as (s1 & s2 & -> & H1 & H2).
    exists (String c s1), s2. simpl. by rewrite H1, Hc.
Qed.

(** The characters that [str.lower] sends to a character of the
    marker. *)
Lemma lower_char_brace (c : ascii) : lower_char c = "{"%char ↔ c = "{"%char.
Proof.
  destruct c as [[] [] [] [] [] [] [] []]; vm_compute; split; congruence.
Qed.

Lemma lower_char_w (c : ascii) :
  lower_char c = "w"%char ↔ (c = "w" ∨ c = "W")%char.
Proof.
  destruct c as [[] [] [] [] [] [] [] []]; vm_compute;
    (split; [try congruence; auto | intros [?|?]; congruence]).
Qed.

Lemma lower_char_o (c : ascii) :
  lower_char c = "o"%char ↔ (c = "o" ∨ c = "O")%char.
Proof.
  destruct c as [[] [] [] [] [] [] [] []]; vm_compute;
    (split; [try congruence; auto | intros [?|?]; congruence]).
Qed.

Lemma lower_char_t (c : ascii) :
  lower_char c = "t"%char ↔ (c = "t" ∨ c = "T")%char.
Proof.
  destruct c as [[] [] [] [] [] [] [] []]; vm_compute;
    (split; [try congruence; auto | intros [?|?]; congruence]).
Qed.

Lemma lower_char_d (c : ascii) :
  lower_char c = "d"%char ↔ (c = "d" ∨ c = "D")%char.
Proof.
  destruct c as [[] [] [] [] [] [] [] []]; vm_compute;
    (split; [try congruence; auto | intros [?|?]; congruence]).
Qed.

Lemma lower_is_marker (m : string) : lower m = "{{wotd" ↔ is_marker m.
Proof.
  unfold lower, is_marker. split.
  - destruct m as [|a [|b [|w [|o [|t [|d [|? ?]]]]]]]; simpl; try discriminate.
    intros [= Ha Hb Hw Ho Ht Hd].
    rewrite lower_char_brace in Ha, Hb. subst a b.
    exists w, o, t, d. split; [done|].
    by rewrite <- lower_char_w, <- lower_char_o, <- lower_char_t,
               <- lower_char_d.
  - intros (w & o & t & d & -> & Hw & Ho & Ht & Hd). simpl.
    rewrite <- lower_char_w in Hw. rewrite <- lower_char_o in Ho.
    rewrite <- lower_char_t in Ht. rewrite <- lower_char_d in Hd.
    by rewrite Hw, Ho, Ht, Hd.
Qed.

(** The test of line 101 decides the marker. *)
Lemma has_wotd_template_spec (content : string) :
  has_wotd_template content = true ↔ has_marker content.
Proof.
  unfold has_wotd_template, has_marker. rewrite contains_spec. split.
  - intros (pre & post & H).
    apply lower_app_inv in H as (s1 & s2 & -> & H1 & H2).
    apply lower_app_inv in H2 as (m & s3 & -> & Hm & H3).
    exists s1, m, s3. split; [done | by apply lower_is_marker].
  - intros (pre & m & post & -> & Hm). apply lower_is_marker in Hm.
    exists (lower pre), (lower post). by rewrite !lower_app, Hm.
Qed.

Lemma is_valid_section_spec (content : string) :
  is_valid_section content = true ↔ valid content.
Proof.
  unfold is_valid_section, valid.
  by rewrite andb_true_iff, truthy_true, has_wotd_template_spec.
Qed.

Lemma is_valid_section_false (content : string) :
  is_valid_section content = false →
  (truthy content = true ↔ invalid content).
Proof.
  unfold is_valid_section, invalid. intros H.
  rewrite <- truthy_true, <- has_wotd_template_spec.
  destruct (truthy content); simpl in H.
  - rewrite H. split; [intros _; split; [done | congruence] | done].
  - split; [done | by intros [? _]].
Qed.

End Strings.

(** ** The heading pattern and the split *)

Section Splitter.
Import Text Re.

Lemma lit_sound {R} (c : ascii) (k : string → option R) (s : string) (r : R) :
  lit c k s = Some r → ∃ s', s = String c s' ∧ k s' = Some r.
Proof.
  destruct s as [|c' s]; simpl; [done|].
  destruct (Ascii.eqb_spec c c') as [->|]; [eauto | done].
Qed.

Lemma star_sound {R} (cls : ascii → bool) (k : string → option R)
    (s : string) (r : R) :
  star cls k s = Some r →
  ∃ run s', s = run +:+ s' ∧ all_chars cls run = true ∧ k s' = Some r.
Proof.
  induction s as [|c s IH]; simpl; intros H.
  - by exists "", "".
  - destruct (cls c) eqn:Hc; [|by exists "", (String c s)].
    destruct (star cls k s) as [r'|] eqn:Hs; [|by exists "", (String c s)].
    injection H as ->. destruct (IH eq_refl) as (run & s' & -> & Hrun & Hk).
    exists (String c run), s'. simpl. by rewrite Hc, Hrun.
Qed.

Lemma plus_sound {R} (cls : ascii → bool) (k : string → option R)
    (s : string) (r : R) :
  plus cls k s = Some r →
  ∃ run s',
    s = run +:+ s' ∧ all_chars cls run = true ∧ run ≠ "" ∧ k s' = Some r.
Proof.
  destruct s as [|c s]; simpl; [done|].
  destruct (cls c) eqn:Hc; [|done]. intros H.
  apply star_sound in H as (run & s' & -> & Hrun & Hk).
  exists (String c run), s'. simpl. by rewrite Hc, Hrun.
Qed.

(** What a match of the pattern looks like. *)
Lemma heading_sound (s group rest : string) :
  heading s = Some (group, rest) →
  ∃ ws1 ws2,
    s = "==" +:+ ws1 +:+ group +:+ ws2 +:+ "==" +:+ rest
    ∧ all_chars is_space ws1 = true ∧ all_chars is_space ws2 = true
    ∧ all_chars is_digit group = true ∧ group ≠ "".
Proof.
  unfold heading. intros H.
  apply lit_sound in H as (s1 & -> & H).
  apply lit_sound in H as (s2 & -> & H).
  apply star_sound in H as (ws1 & at_open & -> & Hws1 & H).
  apply plus_sound in H as (ds & at_close & -> & Hds & Hne & H).
  apply star_sound in H as (ws2 & s3 & -> & Hws2 & H).
  apply lit_sound in H as (s4 & -> & H).
  apply lit_sound in H as (s5 & -> & H).
  injection H as <- <-. exists ws1, ws2.
  assert (captured (ds +:+ ws2 +:+ String "=" (String "=" s5))
                   (ws2 +:+ String "=" (String "=" s5)) = ds) as ->.
  { unfold captured. rewrite str_length_app.
    replace (_ + _ - _)%nat with (String.length ds) by lia.
    apply take_app_length. }
  done.
Qed.

Lemma pair_up_flatten (ps : list (string * string)) :
  pair_up (ps ≫= λ p, [p.1; p.2]) = ps.
Proof.
  induction ps as [|[d c] ps IH]; [done|].
  change (((d, c) :: ps) ≫= λ p, [p.1; p.2])
    with (d :: c :: (ps ≫= λ p : string * string, [p.1; p.2])).
  simpl. by f_equal.
Qed.

(** The result of the scan: a first piece, then a day number and a
    text for each match; every day number was captured by a match of
    the pattern somewhere in the subject. *)
Lemma split_scan_shape (s : string) (skip : nat) (piece : string) :
  ∃ hd ps,
    split_scan s skip piece = hd :: (ps ≫= λ p, [p.1; p.2])
    ∧ ∀ p, p ∈ ps →
           ∃ pre s0 rest, s = pre +:+ s0 ∧ heading s0 = Some (p.1, rest).
Proof.
  revert skip piece. induction s as [|c s IH]; intros skip piece.
  - exists piece, []. split; [done | intros p Hp; inversion Hp].
  - cbn [split_scan]. destruct skip as [|n].
    + destruct (heading (String c s)) as [[group rest]|] eqn:Hh.
      * destruct (IH (String.length s - String.length rest)%nat "")
          as (hd & ps & -> & Hps).
        exists piece, ((group, hd) :: ps). split; [done|].
        intros p [->|Hp]%elem_of_cons.
        -- by exists "", (String c s), rest.
        -- destruct (Hps p Hp) as (pre & s0 & rest' & -> & H0).
           by exists (String c pre), s0, rest'.
      * destruct (IH 0%nat (piece +:+ String c "")) as (hd & ps & -> & Hps).
        exists hd, ps. split; [done|].
        intros p Hp. destruct (Hps p Hp) as (pre & s0 & rest' & -> & H0).
        by exists (String c pre), s0, rest'.
    + destruct (IH n piece) as (hd & ps & -> & Hps).
      exists hd, ps. split; [done|].
      intros p Hp. destruct (Hps p Hp) as (pre & s0 & rest' & -> & H0).
      by exists (String c pre), s0, rest'.
Qed.

Lemma split_shape (wikitext : string) :
  ∃ hd ps,
    split wikitext = hd :: (ps ≫= λ p, [p.1; p.2])
    ∧ day_pairs wikitext = (λ p, (p.1, strip p.2)) <$> ps
    ∧ ∀ p, p ∈ ps → heading_number_in wikitext p.1.
Proof.
  unfold day_pairs, split.
  destruct (split_scan_shape wikitext 0 "") as (hd & ps & -> & Hps).
  exists hd, ps. split; [done|]. split.
  - simpl. by rewrite pair_up_flatten.
  - intros p Hp. destruct (Hps p Hp) as (pre & s0 & rest & -> & H0).
    apply heading_sound in H0 as (ws1 & ws2 & -> & H1 & H2 & H3 & H4).
    by exists pre, ws1, ws2, rest.
Qed.

Lemma digit_not_space (c : ascii) : is_digit c = true → is_space c = false.
Proof. destruct c as [[] [] [] [] [] [] [] []]; by vm_compute. Qed.

Lemma space_not_digit (c : ascii) : is_space c = true → is_digit c = false.
Proof. destruct c as [[] [] [] [] [] [] [] []]; by vm_compute. Qed.

(** A greedy repetition followed by a character outside its class
    stops there, when the rest of the pattern then matches. *)
Lemma star_complete {R} (cls : ascii → bool) (k : string → option R)
    (run s' : string) (r : R) :
  all_chars cls run = true →
  (∀ c s'', s' = String c s'' → cls c = false) →
  k s' = Some r →
  star cls k (run +:+ s') = Some r.
Proof.
  intros Hrun Hnext Hk. induction run as [|c run IH]; simpl in *.
  - destruct s' as [|c s'']; simpl; [done|]. by rewrite (Hnext c s'').
  - apply andb_true_iff in Hrun as [-> Hrun]. by rewrite IH.
Qed.

(** Every text of the form of the pattern is matched, with its digits
    as group 1. *)
Lemma heading_complete (ws1 ds ws2 rest : string) :
  all_chars is_space ws1 = true → all_chars is_digit ds = true → ds ≠ "" →
  all_chars is_space ws2 = true →
  heading ("==" +:+ ws1 +:+ ds +:+ ws2 +:+ "==" +:+ rest) = Some (ds, rest).
Proof.
  intros Hws1 Hds Hne Hws2. unfold heading. cbn [lit String.append Ascii.eqb Bool.eqb].
  destruct ds as [|d ds]; [done|]. simpl in Hds.
  apply andb_true_iff in Hds as [Hd Hds].
  apply star_complete; [done | |].
  - intros c s''. simpl. intros [= <- _]. by apply digit_not_space.
  - simpl. rewrite Hd. apply star_complete; [done | |].
    + intros c s'' Heq. destruct ws2 as [|x ws2]; simpl in *.
      * by injection Heq as <- _.
      * injection Heq as <- _. apply space_not_digit.
        by apply andb_true_iff in Hws2 as [? _].
    + apply star_complete; [done | |].
      * intros c s''. simpl. by intros [= <- _].
      * simpl. f_equal. f_equal. unfold captured.
        change (String d (ds +:+ ws2 +:+ String "=" (String "=" rest)))
          with (String d ds +:+ ws2 +:+ String "=" (String "=" rest)).
        rewrite str_length_app.
        replace (_ + _ - _)%nat with (String.length (String d ds)) by lia.
        apply take_app_length.
Qed.

Lemma split_scan_skip (m rest piece : string) :
  split_scan (m +:+ rest) (String.length m) piece = split_scan rest 0 piece.
Proof.
  induction m as [|c m IH]; simpl; [by destruct rest | done].
Qed.

(** The equations of the scan: at a match, the piece and the group,
    and the scan goes on after the match; elsewhere, one character
    more in the piece. *)
Lemma split_scan_match (s group rest piece : string) :
  heading s = Some (group, rest) →
  split_scan s 0 piece = piece :: group :: split_scan rest 0 "".
Proof.
  intros Hh. pose proof (heading_sound _ _ _ Hh) as (ws1 & ws2 & Hs & _).
  destruct s as [|c s]; [done|]. cbn [split_scan]. rewrite Hh.
  do 2 f_equal. simpl in Hs. injection Hs as -> ->.
  set (m := String "=" (ws1 +:+ group +:+ ws2 +:+ "==")).
  assert (String "=" (ws1 +:+ group +:+ ws2 +:+ String "=" (String "=" rest))
          = m +:+ rest) as ->.
  { unfold m. simpl. by rewrite !str_app_assoc. }
  rewrite str_length_app.
  replace (_ + _ - _)%nat with (String.length m) by lia.
  apply split_scan_skip.
Qed.

Lemma split_scan_no_match (c : ascii) (s piece : string) :
  heading (String c s) = None →
  split_scan (String c s) 0 piece = split_scan s 0 (piece +:+ String c "").
Proof. intros Hh. cbn [split_scan]. by rewrite Hh. Qed.

Lemma day_pairs_heading (wikitext : string) (p : string * string) :
  p ∈ day_pairs wikitext → heading_number_in wikitext p.1.
Proof.
  destruct (split_shape wikitext) as (hd & ps & _ & -> & Hps).
  intros (q & -> & Hq)%list_elem_of_fmap. simpl. by apply Hps.
Qed.

End Splitter.

Example split_scenario :
  Re.split "==1==
{{wotd|foo}}
==2==
irrelevant
==3==
{{wotd|bar}}"
  = [""; "1"; "
{{wotd|foo}}
"; "2"; "
irrelevant
"; "3"; "
{{wotd|bar}}"].
Proof. reflexivity. Qed.

Example split_nested_equals :
  Re.split "a====  07  ====b== x ==" = ["a=="; "07"; "==b== x =="].
Proof. reflexivity. Qed.

(** ** The monad of sequential code *)

Ltac unmonad :=
  unfold mbind, M_bind, mret, M_ret, bind, ret, raise, output, warning,
    error, emit.

Lemma bind_ok {A B} (m : M A) (f : A → M B) (w w1 : world)
    (evs : list event) (a : A) :
  m w = (evs, w1, Ok a) →
  (m ≫= f) w = (let '(evs2, w2, r) := f a w1 in (evs ++ evs2, w2, r)).
Proof. unmonad. by intros ->. Qed.

Lemma bind_exc {A B} (m : M A) (f : A → M B) (w w1 : world)
    (evs : list event) (e : exn) :
  m w = (evs, w1, Exc e) → (m ≫= f) w = (evs, w1, Exc e).
Proof. unmonad. by intros ->. Qed.

Lemma py_index_ok (l : list string) (i : nat) (x : string) (w : world) :
  l !! i = Some x → py_index l i w = ([], w, Ok x).
Proof. unfold py_index. by intros ->. Qed.

(** ** The loop over the sections *)

Section Scan.
Import Text Re.
Context (year : Z) (month_name : string) (dry_run : bool)
        (create_summary protect_reason : string).

Let rejected (p : string * string) : Prop :=
  truthy p.2 = true ∧ is_valid_section p.2 = false.
Let trim (p : string * string) : string * string := (p.1, strip p.2).
Let warn (p : string * string) : event :=
  EvWarning ("Skipping section for day " +:+ p.1
             +:+ " as it does not contain a WOTD template.").
Let task (p : string * string) : task_info :=
  TaskInfo year month_name p.1 p.2 dry_run create_summary protect_reason.

Lemma scan_loop (sections pre : list string) (ps : list (string * string))
    (j : nat) (tasks : list task_info) (flag : bool) (w : world) :
  sections = pre ++ (ps ≫= λ p, [p.1; p.2]) →
  length pre = (1 + 2 * j)%nat →
  for_fold ((λ k, 1 + 2 * k)%nat <$> seq j (length ps))
           (scan_section year month_name dry_run create_summary
                         protect_reason sections)
           (tasks, flag) w
  = (warn <$> filter rejected (trim <$> ps), w,
     Ok (tasks ++ (task <$> filter (λ p, is_valid_section p.2 = true)
                                   (trim <$> ps)),
         flag || bool_decide (Exists rejected (trim <$> ps)))).
Proof.
  revert pre j tasks flag w.
  induction ps as [|[d c] ps IH]; intros pre j tasks flag w Hsec Hlen.
  - simpl. unmonad. rewrite app_nil_r. by rewrite orb_false_r.
  - change (((d, c) :: ps) ≫= λ p, [p.1; p.2])
      with (d :: c :: (ps ≫= λ p : string * string, [p.1; p.2])) in Hsec.
    assert (sections !! (1 + 2 * j)%nat = Some d) as Hd.
    { rewrite Hsec, lookup_app_r by lia.
      by replace (1 + 2 * j - length pre)%nat with 0%nat by lia. }
    assert (sections !! (1 + 2 * j + 1)%nat = Some c) as Hc.
    { rewrite Hsec, lookup_app_r by lia.
      by replace (1 + 2 * j + 1 - length pre)%nat with 1%nat by lia. }
    cbn [length seq fmap list_fmap for_fold].
    specialize (IH (pre ++ [d; c]) (S j)).
    rewrite <- app_assoc in IH.
    assert (length (pre ++ [d; c]) = (1 + 2 * S j)%nat) as Hlen'
      by (rewrite length_app; simpl; lia).
    assert (scan_section year month_name dry_run create_summary
              protect_reason sections (tasks, flag) (1 + 2 * j)%nat w
            = (if is_valid_section (strip c) then []
               else if truthy (strip c) then [warn (d, strip c)] else [],
               w,
               Ok (if is_valid_section (strip c)
                   then tasks ++ [task (d, strip c)] else tasks,
                   if is_valid_section (strip c) then flag
                   else if truthy (strip c) then true else flag))) as Hbody.
    { unfold scan_section.
      rewrite (bind_ok _ _ _ _ _ _ (py_index_ok _ _ _ w Hd)).
      rewrite (bind_ok _ _ _ _ _ _ (py_index_ok _ _ _ w Hc)).
      destruct (is_valid_section (strip c)); [done|].
      destruct (truthy (strip c)); done. }
    cbn [fmap list_fmap] in *.
    change (trim (d, c)) with (d, strip c).
    rewrite (bind_ok _ _ _ _ _ _ Hbody), (IH _ _ w Hsec Hlen').
    f_equal; [f_equal|].
    + rewrite filter_cons.
      destruct (decide (rejected (d, strip c))) as [[Ht Hv]|Hn]; cbn [fst snd] in *.
      * by rewrite Hv, Ht.
      * destruct (is_valid_section (strip c)) eqn:Hv; [done|].
        destruct (truthy (strip c)) eqn:Ht; [|done]. by destruct Hn.
    + f_equal. f_equal.
      * rewrite filter_cons.
        destruct (decide (is_valid_section (d, strip c).2 = true))
          as [Hv|Hv]; cbn [fst snd] in Hv.
        -- rewrite Hv. by rewrite <- app_assoc.
        -- apply not_true_is_false in Hv. by rewrite Hv.
      * assert (Exists rejected ((d, strip c) :: (trim <$> ps))
                ↔ rejected (d, strip c) ∨ Exists rejected (trim <$> ps))
          as Hex by apply Exists_cons.
        destruct (decide (rejected (d, strip c))) as [[Ht Hv]|Hn]; cbn [fst snd] in *.
        -- rewrite Hv, Ht.
           rewrite (bool_decide_eq_true_2 _
                      (proj2 Hex (or_introl (conj Ht Hv)))).
           by rewrite orb_true_r.
        -- assert (bool_decide (Exists rejected ((d, strip c) :: (trim <$> ps)))
                   = bool_decide (Exists rejected (trim <$> ps))) as ->.
           { apply bool_decide_ext. rewrite Hex. tauto. }
           destruct (is_valid_section (strip c)) eqn:Hv; [done|].
           destruct (truthy (strip c)) eqn:Ht; [by destruct Hn | done].
Qed.

Lemma length_flatten (ps : list (string * string)) :
  length (ps ≫= λ p, [p.1; p.2]) = (2 * length ps)%nat.
Proof.
  induction ps as [|[d c] ps IH]; [done|].
  change (((d, c) :: ps) ≫= λ p, [p.1; p.2])
    with (d :: c :: (ps ≫= λ p : string * string, [p.1; p.2])).
  simpl in *. lia.
Qed.

(** The loop, on the sections of a month text, in terms of its
    (day, content) pairs. *)
Lemma scan_sections_pairs (wikitext : string) (w : world) :
  scan_sections year month_name dry_run create_summary protect_reason
                (split wikitext) w
  = (warn <$> filter rejected (day_pairs wikitext), w,
     Ok (task <$> filter (λ p, is_valid_section p.2 = true)
                         (day_pairs wikitext),
         bool_decide (Exists rejected (day_pairs wikitext)))).
Proof.
  destruct (split_shape wikitext) as (hd & ps & Hsplit & -> & _).
  unfold scan_sections. rewrite Hsplit.
  assert (py_range_by_2 1 (length (hd :: (ps ≫= λ p, [p.1; p.2])))
          = (λ k, 1 + 2 * k)%nat <$> seq 0 (length ps)) as ->.
  { unfold py_range_by_2. cbn [length]. rewrite length_flatten.
    do 2 f_equal. replace (S (2 * length ps) - 1 + 1)%nat
      with (1 + length ps * 2)%nat by lia.
    rewrite Nat.div_add by done. simpl. lia. }
  by rewrite (scan_loop (hd :: _) [hd] ps 0 [] false w eq_refl eq_refl).
Qed.

End Scan.

(** ** Backend calls, threads and pools *)

Lemma count_app (P : event → bool) (a b : list event) :
  count P (a ++ b) = (count P a + count P b)%nat.
Proof. unfold count. by rewrite filter_app, length_app. Qed.

Lemma count_cons (P : event → bool) (ev : event) (evs : list event) :
  count P (ev :: evs) = (count P [ev] + count P evs)%nat.
Proof. apply (count_app P [ev] evs). Qed.

Lemma count_nil (P : event → bool) : count P [] = 0%nat.
Proof. done. Qed.

Lemma count_one (P : event → bool) (ev : event) :
  count P [ev] = if P ev then 1%nat else 0%nat.
Proof.
  unfold count. rewrite filter_cons, filter_nil.
  destruct (P ev); [by rewrite decide_True | by rewrite decide_False].
Qed.

Lemma count_pos (P : event → bool) (ev : event) (evs : list event) :
  ev ∈ evs → P ev = true → (0 < count P evs)%nat.
Proof.
  intros Hin HP. unfold count.
  assert (ev ∈ filter (λ ev, P ev = true) evs) as Hf
    by (by apply list_elem_of_filter).
  destruct (filter _ evs); [inversion Hf | simpl; lia].
Qed.

Lemma count_pos_inv (P : event → bool) (evs : list event) :
  (0 < count P evs)%nat → ∃ ev, ev ∈ evs ∧ P ev = true.
Proof.
  unfold count. destruct (filter _ evs) as [|ev l] eqn:Hf; simpl; [lia|].
  intros _. exists ev.
  assert (ev ∈ filter (λ ev, P ev = true) evs) as Hin
    by (rewrite Hf; apply list_elem_of_here).
  apply list_elem_of_filter in Hin as [? ?]. done.
Qed.

Lemma same_wiki_refl (w : world) : same_wiki w w.
Proof. done. Qed.

Lemma same_wiki_trans (w1 w2 w3 : world) :
  same_wiki w1 w2 → same_wiki w2 w3 → same_wiki w1 w3.
Proof. intros [? ?] [? ?]. split; congruence. Qed.

(** A backend call emits one event: the call with its result. *)
Lemma backend_event {A} (ev : outcome A → event) (run : world → world * A)
    (w : world) :
  (backend ev run w).1.1 = [ev (backend ev run w).2].
Proof.
  unfold backend. destruct (faults w) as [|[e|] fs]; [| done |];
    by destruct (run _).
Qed.

(** A backend call that reads leaves the wiki as it was. *)
Lemma backend_read {A} (ev : outcome A → event) (f : world → A) (w : world) :
  same_wiki w (backend ev (λ w, (w, f w)) w).1.2.
Proof. unfold backend. by destruct (faults w) as [|[e|] fs]. Qed.

Lemma page_exists_event (title : string) (w : world) :
  (page_exists title w).1.1 = [EvExists title (page_exists title w).2].
Proof. apply backend_event. Qed.

Lemma page_text_event (title : string) (w : world) :
  (page_text title w).1.1 = [EvText title (page_text title w).2].
Proof. apply backend_event. Qed.

Lemma page_save_event (title text summary : string) (w : world) :
  (page_save title text summary w).1.1
  = [EvSave title text summary (page_save title text summary w).2].
Proof. apply backend_event. Qed.

Lemma page_protection_event (title : string) (w : world) :
  (page_protection title w).1.1
  = [EvProtection title (page_protection title w).2].
Proof. apply backend_event. Qed.

Lemma page_protect_event (title : string) (protections : list (string * string))
    (reason : string) (w : world) :
  (page_protect title protections reason w).1.1
  = [EvProtect title protections reason
               (page_protect title protections reason w).2].
Proof. apply backend_event. Qed.

(** What a call of [exists] answers when it does not raise. *)
Lemma page_exists_ok (title : string) (w : world) (b : bool) :
  (page_exists title w).2 = Ok b → b = bool_decide (is_Some (texts w !! title)).
Proof.
  unfold page_exists, backend.
  destruct (faults w) as [|[e|] fs]; simpl; congruence.
Qed.

Lemma page_text_ok (title : string) (w : world) (text : string) :
  (page_text title w).2 = Ok text → text = default "" (texts w !! title).
Proof.
  unfold page_text, backend.
  destruct (faults w) as [|[e|] fs]; simpl; congruence.
Qed.

Lemma page_protection_ok (title : string) (w : world) (p : protection_dict) :
  (page_protection title w).2 = Ok p → p = default ∅ (prots w !! title).
Proof.
  unfold page_protection, backend.
  destruct (faults w) as [|[e|] fs]; simpl; congruence.
Qed.

Lemma page_save_ok (title text summary : string) (w : world) :
  (page_save title text summary w).2 = Ok tt →
  texts (page_save title text summary w).1.2 = <[title := text]> (texts w).
Proof.
  unfold page_save, backend.
  destruct (faults w) as [|[e|] fs]; simpl; congruence.
Qed.

Lemma page_exists_same (title : string) (w : world) :
  same_wiki w (page_exists title w).1.2.
Proof. apply backend_read. Qed.

Lemma page_text_same (title : string) (w : world) :
  same_wiki w (page_text title w).1.2.
Proof. apply backend_read. Qed.

Lemma page_protection_same (title : string) (w : world) :
  same_wiki w (page_protection title w).1.2.
Proof. apply backend_read. Qed.

Section Threads.
Context (P : event → bool).

(** One step takes its events out of what the thread still emits. *)
Lemma step_emits (t : thread) (n : nat) (w : world) :
  emits P t n →
  (count P (step t w).1.1 ≤ n)%nat
  ∧ emits P (step t w).2 (n - count P (step t w).1.1).
Proof.
  destruct t; simpl.
  - intros ->. by rewrite count_nil.
  - intros ->. by rewrite count_nil.
  - done.
  - intros H.
    pose proof (page_exists_event title w) as Hev.
    destruct (page_exists title w) as [[evs w1] r]; simpl in *. subst evs.
    apply H.
  - intros H.
    pose proof (page_save_event title text summary w) as Hev.
    destruct (page_save title text summary w) as [[evs w1] r]; simpl in *.
    subst evs. apply H.
  - intros H.
    pose proof (page_protection_event title w) as Hev.
    destruct (page_protection title w) as [[evs w1] r]; simpl in *.
    subst evs. apply H.
  - intros H.
    pose proof (page_protect_event title protections reason w) as Hev.
    destruct (page_protect title protections reason w) as [[evs w1] r];
      simpl in *.
    subst evs. apply H.
Qed.

Lemma run_thread_emits (t : thread) (n : nat) (w : world) :
  emits P t n → count P (run_thread t w).1.1 = n.
Proof.
  revert n w. induction t as [| |lines k IH|title k IH|title text summary k IH
                              |title k IH|title protections reason k IH];
    intros n w; simpl.
  - done.
  - done.
  - intros [Hle Hk]. specialize (IH _ w Hk).
    destruct (run_thread k w) as [[evs w'] r]; simpl in *.
    rewrite count_app. lia.
  - intros H.
    pose proof (page_exists_event title w) as Hev.
    destruct (page_exists title w) as [[evs w1] r]; simpl in *. subst evs.
    destruct (H r) as [Hle Hk]. specialize (IH r _ w1 Hk).
    destruct (run_thread (k r) w1) as [[evs2 w2] r2]; simpl in *.
    rewrite count_cons. lia.
  - intros H.
    pose proof (page_save_event title text summary w) as Hev.
    destruct (page_save title text summary w) as [[evs w1] r]; simpl in *.
    subst evs. destruct (H r) as [Hle Hk]. specialize (IH r _ w1 Hk).
    destruct (run_thread (k r) w1) as [[evs2 w2] r2]; simpl in *.
    rewrite count_cons. lia.
  - intros H.
    pose proof (page_protection_event title w) as Hev.
    destruct (page_protection title w) as [[evs w1] r]; simpl in *.
    subst evs. destruct (H r) as [Hle Hk]. specialize (IH r _ w1 Hk).
    destruct (run_thread (k r) w1) as [[evs2 w2] r2]; simpl in *.
    rewrite count_cons. lia.
  - intros H.
    pose proof (page_protect_event title protections reason w) as Hev.
    destruct (page_protect title protections reason w) as [[evs w1] r];
      simpl in *.
    subst evs. destruct (H r) as [Hle Hk]. specialize (IH r _ w1 Hk).
    destruct (run_thread (k r) w1) as [[evs2 w2] r2]; simpl in *.
    rewrite count_cons. lia.
Qed.

Lemma sum_list_insert_sub (ns : list nat) (j n c : nat) :
  ns !! j = Some n → (c ≤ n)%nat →
  (sum_list (<[j := n - c]> ns) + c = sum_list ns)%nat.
Proof.
  revert j. induction ns as [|m ns IH]; intros [|j] Hj Hc; simpl in *;
    try done.
  - injection Hj as ->. lia.
  - specialize (IH _ Hj Hc). lia.
Qed.

(** However the workers interleave, what they emit together is what
    each of them emits. *)
Lemma interleave_emits (s : list nat) (ths : list thread) (ns : list nat)
    (w : world) :
  Forall2 (emits P) ths ns →
  ∃ ns', Forall2 (emits P) (interleave s ths w).1.2 ns'
         ∧ (count P (interleave s ths w).1.1.1 + sum_list ns'
            = sum_list ns)%nat.
Proof.
  revert ths ns w. induction s as [|i s IH]; intros ths ns w Hall; simpl.
  - by exists ns.
  - destruct (forallb finished ths); [by exists ns|].
    destruct (ths !! (i mod length ths)%nat) as [t|] eqn:Ht;
      [|by exists ns].
    destruct (Forall2_lookup_l _ _ _ _ _ Hall Ht) as (n & Hn & Hemits).
    destruct (step_emits t n w Hemits) as [Hle Hnext].
    destruct (step t w) as [[evs w1] t'] eqn:Hstep; simpl in *.
    destruct (IH (<[(i mod length ths)%nat := t']> ths)
                 (<[(i mod length ths)%nat := (n - count P evs)%nat]> ns) w1)
      as (ns' & Hall' & Hsum).
    { by apply Forall2_insert. }
    destruct (interleave s _ w1) as [[[evs2 w2] ths2] s2]; simpl in *.
    exists ns'. split; [done|]. rewrite count_app.
    pose proof (sum_list_insert_sub ns _ n (count P evs) Hn Hle). lia.
Qed.

Lemma join_emits (ths : list thread) (ns : list nat) (w : world) :
  Forall2 (emits P) ths ns → count P (join ths w).1 = sum_list ns.
Proof.
  intros Hall. revert w.
  induction Hall as [|t n ths ns Ht Hall IH]; intros w; simpl; [done|].
  pose proof (run_thread_emits t n w Ht) as H1.
  destruct (run_thread t w) as [[evs w1] r]; simpl in *.
  specialize (IH w1). destruct (join ths w1) as [evs2 w2]; simpl in *.
  rewrite count_app. lia.
Qed.

Lemma executor_map_emits {T} (body : string → T → thread) (f : T → nat)
    (tasks : list T) (w : world) :
  (∀ name task, task ∈ tasks → emits P (body name task) (f task)) →
  count P (executor_map body tasks w).1.1 = sum_list (f <$> tasks).
Proof.
  intros Hbody. unfold executor_map.
  assert (Forall2 (emits P)
            (imap (λ i task, body (worker_name (executors w) i) task) tasks)
            (f <$> tasks)) as Hall.
  { generalize (worker_name (executors w)). intros name.
    revert name. induction tasks as [|task tasks IH]; intros name; simpl;
      constructor.
    - apply Hbody, list_elem_of_here.
    - apply IH. intros name' task' Hin. by apply Hbody, list_elem_of_further. }
  destruct (interleave_emits (sched w) _ _ w Hall) as (ns' & Hall' & Hsum).
  destruct (interleave (sched w) _ w) as [[[evs w1] ths1] s1]; simpl in *.
  pose proof (join_emits ths1 ns' (set_sched s1 w1) Hall') as Hjoin.
  destruct (join ths1 _) as [evs2 w2]; simpl in *.
  rewrite count_app. lia.
Qed.

End Threads.

(** ** Runs without writes *)

Lemma count_app_0 (P : event → bool) (a b : list event) :
  count P (a ++ b) = 0%nat ↔ count P a = 0%nat ∧ count P b = 0%nat.
Proof. rewrite count_app. lia. Qed.

Lemma step_framed (t : thread) (w : world) :
  count is_write (step t w).1.1 = 0%nat → same_wiki w (step t w).1.2.
Proof.
  destruct t; simpl; try done.
  - intros _. pose proof (backend_read (EvExists title)
      (λ w, bool_decide (is_Some (texts w !! title))) w) as H.
    unfold page_exists. by destruct (backend _ _ w) as [[evs w1] r].
  - pose proof (page_save_event title text summary w) as Hev.
    destruct (page_save title text summary w) as [[evs w1] r]; simpl in *.
    by subst evs.
  - intros _. pose proof (backend_read (EvProtection title)
      (λ w, default ∅ (prots w !! title)) w) as H.
    unfold page_protection. by destruct (backend _ _ w) as [[evs w1] r].
  - pose proof (page_protect_event title protections reason w) as Hev.
    destruct (page_protect title protections reason w) as [[evs w1] r];
      simpl in *.
    by subst evs.
Qed.

Lemma run_thread_framed (t : thread) : framed (run_thread t).
Proof.
  unfold framed.
  induction t as [| |lines k IH|title k IH|title text summary k IH
                  |title k IH|title protections reason k IH];
    intros w; simpl; try done.
  - specialize (IH w). destruct (run_thread k w) as [[evs w'] r]; simpl in *.
    rewrite count_app_0. intros [_ H]. auto.
  - pose proof (step_framed (PageExists title k) w) as Hs.
    pose proof (page_exists_event title w) as Hev. simpl in Hs.
    destruct (page_exists title w) as [[evs w1] r]; simpl in *. subst evs.
    specialize (IH r w1).
    destruct (run_thread (k r) w1) as [[evs2 w2] r2]; simpl in *.
    rewrite count_cons. intros H.
    eapply same_wiki_trans; [apply Hs | apply IH]; lia.
  - pose proof (page_save_event title text summary w) as Hev.
    destruct (page_save title text summary w) as [[evs w1] r]; simpl in *.
    subst evs. destruct (run_thread (k r) w1) as [[evs2 w2] r2]; simpl.
    rewrite count_cons, count_one. simpl. lia.
  - pose proof (step_framed (PageProtection title k) w) as Hs.
    pose proof (page_protection_event title w) as Hev. simpl in Hs.
    destruct (page_protection title w) as [[evs w1] r]; simpl in *. subst evs.
    specialize (IH r w1).
    destruct (run_thread (k r) w1) as [[evs2 w2] r2]; simpl in *.
    rewrite count_cons. intros H.
    eapply same_wiki_trans; [apply Hs | apply IH]; lia.
  - pose proof (page_protect_event title protections reason w) as Hev.
    destruct (page_protect title protections reason w) as [[evs w1] r];
      simpl in *.
    subst evs. destruct (run_thread (k r) w1) as [[evs2 w2] r2]; simpl.
    rewrite count_cons, count_one. simpl. lia.
Qed.

Lemma interleave_framed (s : list nat) (ths : list thread) (w : world) :
  count is_write (interleave s ths w).1.1.1 = 0%nat →
  same_wiki w (interleave s ths w).1.1.2.
Proof.
  revert ths w. induction s as [|i s IH]; intros ths w; simpl; [done|].
  destruct (forallb finished ths); [done|].
  destruct (ths !! (i mod length ths)%nat) as [t|]; [|done].
  pose proof (step_framed t w) as Hs.
  destruct (step t w) as [[evs w1] t']; simpl in *.
  specialize (IH (<[(i mod length ths)%nat := t']> ths) w1).
  destruct (interleave s _ w1) as [[[evs2 w2] ths2] s2]; simpl in *.
  rewrite count_app_0. intros [H1 H2].
  eapply same_wiki_trans; eauto.
Qed.

Lemma join_framed (ths : list thread) (w : world) :
  count is_write (join ths w).1 = 0%nat → same_wiki w (join ths w).2.
Proof.
  revert w. induction ths as [|t ths IH]; intros w; simpl; [done|].
  pose proof (run_thread_framed t w) as Ht.
  destruct (run_thread t w) as [[evs w1] r]; simpl in *.
  specialize (IH w1). destruct (join ths w1) as [evs2 w2]; simpl in *.
  rewrite count_app_0. intros [H1 H2].
  eapply same_wiki_trans; eauto.
Qed.

Lemma executor_map_framed {T} (body : string → T → thread) (tasks : list T) :
  framed (executor_map body tasks).
Proof.
  intros w. unfold executor_map.
  pose proof (interleave_framed (sched w)
    (imap (λ i task, body (worker_name (executors w) i) task) tasks) w) as Hi.
  destruct (interleave (sched w) _ w) as [[[evs w1] ths1] s1]; simpl in *.
  pose proof (join_framed ths1 (set_sched s1 w1)) as Hj.
  destruct (join ths1 _) as [evs2 w2]; simpl in *.
  rewrite count_app_0. intros [H1 H2].
  destruct (Hi H1) as [? ?], (Hj H2) as [? ?]. split; simpl in *; congruence.
Qed.

Section Combinators.
Context {A B : Type}.

Lemma framed_ret (a : A) : framed (ret a).
Proof. by intros w. Qed.

Lemma framed_raise (e : exn) : framed (@raise A e).
Proof. by intros w. Qed.

Lemma framed_emit (ev : event) : framed (emit ev).
Proof. by intros w. Qed.

Lemma framed_bind (m : M A) (f : A → M B) :
  framed m → (∀ a, framed (f a)) → framed (m ≫= f).
Proof.
  intros Hm Hf w. unmonad. specialize (Hm w).
  destruct (m w) as [[evs w1] [a|e]]; simpl in *; [|done].
  specialize (Hf a w1). destruct (f a w1) as [[evs2 w2] r]; simpl in *.
  rewrite count_app_0. intros [H1 H2]. eapply same_wiki_trans; eauto.
Qed.

Lemma framed_try_except (m : M A) (handler : string → M A) :
  framed m → (∀ reason, framed (handler reason)) →
  framed (try_except m handler).
Proof.
  intros Hm Hh w. unfold try_except. specialize (Hm w).
  destruct (m w) as [[evs w1] [a|[reason| |]]]; simpl in *; try done.
  specialize (Hh reason w1).
  destruct (handler reason w1) as [[evs2 w2] r]; simpl in *.
  rewrite count_app_0. intros [H1 H2]. eapply same_wiki_trans; eauto.
Qed.

Lemma framed_read (ev : outcome A → event) (f : world → A) :
  framed (backend ev (λ w, (w, f w))).
Proof. intros w _. apply backend_read. Qed.

Lemma framed_write (ev : outcome A → event) (run : world → world * A) :
  (∀ r, is_write (ev r) = true) → framed (backend ev run).
Proof.
  intros Hev w. rewrite backend_event, count_one, Hev. done.
Qed.

Context (P : event → bool).

Lemma silent_ret (a : A) : silent P (ret a).
Proof. by intros w. Qed.

Lemma silent_raise (e : exn) : silent P (@raise A e).
Proof. by intros w. Qed.

Lemma silent_emit (ev : event) : P ev = false → silent P (emit ev).
Proof. intros H w. unfold emit. simpl. by rewrite count_one, H. Qed.

Lemma silent_bind (m : M A) (f : A → M B) :
  silent P m → (∀ a, silent P (f a)) → silent P (m ≫= f).
Proof.
  intros Hm Hf w. unmonad. specialize (Hm w).
  destruct (m w) as [[evs w1] [a|e]]; simpl in *; [|done].
  specialize (Hf a w1). destruct (f a w1) as [[evs2 w2] r]; simpl in *.
  by rewrite count_app_0.
Qed.

Lemma silent_try_except (m : M A) (handler : string → M A) :
  silent P m → (∀ reason, silent P (handler reason)) →
  silent P (try_except m handler).
Proof.
  intros Hm Hh w. unfold try_except. specialize (Hm w).
  destruct (m w) as [[evs w1] [a|[reason| |]]]; simpl in *; try done.
  specialize (Hh reason w1).
  destruct (handler reason w1) as [[evs2 w2] r]; simpl in *.
  by rewrite count_app_0.
Qed.

Lemma silent_backend (ev : outcome A → event) (run : world → world * A) :
  (∀ r, P (ev r) = false) → silent P (backend ev run).
Proof. intros Hev w. by rewrite backend_event, count_one, Hev. Qed.

End Combinators.

Lemma framed_for_fold {A S} (l : list A) (body : S → A → M S) (s : S) :
  (∀ s x, framed (body s x)) → framed (for_fold l body s).
Proof.
  intros Hbody. revert s. induction l as [|x l IH]; intros s; simpl.
  - apply framed_ret.
  - apply framed_bind; [apply Hbody | apply IH].
Qed.

Lemma silent_for_fold {A S} (P : event → bool) (l : list A)
    (body : S → A → M S) (s : S) :
  (∀ s x, silent P (body s x)) → silent P (for_fold l body s).
Proof.
  intros Hbody. revert s. induction l as [|x l IH]; intros s; simpl.
  - apply silent_ret.
  - apply silent_bind; [apply Hbody | apply IH].
Qed.

Lemma framed_for_each {A} (l : list A) (body : A → M flow) :
  (∀ x, framed (body x)) → framed (for_each l body).
Proof.
  intros Hbody. induction l as [|x l IH]; simpl.
  - apply framed_ret.
  - apply framed_bind; [apply Hbody|]. intros [|]; [apply IH | apply framed_ret].
Qed.

Lemma silent_for_each {A} (P : event → bool) (l : list A) (body : A → M flow) :
  (∀ x, silent P (body x)) → silent P (for_each l body).
Proof.
  intros Hbody. induction l as [|x l IH]; simpl.
  - apply silent_ret.
  - apply silent_bind; [apply Hbody|]. intros [|]; [apply IH | apply silent_ret].
Qed.

Lemma silent_executor_map {T} (P : event → bool) (body : string → T → thread)
    (tasks : list T) :
  (∀ name task, task ∈ tasks → emits P (body name task) 0) →
  silent P (executor_map body tasks).
Proof.
  intros Hbody w.
  rewrite (executor_map_emits P body (λ _, 0%nat) tasks w Hbody).
  clear Hbody. induction tasks; simpl; auto.
Qed.

Lemma framed_py_index (l : list string) (i : nat) : framed (py_index l i).
Proof. unfold py_index. destruct (l !! i); [apply framed_ret | apply framed_raise]. Qed.

Lemma silent_py_index (P : event → bool) (l : list string) (i : nat) :
  silent P (py_index l i).
Proof. unfold py_index. destruct (l !! i); [apply silent_ret | apply silent_raise]. Qed.

(** ** The day processor *)

Lemma count_cons_if (P : event → bool) (ev : event) (evs : list event) :
  count P (ev :: evs) = ((if P ev then 1 else 0) + count P evs)%nat.
Proof. by rewrite count_cons, count_one. Qed.

Ltac count_events :=
  rewrite ?count_cons_if, ?count_nil; cbn [is_write is_save_of is_exists_of
                                          is_protection_call].

(** Walks through every path of a thread, counting the events. *)
Ltac walk :=
  repeat first
    [ progress (cbn [emits]; count_events)
    | progress intros
    | split
    | match goal with
      | |- context [match ?x with _ => _ end] => destruct x
      end
    | lia
    | done ].

Section DayProcessor.
Context (thread_name : string) (task_info : task_info).

Lemma protection_step_dry (title : string) :
  dry_run task_info = true →
  emits is_write (protection_step task_info title) 0.
Proof. intros H. unfold protection_step. rewrite H. walk. Qed.

Lemma process_one_day_dry :
  dry_run task_info = true →
  emits is_write (process_one_day thread_name task_info) 0.
Proof.
  intros H. pose proof (protection_step_dry) as Hp.
  unfold process_one_day. rewrite H. cbn [negb].
  cbn [emits]. count_events. split; [lia|]. intros [[|]|e]; walk; apply Hp, H.
Qed.

Lemma protection_step_no_exists (P : string → bool) (title : string) :
  emits (λ ev, match ev with EvExists t _ => P t | _ => false end)
        (protection_step task_info title) 0.
Proof. unfold protection_step. walk. Qed.

Lemma protection_step_no_save (P : string → bool) (title : string) :
  emits (λ ev, match ev with EvSave t _ _ _ => P t | _ => false end)
        (protection_step task_info title) 0.
Proof. unfold protection_step. walk. Qed.

(** The worker asks once whether its page exists. *)
Lemma process_one_day_exists_once :
  emits (is_exists_of (title_of task_info))
        (process_one_day thread_name task_info) 1.
Proof.
  pose proof (protection_step_no_exists
                (λ t, bool_decide (t = title_of task_info))) as Hp.
  unfold process_one_day. fold (title_of task_info).
  cbn [emits]. count_events. split; [lia|]. intros r. count_events.
  rewrite bool_decide_eq_true_2 by done. split; [lia|].
  destruct r as [[|]|e]; walk; apply Hp.
Qed.

(** It asks about no other page. *)
Lemma process_one_day_exists_other (title : string) :
  title ≠ title_of task_info →
  emits (is_exists_of title) (process_one_day thread_name task_info) 0.
Proof.
  intros Hne.
  pose proof (protection_step_no_exists (λ t, bool_decide (t = title))) as Hp.
  unfold process_one_day. fold (title_of task_info).
  cbn [emits]. count_events. split; [lia|]. intros r. count_events.
  rewrite bool_decide_eq_false_2 by done. split; [lia|].
  destruct r as [[|]|e]; walk; apply Hp.
Qed.

(** It saves no page but its own. *)
Lemma process_one_day_save_other (title : string) :
  title ≠ title_of task_info →
  emits (is_save_of title) (process_one_day thread_name task_info) 0.
Proof.
  intros Hne.
  pose proof (protection_step_no_save (λ t, bool_decide (t = title))) as Hp.
  unfold process_one_day. fold (title_of task_info).
  assert (bool_decide (title_of task_info = title) = false) as Hb
    by (apply bool_decide_eq_false_2; congruence).
  cbn [emits]. count_events. split; [lia|]. intros r. count_events.
  split; [lia|].
  destruct r as [[|]|e]; destruct (dry_run task_info);
    repeat first [ progress (cbn [negb emits]; count_events; rewrite ?Hb)
                 | progress intros
                 | split
                 | lia
                 | apply Hp
                 | match goal with
                   | |- context [match ?x with _ => _ end] => destruct x
                   end
                 | done ].
Qed.
End DayProcessor.

(** The runs of the day processor, path by path. *)

Ltac run_exists :=
  match goal with
  | |- context [page_exists ?t ?w] =>
      let Hev := fresh "Hev" in
      let Hok := fresh "Hok" in
      let Hsame := fresh "Hsame" in
      pose proof (page_exists_event t w) as Hev;
      pose proof (page_exists_ok t w) as Hok;
      pose proof (page_exists_same t w) as Hsame;
      destruct (page_exists t w) as [[? ?] ?];
      cbn [fst snd] in Hev, Hok, Hsame; subst
  end.

Ltac run_protection :=
  match goal with
  | |- context [page_protection ?t ?w] =>
      let Hev := fresh "Hev" in
      let Hok := fresh "Hok" in
      pose proof (page_protection_event t w) as Hev;
      pose proof (page_protection_ok t w) as Hok;
      destruct (page_protection t w) as [[? ?] ?];
      cbn [fst snd] in Hev, Hok; subst
  end.

Ltac run_save :=
  match goal with
  | |- context [page_save ?t ?x ?s ?w] =>
      let Hev := fresh "Hev" in
      pose proof (page_save_event t x s w) as Hev;
      destruct (page_save t x s w) as [[? ?] ?];
      cbn [fst snd] in Hev; subst
  end.

Ltac run_protect :=
  match goal with
  | |- context [page_protect ?t ?p ?s ?w] =>
      let Hev := fresh "Hev" in
      pose proof (page_protect_event t p s w) as Hev;
      destruct (page_protect t p s w) as [[? ?] ?];
      cbn [fst snd] in Hev; subst
  end.

(** Membership in an explicit trace, case by case. *)
Ltac in_trace H :=
  repeat (apply elem_of_cons in H as [H|H];
          [try discriminate H; try (injection H as ?; subst)|]);
  try (apply elem_of_nil in H; destruct H).

Ltac trace_has :=
  repeat first [apply list_elem_of_here | apply list_elem_of_further].

Section DayRuns.
Context (thread_name : string) (task_info : task_info).

Lemma protection_step_runs (w : world) :
  let '(evs, w', r) :=
    run_thread (protection_step task_info (title_of task_info)) w in
  (∀ t e, EvExists t e ∉ evs)
  ∧ (∀ t txt s r', EvSave t txt s r' ∉ evs)
  ∧ (∀ t ps pr reason,
       EvProtect t ps pr (Exc (PywikibotError reason)) ∈ evs →
       r = Ok tt
       ∧ EvError ("ERROR: Failed to protect page. Reason: " +:+ reason) ∈ evs)
  ∧ (∀ t reason,
       EvProtection t (Exc (PywikibotError reason)) ∈ evs →
       r = Ok tt
       ∧ EvError ("ERROR: Failed to protect page. Reason: " +:+ reason) ∈ evs)
  ∧ (edit_level (default ∅ (prots w !! title_of task_info)) = Some "sysop" →
     count is_write evs = 0%nat).
Proof.
  unfold protection_step. destruct (dry_run task_info); cbn [negb run_thread].
  - unmonad. cbn [app]. repeat split; intros; try (intros H; in_trace H).
    + in_trace H.
    + in_trace H.
  - run_protection. destruct o as [p|e].
    + destruct (bool_decide (edit_level p = Some "sysop")) eqn:Hlevel;
        cbn [negb run_thread].
      * unmonad. cbn [app]. repeat split; intros; try (intros H; in_trace H).
        -- in_trace H.
        -- in_trace H.
      * run_protect. destruct o as [[]|[reason'| |]]; cbn [run_thread];
          unmonad; cbn [app];
          (repeat split; intros; try (intros H; in_trace H);
           try (in_trace H; trace_has)).
        all: specialize (Hok _ eq_refl); subst p;
          apply bool_decide_eq_false in Hlevel; done.
    + destruct e as [reason'| |]; cbn [run_thread]; unmonad; cbn [app];
        (repeat split; intros; try (intros H; in_trace H);
         try (in_trace H; trace_has)); by count_events.
Qed.

Lemma process_one_day_runs (w : world) :
  let '(evs, w', r) := run_thread (process_one_day thread_name task_info) w in
  (∀ t e, EvExists t (Exc e) ∈ evs →
          r = Exc e ∧ count is_write evs = 0%nat ∧ ∀ msg, EvError msg ∉ evs)
  ∧ (∀ t txt s reason,
       EvSave t txt s (Exc (PywikibotError reason)) ∈ evs →
       r = Ok tt
       ∧ EvError ("ERROR: Failed to create page. Reason: " +:+ reason) ∈ evs
       ∧ count is_protection_call evs = 0%nat)
  ∧ (∀ t ps pr reason,
       EvProtect t ps pr (Exc (PywikibotError reason)) ∈ evs →
       r = Ok tt
       ∧ EvError ("ERROR: Failed to protect page. Reason: " +:+ reason) ∈ evs)
  ∧ (∀ t reason,
       EvProtection t (Exc (PywikibotError reason)) ∈ evs →
       r = Ok tt
       ∧ EvError ("ERROR: Failed to protect page. Reason: " +:+ reason) ∈ evs)
  ∧ (created_and_protected w (title_of task_info) →
     count is_write evs = 0%nat).
Proof.
  unfold process_one_day. fold (title_of task_info). cbn [run_thread].
  run_exists. destruct o as [[|]|e]; cbn [negb run_thread].
  - pose proof (protection_step_runs w0) as Hp.
    destruct (run_thread (protection_step _ _) w0) as [[evs_p w2] r_p].
    destruct Hp as (Hp1 & Hp2 & Hp3 & Hp4 & Hp5). cbn [app].
    repeat split; intros.
    all: try (in_trace H;
              first [ by apply Hp1 in H | by apply Hp2 in H
                    | destruct (Hp3 _ _ _ _ H) as [-> Herr]
                    | destruct (Hp4 _ _ H) as [-> Herr] ]).
    all: try done.
    all: try (repeat apply list_elem_of_further; exact Herr).
    destruct H as [_ Hlev]. destruct Hsame as [_ Hpr]. rewrite Hpr in Hlev.
    count_events. by rewrite Hp5.
  - assert (¬ created_and_protected w (title_of task_info)) as Hnot.
    { intros [Hex _]. specialize (Hok _ eq_refl).
      by rewrite bool_decide_eq_true_2 in Hok. }
    destruct (dry_run task_info); cbn [negb run_thread].
    + pose proof (protection_step_runs w0) as Hp.
      destruct (run_thread (protection_step _ _) w0) as [[evs_p w2] r_p].
      destruct Hp as (Hp1 & Hp2 & Hp3 & Hp4 & Hp5). cbn [app].
      repeat split; intros.
      all: try (in_trace H;
                first [ by apply Hp1 in H | by apply Hp2 in H
                      | destruct (Hp3 _ _ _ _ H) as [-> Herr]
                      | destruct (Hp4 _ _ H) as [-> Herr] ]).
      all: try done.
      all: try (repeat apply list_elem_of_further; exact Herr).
    + run_save. destruct o as [[]|[reason'| |]]; cbn [run_thread].
      * pose proof (protection_step_runs w1) as Hp.
        destruct (run_thread (protection_step _ _) w1) as [[evs_p w2] r_p].
        destruct Hp as (Hp1 & Hp2 & Hp3 & Hp4 & Hp5). cbn [app].
        repeat split; intros.
        all: try (in_trace H;
                  first [ by apply Hp1 in H | by apply Hp2 in H
                        | destruct (Hp3 _ _ _ _ H) as [-> Herr]
                        | destruct (Hp4 _ _ H) as [-> Herr] ]).
        all: try done.
        all: try (repeat apply list_elem_of_further; exact Herr).
      * unmonad. cbn [app]. repeat split; intros.
        all: try (in_trace H). all: try done.
        all: try by count_events. 
        all: try solve [trace_has].
      * unmonad. cbn [app]. repeat split; intros.
        all: try (in_trace H). all: try done.
        all: try by count_events.
        all: try solve [trace_has].
      * unmonad. cbn [app]. repeat split; intros.
        all: try (in_trace H). all: try done.
        all: try by count_events.
        all: try solve [trace_has].
  - unmonad. cbn [app]. repeat split; intros.
    all: try (in_trace H). all: try done.
    all: try by count_events.
    all: try solve [trace_has].
    intros H. in_trace H.
Qed.

End DayRuns.

(** With no failing call, every backend call computes its answer from
    the wiki. *)
Section NoFaults.
Context (w : world).
Hypothesis no_faults : faults w = [].

Lemma page_exists_quiet (title : string) :
  page_exists title w
  = ([EvExists title (Ok (bool_decide (is_Some (texts w !! title))))], w,
     Ok (bool_decide (is_Some (texts w !! title)))).
Proof. unfold page_exists, backend. by rewrite no_faults. Qed.

Lemma page_save_quiet (title text summary : string) :
  page_save title text summary w
  = ([EvSave title text summary (Ok tt)], set_texts <[title := text]> w, Ok tt).
Proof. unfold page_save, backend. by rewrite no_faults. Qed.

Lemma page_protection_quiet (title : string) :
  page_protection title w
  = ([EvProtection title (Ok (default ∅ (prots w !! title)))], w,
     Ok (default ∅ (prots w !! title))).
Proof. unfold page_protection, backend. by rewrite no_faults. Qed.

Lemma page_protect_quiet (title : string) (protections : list (string * string))
    (reason : string) :
  page_protect title protections reason w
  = ([EvProtect title protections reason (Ok tt)],
     set_prots <[title := list_to_map
                            ((λ p, (p.1, (p.2, "infinity"))) <$> protections)]>
               w,
     Ok tt).
Proof. unfold page_protect, backend. by rewrite no_faults. Qed.
End NoFaults.

(** A live run during which no call fails leaves the page created and
    protected. *)
Lemma protection_step_protects (task_info : task_info) (title : string)
    (w : world) :
  dry_run task_info = false → faults w = [] → is_Some (texts w !! title) →
  created_and_protected (run_thread (protection_step task_info title) w).1.2
                        title.
Proof.
  intros Hdry Hf Hex. unfold protection_step. rewrite Hdry.
  cbn [negb run_thread]. rewrite page_protection_quiet by done.
  cbv beta iota zeta.
  destruct (bool_decide (edit_level (default ∅ (prots w !! title))
                         = Some "sysop")) eqn:Hlev;
    cbn [negb run_thread].
  - apply bool_decide_eq_true in Hlev. unfold ret. cbn [fst snd]. by split.
  - rewrite page_protect_quiet by done. cbv beta iota zeta.
    cbn [run_thread]. unfold ret. cbn [fst snd].
    unfold created_and_protected, set_prots. cbn [texts prots].
    split; [done|]. by rewrite lookup_insert_eq.
Qed.

Lemma first_run_creates_and_protects (thread_name : string)
    (task_info : task_info) (w : world) :
  dry_run task_info = false → faults w = [] →
  created_and_protected
    (run_thread (process_one_day thread_name task_info) w).1.2
    (title_of task_info).
Proof.
  intros Hdry Hf. unfold process_one_day. fold (title_of task_info).
  rewrite Hdry. cbn [negb run_thread]. rewrite page_exists_quiet by done.
  cbv beta iota zeta.
  destruct (bool_decide (is_Some (texts w !! title_of task_info))) eqn:Hex;
    cbn [negb run_thread].
  - apply bool_decide_eq_true in Hex.
    pose proof (protection_step_protects task_info (title_of task_info) w
                  Hdry Hf Hex) as Hp.
    by destruct (run_thread (protection_step _ _) w) as [[evs w1] r].
  - rewrite page_save_quiet by done. cbv beta iota zeta. cbn [run_thread].
    pose proof (protection_step_protects task_info (title_of task_info)
                  (set_texts <[title_of task_info := content task_info]> w)
                  Hdry Hf) as Hp.
    destruct (run_thread (protection_step _ _) _) as [[evs w1] r].
    apply Hp. cbn [set_texts texts]. by rewrite lookup_insert_eq.
Qed.

(** ** Page titles *)

Lemma pretty_N_go_head (x : N) (s : string) :
  (0 < x)%N → ∃ d rest, pretty_N_go x s = String (pretty_N_char d) rest.
Proof.
  revert s. induction (N.lt_wf_0 x) as [x _ IH]; intros s Hx.
  rewrite pretty_N_go_step by done.
  destruct (decide (x `div` 10 = 0)%N) as [->|Hq].
  - rewrite pretty_N_go_0. eauto.
  - apply IH; [apply N.div_lt; lia | by apply N.neq_0_lt_0].
Qed.

Lemma pretty_N_char_not_A (d : N) : pretty_N_char d ≠ "A"%char.
Proof.
  unfold pretty_N_char.
  destruct d as [|p]; [done|]. do 4 (destruct p as [p|p|]; try done).
Qed.

Lemma pretty_Z_head (y : Z) :
  ∃ c rest, pretty y = String c rest ∧ c ≠ "A"%char.
Proof.
  unfold pretty, pretty_Z. destruct y as [|p|p].
  - by exists "0"%char, "".
  - change (pretty p) with (pretty_N (N.pos p)). unfold pretty_N.
    rewrite decide_False by done.
    destruct (pretty_N_go_head (N.pos p) "") as (d & rest & ->); [lia|].
    exists (pretty_N_char d), rest. split; [done | apply pretty_N_char_not_A].
  - by exists "-"%char, (pretty p).
Qed.

(** The source page of a month is none of the day pages. *)
Lemma titles_differ (y y' : Z) (mn mn' d : string) :
  source_page_title_of y mn ≠ target_page_title_of y' mn' d.
Proof.
  unfold source_page_title_of, target_page_title_of. intros H.
  destruct (pretty_Z_head y') as (c & rest & Hy & Hc). rewrite Hy in H.
  simpl in H. by simplify_eq.
Qed.

Lemma str_app_inj_l (a b c : string) : a +:+ b = a +:+ c → b = c.
Proof. induction a as [|x a IH]; simpl; [done|]. intros [=]. auto. Qed.

Lemma target_title_inj (y : Z) (mn d d' : string) :
  target_page_title_of y mn d = target_page_title_of y mn d' → d = d'.
Proof.
  unfold target_page_title_of. intros H.
  by repeat apply str_app_inj_l in H.
Qed.

(** ** The month orchestrator *)

Lemma silent_bind_post {A B} (P : event → bool) (m : M A) (f : A → M B) :
  silent P m → (∀ w a, (m w).2 = Ok a → silent P (f a)) →
  silent P (m ≫= f).
Proof.
  intros Hm Hf w. unmonad. specialize (Hm w). specialize (Hf w).
  destruct (m w) as [[evs w1] [a|e]]; simpl in *; [|done].
  specialize (Hf a eq_refl w1). destruct (f a w1) as [[evs2 w2] r]; simpl in *.
  by rewrite count_app_0.
Qed.

Section Orchestrator.
Context (year : Z) (month_name : string) (dry_run : bool).

Lemma scan_sections_framed (cs pr : string) (sections : list string) :
  framed (scan_sections year month_name dry_run cs pr sections).
Proof.
  apply framed_for_fold. intros [tasks flag] i. unfold scan_section.
  apply framed_bind; [apply framed_py_index|]. intros d.
  apply framed_bind; [apply framed_py_index|]. intros c.
  destruct (is_valid_section _); [apply framed_ret|].
  destruct (Text.truthy _); [|apply framed_ret].
  apply framed_bind; [apply framed_emit | intros; apply framed_ret].
Qed.

Lemma scan_sections_silent (P : event → bool) (cs pr : string)
    (sections : list string) :
  (∀ msg, P (EvWarning msg) = false) →
  silent P (scan_sections year month_name dry_run cs pr sections).
Proof.
  intros HP. apply silent_for_fold. intros [tasks flag] i.
  unfold scan_section.
  apply silent_bind; [apply silent_py_index|]. intros d.
  apply silent_bind; [apply silent_py_index|]. intros c.
  destruct (is_valid_section _); [apply silent_ret|].
  destruct (Text.truthy _); [|apply silent_ret].
  apply silent_bind; [apply silent_emit, HP | intros; apply silent_ret].
Qed.

Lemma archive_step_framed (flag : bool) :
  framed (archive_step year month_name dry_run flag).
Proof.
  unfold archive_step. destruct flag; [apply framed_emit|].
  destruct dry_run; cbn [negb]; [apply framed_emit|].
  apply framed_try_except; [|intros; apply framed_emit].
  apply framed_bind; [by apply framed_write | intros; apply framed_emit].
Qed.

Lemma run_wotd_framed :
  framed (run_wotd_processing_for_month year month_name dry_run).
Proof.
  unfold run_wotd_processing_for_month.
  apply framed_bind; [apply framed_read|]. intros [|]; cbn [negb];
    [|apply framed_emit].
  apply framed_bind; [apply framed_read|]. intros wikitext.
  apply framed_bind; [apply scan_sections_framed|]. intros [tasks flag].
  unfold dispatch.
  destruct (bool_decide (tasks = [])); [apply framed_emit|].
  apply framed_bind; [apply framed_emit|]. intros _.
  apply framed_bind; [apply executor_map_framed|]. intros _.
  apply framed_bind; [apply framed_emit|]. intros _.
  apply archive_step_framed.
Qed.

(** The tasks the loop builds, for any month text. *)
Lemma scan_sections_tasks (wikitext : string) (w : world)
    (tasks : list task_info) (flag : bool) :
  (scan_sections year month_name dry_run (create_summary_of year month_name)
                 protect_reason_text (Re.split wikitext) w).2
  = Ok (tasks, flag) →
  tasks = task_of year month_name dry_run
            <$> filter (λ p, is_valid_section p.2 = true) (day_pairs wikitext)
  ∧ flag = bool_decide
             (Exists (λ p, Text.truthy p.2 = true
                           ∧ is_valid_section p.2 = false)
                     (day_pairs wikitext)).
Proof. rewrite scan_sections_pairs. simpl. by intros [= <- <-]. Qed.

(** What is left of the month once the tasks are built (lines
    112-147), silent for what the workers and the source page step
    are silent for. *)
Lemma dispatch_silent (P : event → bool) (wikitext : string) (w : world)
    (tasks : list task_info) (flag : bool) :
  (∀ msg, P (EvOutput msg) = false) →
  (∀ msg, P (EvWarning msg) = false) →
  (∀ msg, P (EvError msg) = false) →
  (∀ name task, task ∈ tasks → emits P (process_one_day name task) 0) →
  silent P (archive_step year month_name dry_run flag) →
  silent P (dispatch year month_name dry_run tasks flag).
Proof.
  unfold dispatch.
  intros Ho Hw He Htasks Harch.
  destruct (bool_decide (tasks = [])); [apply silent_emit, Hw|].
  apply silent_bind; [apply silent_emit, Ho|]. intros _.
  apply silent_bind; [by apply silent_executor_map|]. intros _.
  apply silent_bind; [apply silent_emit, Ho|]. intros _. done.
Qed.

End Orchestrator.

(** In a dry run the orchestrator writes nothing. *)
Lemma run_wotd_dry_silent (year : Z) (month_name : string) :
  silent is_write (run_wotd_processing_for_month year month_name true).
Proof.
  unfold run_wotd_processing_for_month.
  apply silent_bind; [by apply silent_backend|]. intros [|]; cbn [negb];
    [|by apply silent_emit].
  apply silent_bind; [by apply silent_backend|]. intros wikitext.
  apply silent_bind_post; [by apply scan_sections_silent|].
  intros w [tasks flag] Hscan.
  apply scan_sections_tasks in Hscan as [-> ->].
  apply dispatch_silent; try done.
  - intros name task (p & -> & _)%list_elem_of_fmap.
    by apply process_one_day_dry.
  - unfold archive_step. destruct (bool_decide _); by apply silent_emit.
Qed.

(** The pool always hands control back: what a worker raised stays in
    its future. *)
Lemma executor_map_ok {T} (body : string → T → thread) (tasks : list T)
    (w : world) :
  (executor_map body tasks w).2 = Ok tt.
Proof.
  unfold executor_map.
  destruct (interleave _ _ w) as [[[evs w1] ths1] s1].
  by destruct (join ths1 _) as [evs2 w2].
Qed.

Section Processed.
Context (year : Z) (month_name : string) (dry_run : bool).
Let source := source_page_title_of year month_name.
Let rejected (p : string * string) : Prop :=
  Text.truthy p.2 = true ∧ is_valid_section p.2 = false.

(** A month whose source page exists and whose text was read: the run
    is the loop's warnings, then the dispatch of the tasks. *)
Lemma run_wotd_processed (w : world) (wikitext : string)
    (evs' : list event) :
  (run_wotd_processing_for_month year month_name dry_run w).1.1
  = EvExists source (Ok true) :: EvText source (Ok wikitext) :: evs' →
  ∃ w1 warnings,
    same_wiki w w1
    ∧ (∀ ev, ev ∈ warnings → ∃ msg, ev = EvWarning msg)
    ∧ run_wotd_processing_for_month year month_name dry_run w
      = (let '(evs2, w2, r) :=
           dispatch year month_name dry_run
             (task_of year month_name dry_run
                <$> filter (λ p, is_valid_section p.2 = true)
                           (day_pairs wikitext))
             (bool_decide (Exists rejected (day_pairs wikitext))) w1 in
         (EvExists source (Ok true) :: EvText source (Ok wikitext)
            :: warnings ++ evs2, w2, r)).
Proof.
  unfold run_wotd_processing_for_month. fold source. unmonad.
  pose proof (page_exists_event source w) as Hev.
  pose proof (page_exists_same source w) as Hsame.
  destruct (page_exists source w) as [[evs0 w0] r0]; cbn [fst snd] in *.
  subst evs0. destruct r0 as [[|]|e]; cbn [negb fst snd app]; try done.
  pose proof (page_text_event source w0) as Hev.
  pose proof (page_text_same source w0) as Hsame'.
  destruct (page_text source w0) as [[evs1 w1] r1]; cbn [fst snd] in *.
  subst evs1. destruct r1 as [text|e]; cbn [fst snd app]; [|done].
  rewrite scan_sections_pairs.
  destruct (dispatch _ _ _ _ _ w1) as [[evs2 w2] r2] eqn:Hd.
  cbn [fst snd app]. intros [= -> _].
  eexists w1, _. split; [by eapply same_wiki_trans|]. apply and_comm. split.
  - unfold task_of, rejected. rewrite Hd. reflexivity.
  - intros ev (p & -> & _)%list_elem_of_fmap. eauto.
Qed.

Lemma count_warnings (P : event → bool) (warnings : list event) :
  (∀ msg, P (EvWarning msg) = false) →
  (∀ ev, ev ∈ warnings → ∃ msg, ev = EvWarning msg) →
  count P warnings = 0%nat.
Proof.
  intros HP. induction warnings as [|ev l IH]; intros Hall; [done|].
  rewrite count_cons_if.
  destruct (Hall ev (list_elem_of_here _ _)) as [msg ->]. rewrite HP.
  rewrite IH; [done|]. intros ev' Hin. by apply Hall, list_elem_of_further.
Qed.

End Processed.

Section ArchiveStep.
Context (year : Z) (month_name : string).
Let source := source_page_title_of year month_name.

(** The decision on the source page, in live mode. *)
Lemma archive_step_live (flag : bool) (w : world) :
  let '(evs, w', r) := archive_step year month_name false flag w in
  if flag then count (is_save_of source) evs = 0%nat ∧ w' = w
  else ∃ r' tail,
      evs = EvSave source (archive_content year)
                   (archive_summary_of year month_name) r' :: tail
      ∧ count (is_save_of source) evs = 1%nat
      ∧ (r' = Ok tt → texts w' !! source = Some (archive_content year)).
Proof.
  unfold archive_step. fold source. destruct flag; cbn [negb].
  - unmonad. by count_events.
  - unfold try_except. unmonad.
    pose proof (page_save_event source (archive_content year)
                  (archive_summary_of year month_name) w) as Hev.
    pose proof (page_save_ok source (archive_content year)
                  (archive_summary_of year month_name) w) as Hok.
    destruct (page_save _ _ _ w) as [[evs w1] r]; cbn [fst snd] in *.
    subst evs. destruct r as [[]|[reason| |]]; cbn [app];
      eexists _, _; (split; [done|]); count_events;
      rewrite bool_decide_eq_true_2 by done; (split; [done|]); try done.
    intros _. rewrite (Hok eq_refl). apply lookup_insert_eq.
Qed.

(** Dispatch in live mode: the workers save no source page; the
    source page is saved once when there are tasks and no section was
    skipped, and not at all otherwise. *)
Lemma dispatch_live (tasks : list task_info) (flag : bool) (w : world) :
  (∀ task, task ∈ tasks → title_of task ≠ source) →
  let '(evs, w', r) := dispatch year month_name false tasks flag w in
  if bool_decide (tasks = []) || flag
  then count (is_save_of source) evs = 0%nat
  else count (is_save_of source) evs = 1%nat
       ∧ ∃ r', EvSave source (archive_content year)
                      (archive_summary_of year month_name) r' ∈ evs
               ∧ (r' = Ok tt →
                  texts w' !! source = Some (archive_content year)).
Proof.
  intros Htitles. unfold dispatch.
  destruct (bool_decide (tasks = [])); cbn [orb]; [by unmonad; count_events|].
  unmonad.
  pose proof (silent_executor_map (is_save_of source) process_one_day tasks)
    as Hpool.
  specialize (Hpool (λ name task Hin,
    process_one_day_save_other name task source
      (λ H, Htitles task Hin (eq_sym H))) w).
  pose proof (executor_map_ok process_one_day tasks w) as Hr.
  destruct (executor_map process_one_day tasks w) as [[evs1 w1] r1];
    cbn [fst snd] in *.
  subst r1. cbn [app].
  pose proof (archive_step_live flag w1) as Ha.
    destruct (archive_step year month_name false flag w1) as [[evs2 w2] r2].
    rewrite count_cons_if, count_app, count_cons_if. cbn [is_save_of].
  rewrite Hpool. destruct flag.
  - destruct Ha as [-> _]. done.
  - destruct Ha as (r' & tail & -> & Hc & Hw). split; [lia|].
    exists r'. split; [|done].
    apply list_elem_of_further, elem_of_app. right.
    apply list_elem_of_further, list_elem_of_here.
Qed.

End ArchiveStep.

(** * The claims *)

(** C3. In a dry run no backend write occurs: the day processor calls
    neither [save] nor [protect], and the month orchestrator, its
    workers included, saves nothing, whatever pages exist, however they
    are protected, whatever the sections hold, whichever calls fail and
    however the workers interleave; the wiki is left as it was. *)
Theorem dry_run_writes_nothing (thread_name : string) (task_info : task_info)
    (year : Z) (month_name : string) (w : world) :
  dry_run task_info = true →
  (count is_write (run_thread (process_one_day thread_name task_info) w).1.1
   = 0%nat
   ∧ same_wiki w (run_thread (process_one_day thread_name task_info) w).1.2)
  ∧ (count is_write
       (run_wotd_processing_for_month year month_name true w).1.1 = 0%nat
     ∧ same_wiki w (run_wotd_processing_for_month year month_name true w).1.2).
Proof.
  intros Hdry. split.
  - assert (count is_write
              (run_thread (process_one_day thread_name task_info) w).1.1
            = 0%nat) as H0
      by (apply run_thread_emits; by apply process_one_day_dry).
    split; [done | by apply run_thread_framed].
  - pose proof (run_wotd_dry_silent year month_name w) as H0.
    split; [done | by apply run_wotd_framed].
Qed.

Lemma dry_run_writes_nothing_witness :
  dry_run sample_dry_task = true
  ∧ count is_write
      (run_wotd_processing_for_month 2006 "January" true
         (january_world sample_month [] [1; 0; 1]%nat)).1.1 = 0%nat.
Proof.
  split; [reflexivity|].
  apply (dry_run_writes_nothing "MainThread" sample_dry_task 2006 "January"
           (january_world sample_month [] [1; 0; 1]%nat)).
  reflexivity.
Defined.

(** C5. When, after a first live run of the day processor, the target
    page exists and its edit protection is ['sysop'], a second live run
    on the same task calls neither [save] nor [protect]. *)
Theorem second_run_writes_nothing (name1 name2 : string)
    (task_info : task_info) (w0 w1 w2 : world) (evs1 evs2 : list event)
    (r1 r2 : outcome unit) :
  dry_run task_info = false →
  run_thread (process_one_day name1 task_info) w0 = (evs1, w1, r1) →
  created_and_protected w1 (title_of task_info) →
  run_thread (process_one_day name2 task_info) w1 = (evs2, w2, r2) →
  count is_write evs2 = 0%nat ∧ same_wiki w1 w2.
Proof.
  intros _ _ Hcp Hrun.
  pose proof (process_one_day_runs name2 task_info w1) as Hruns.
  pose proof (run_thread_framed (process_one_day name2 task_info) w1) as Hfr.
  rewrite Hrun in Hruns, Hfr. cbn [fst snd] in Hfr.
  destruct Hruns as (_ & _ & _ & _ & H0). auto.
Qed.

Lemma second_run_writes_nothing_witness :
  let '(evs1, w1, r1) :=
    run_thread (process_one_day "MainThread" sample_task) quiet_world in
  let '(evs2, w2, r2) :=
    run_thread (process_one_day "MainThread" sample_task) w1 in
  count is_write evs1 = 2%nat ∧ count is_write evs2 = 0%nat.
Proof.
  destruct (run_thread (process_one_day "MainThread" sample_task) quiet_world)
    as [[evs1 w1] r1] eqn:H1.
  destruct (run_thread (process_one_day "MainThread" sample_task) w1)
    as [[evs2 w2] r2] eqn:H2.
  split.
  - vm_compute in H1. by injection H1 as <- _ _.
  - refine (proj1 (second_run_writes_nothing "MainThread" "MainThread"
                     sample_task quiet_world w1 w2 evs1 evs2 r1 r2
                     eq_refl H1 _ H2)).
    vm_compute in H1. injection H1 as _ <- _. split; [by eexists|].
    by vm_compute.
Defined.





(** ** Valid and invalid pairs, tasks *)

Lemma rejected_iff (content : string) :
  Text.truthy content = true ∧ is_valid_section content = false
  ↔ invalid content.
Proof.
  split.
  - intros [Ht Hv]. by apply is_valid_section_false.
  - intros Hinv. assert (is_valid_section content = false) as Hv.
    { apply not_true_is_false. intros [_ Hm]%is_valid_section_spec.
      by destruct Hinv. }
    split; [by apply is_valid_section_false | done].
Qed.

Lemma exists_rejected_iff (pairs : list (string * string)) :
  Exists (λ p, Text.truthy p.2 = true ∧ is_valid_section p.2 = false) pairs
  ↔ Exists (λ p, invalid p.2) pairs.
Proof. apply Exists_proper; [|done]. intros p. apply rejected_iff. Qed.

Lemma accepted_nil_iff {T} (f : string * string → T)
    (pairs : list (string * string)) :
  f <$> filter (λ p, is_valid_section p.2 = true) pairs = []
  ↔ ¬ Exists (λ p, valid p.2) pairs.
Proof.
  induction pairs as [|p l IH].
  - split; [intros _ H; inversion H | done].
  - rewrite filter_cons, Exists_cons.
    destruct (decide (is_valid_section p.2 = true)) as [Hv|Hv].
    + apply is_valid_section_spec in Hv. split; [done | tauto].
    + rewrite IH. rewrite is_valid_section_spec in Hv. tauto.
Qed.

Lemma task_title_differs (year : Z) (month_name : string) (dry_run : bool)
    (pairs : list (string * string)) (task : task_info) :
  task ∈ task_of year month_name dry_run <$> pairs →
  title_of task ≠ source_page_title_of year month_name.
Proof.
  intros (p & -> & _)%list_elem_of_fmap H. symmetry in H.
  by apply titles_differ in H.
Qed.

(** C2, as amended.  For a month processed in live mode (its source
    page exists and its text is read), the source page is saved iff
    at least one pair is valid and no pair is invalid (not empty and
    without the marker); whichever day calls fail and however the
    workers interleave.  When it is saved, it is saved once, with the
    archive template, and a save that succeeds leaves that text on the
    page. *)
Theorem archive_gate (year : Z) (month_name : string) (w : world)
    (wikitext : string) (evs' : list event) :
  let source := source_page_title_of year month_name in
  let run := run_wotd_processing_for_month year month_name false w in
  run.1.1 = EvExists source (Ok true) :: EvText source (Ok wikitext) :: evs' →
  ((0 < count (is_save_of source) run.1.1)%nat
   ↔ Exists (λ p, valid p.2) (day_pairs wikitext)
     ∧ Forall (λ p, ¬ invalid p.2) (day_pairs wikitext))
  ∧ ((0 < count (is_save_of source) run.1.1)%nat →
     count (is_save_of source) run.1.1 = 1%nat
     ∧ ∃ r, EvSave source (archive_content year)
                   (archive_summary_of year month_name) r ∈ run.1.1
            ∧ (r = Ok tt →
               texts run.1.2 !! source = Some (archive_content year))).
Proof.
  intros source run Hrun. subst run.
  destruct (run_wotd_processed year month_name false w wikitext evs' Hrun)
    as (w1 & warnings & _ & Hwarn & ->).
  clear Hrun.
  pose proof (dispatch_live year month_name
    (task_of year month_name false
       <$> filter (λ p, is_valid_section p.2 = true) (day_pairs wikitext))
    (bool_decide
       (Exists (λ p, Text.truthy p.2 = true ∧ is_valid_section p.2 = false)
               (day_pairs wikitext)))
    w1 (task_title_differs year month_name false _)) as Hd.
  fold source in Hd.
  destruct (dispatch _ _ _ _ _ w1) as [[evs2 w2] r2]. cbn [fst snd].
  rewrite !count_cons_if, count_app. cbn [is_save_of].
  rewrite (count_warnings _ warnings) by done. cbn [Nat.add].
  assert (bool_decide
            (task_of year month_name false
               <$> filter (λ p, is_valid_section p.2 = true)
                          (day_pairs wikitext) = [])
          || bool_decide
               (Exists (λ p, Text.truthy p.2 = true
                             ∧ is_valid_section p.2 = false)
                       (day_pairs wikitext)) = false
          ↔ Exists (λ p, valid p.2) (day_pairs wikitext)
            ∧ Forall (λ p, ¬ invalid p.2) (day_pairs wikitext)) as Hcond.
  { rewrite orb_false_iff, !bool_decide_eq_false, accepted_nil_iff,
      exists_rejected_iff, Forall_Exists_neg.
    split; [|tauto]. intros [H1 H2]. split; [|done].
    destruct (decide (Exists (λ p, is_valid_section p.2 = true)
                             (day_pairs wikitext))) as [He|He].
    - eapply Exists_impl; [exact He|]. intros p. apply is_valid_section_spec.
    - destruct H1. intros Hv. apply He. eapply Exists_impl; [exact Hv|].
      intros p. apply is_valid_section_spec. }
  destruct (_ || _).
  - rewrite Hd. split; [|lia]. rewrite <- Hcond. split; [lia | done].
  - destruct Hd as (-> & r' & Hin & Hw). split.
    + split; [intros _; by apply Hcond | lia].
    + intros _. split; [done|]. exists r'. split; [|done].
      by apply list_elem_of_further, list_elem_of_further, elem_of_app; right.
Qed.

Lemma archive_gate_witness :
  let text := "==1==
{{wotd|foo}}" in
  let source := source_page_title_of 2006 "January" in
  let run :=
    run_wotd_processing_for_month 2006 "January" false
      (january_world text [] []) in
  (∃ evs', run.1.1
           = EvExists source (Ok true) :: EvText source (Ok text) :: evs')
  ∧ ((0 < count (is_save_of source) run.1.1)%nat
     ↔ Exists (λ p, valid p.2) (day_pairs text)
       ∧ Forall (λ p, ¬ invalid p.2) (day_pairs text)).
Proof.
  intros text source run.
  assert (∃ evs', run.1.1
            = EvExists source (Ok true) :: EvText source (Ok text) :: evs')
    as [evs' Hrun] by (eexists; vm_compute; reflexivity).
  split; [by exists evs'|].
  exact (proj1 (archive_gate 2006 "January" (january_world text [] []) text
                  evs' Hrun)).
Defined.

(** C2, as stated, fails: the source page is not saved iff every pair
    is valid.  A month already archived has no pair at all: every pair
    is valid, and the source page is not saved.  A month with a valid
    pair and an empty one, which is not valid, has its source page
    saved. *)
Lemma archive_gate_counterexample :
  let source := source_page_title_of 2006 "January" in
  (let text := archive_content 2006 in
   let run :=
     run_wotd_processing_for_month 2006 "January" false
       (january_world text [] []) in
   take 2 run.1.1 = [EvExists source (Ok true); EvText source (Ok text)]
   ∧ ¬ ((0 < count (is_save_of source) run.1.1)%nat
        ↔ Forall (λ p, valid p.2) (day_pairs text)))
  ∧ (let text := "==1==
{{wotd|foo}}
==2==
" in
     let run :=
       run_wotd_processing_for_month 2006 "January" false
         (january_world text [] []) in
     take 2 run.1.1 = [EvExists source (Ok true); EvText source (Ok text)]
     ∧ ¬ ((0 < count (is_save_of source) run.1.1)%nat
          ↔ Forall (λ p, valid p.2) (day_pairs text))).
Proof.
  intros source. split.
  - intros text run. split; [by vm_compute|].
    assert (count (is_save_of source) run.1.1 = 0%nat) as -> by (by vm_compute).
    assert (day_pairs text = []) as -> by (by vm_compute).
    intros [_ H]. specialize (H (List.Forall_nil _)). lia.
  - intros text run. split; [by vm_compute|].
    assert (count (is_save_of source) run.1.1 = 1%nat) as -> by (by vm_compute).
    assert (day_pairs text = [("1", "{{wotd|foo}}"); ("2", "")]) as ->
      by (by vm_compute).
    intros [H _]. specialize (H ltac:(lia)).
    inversion H as [|? ? _ H2]; subst.
    inversion H2 as [|? ? [Hne _] _]; subst. done.
Qed.

(** A day whose creation fails does not keep the source page from being
    archived. *)
Example archive_despite_day_failure :
  let text := "==1==
{{wotd|foo}}" in
  let source := source_page_title_of 2006 "January" in
  let run :=
    run_wotd_processing_for_month 2006 "January" false
      (january_world text [None; None; None; Some (PywikibotError "locked")]
                     []) in
  EvError "ERROR: Failed to create page. Reason: locked" ∈ run.1.1
  ∧ EvSave source (archive_content 2006) (archive_summary_of 2006 "January")
           (Ok tt) ∈ run.1.1.
Proof. split; vm_compute; trace_has. Qed.

(** ** Every task is dispatched *)

Lemma filter_lookup {A} (P : A → Prop) `{!∀ x, Decision (P x)}
    (l : list A) (i : nat) (x : A) :
  l !! i = Some x → P x → ∃ i', filter P l !! i' = Some x.
Proof.
  intros Hi HP. apply list_elem_of_lookup, list_elem_of_filter.
  split; [done|]. by eapply list_elem_of_lookup_2.
Qed.

(** Filtering keeps two elements that pass, in their order, at two
    positions. *)
Lemma filter_lookup_two {A} (P : A → Prop) `{!∀ x, Decision (P x)}
    (l : list A) (i j : nat) (x y : A) :
  (i < j)%nat → l !! i = Some x → l !! j = Some y → P x → P y →
  ∃ i' j', (i' < j')%nat
           ∧ filter P l !! i' = Some x ∧ filter P l !! j' = Some y.
Proof.
  revert i j. induction l as [|a l IH]; intros i j Hij Hi Hj Hx Hy; [done|].
  destruct j as [|j]; [lia|]. rewrite filter_cons.
  destruct i as [|i]; simpl in Hi, Hj.
  - injection Hi as ->. rewrite decide_True by done.
    destruct (filter_lookup P l j y Hj Hy) as [j' Hj'].
    exists 0%nat, (S j'). split; [lia | done].
  - destruct (IH i j ltac:(lia) Hi Hj Hx Hy) as (i' & j' & Hlt & Hi' & Hj').
    destruct (decide (P a)).
    + exists (S i'), (S j'). split; [lia | done].
    + by exists i', j'.
Qed.

Section Dispatched.
Context (year : Z) (month_name : string) (dry_run : bool).
Context (title : string).
Let hits (task : task_info) : nat :=
  if bool_decide (title_of task = title) then 1%nat else 0%nat.

Lemma process_one_day_exists (thread_name : string) (task : task_info) :
  emits (is_exists_of title) (process_one_day thread_name task) (hits task).
Proof.
  unfold hits. case_bool_decide as Ht.
  - subst title. apply process_one_day_exists_once.
  - apply process_one_day_exists_other. congruence.
Qed.

Lemma archive_step_no_exists (flag : bool) :
  silent (is_exists_of title) (archive_step year month_name dry_run flag).
Proof.
  unfold archive_step. destruct flag; [by apply silent_emit|].
  destruct dry_run; cbn [negb]; [by apply silent_emit|].
  apply silent_try_except; [|intros; by apply silent_emit].
  apply silent_bind; [by apply silent_backend | intros; by apply silent_emit].
Qed.

(** The workers ask for [title] once per task about that page. *)
Lemma dispatch_exists_count (tasks : list task_info) (flag : bool)
    (w : world) :
  count (is_exists_of title) (dispatch year month_name dry_run tasks flag w).1.1
  = sum_list (hits <$> tasks).
Proof.
  unfold dispatch. case_bool_decide as Hnil; [by subst tasks|].
  unmonad.
  pose proof (executor_map_emits (is_exists_of title) process_one_day hits
                tasks w (λ name task _, process_one_day_exists name task))
    as Hpool.
  pose proof (executor_map_ok process_one_day tasks w) as Hr.
  destruct (executor_map process_one_day tasks w) as [[evs1 w1] r1];
    cbn [fst snd] in *.
  subst r1. cbn [app].
  pose proof (archive_step_no_exists flag w1) as Ha.
  destruct (archive_step year month_name dry_run flag w1) as [[evs2 w2] r2].
  cbn [fst snd] in *.
  rewrite count_cons_if, count_app, count_cons_if. cbn [is_exists_of].
  lia.
Qed.

Lemma hits_one (tasks : list task_info) (j : nat) (t : task_info) :
  tasks !! j = Some t → title_of t = title →
  (1 ≤ sum_list (hits <$> tasks))%nat.
Proof.
  revert j. induction tasks as [|a l IH]; intros j Hj Ht; [done|].
  rewrite fmap_cons. destruct j as [|j]; simpl in Hj.
  - injection Hj as ->. simpl. unfold hits at 1.
    rewrite bool_decide_eq_true_2 by done. lia.
  - specialize (IH j Hj Ht). simpl. lia.
Qed.

Lemma hits_two (tasks : list task_info) (i j : nat) (t1 t2 : task_info) :
  (i < j)%nat → tasks !! i = Some t1 → tasks !! j = Some t2 →
  title_of t1 = title → title_of t2 = title →
  (2 ≤ sum_list (hits <$> tasks))%nat.
Proof.
  revert i j. induction tasks as [|a l IH]; intros i j Hij Hi Hj H1 H2;
    [done|].
  rewrite fmap_cons.
  destruct j as [|j]; [lia|]. destruct i as [|i]; simpl in Hi, Hj.
  - injection Hi as ->. pose proof (hits_one l j t2 Hj H2). simpl.
    unfold hits at 1. rewrite bool_decide_eq_true_2 by done. lia.
  - specialize (IH i j ltac:(lia) Hi Hj H1 H2). simpl. lia.
Qed.

End Dispatched.

(** C10. Day numbers are not deduplicated: when two pairs of a month
    text carry the same day number and are both valid, the loop builds
    two tasks, at two positions of [tasks], with the same target page
    title, and both are dispatched: the day processor asks at least
    twice whether that page exists. *)
Theorem no_deduplication (year : Z) (month_name : string) (dry_run : bool)
    (w : world) (wikitext : string) (evs' : list event) (i j : nat)
    (d c1 c2 : string) :
  let source := source_page_title_of year month_name in
  let run := run_wotd_processing_for_month year month_name dry_run w in
  let title := target_page_title_of year month_name d in
  run.1.1 = EvExists source (Ok true) :: EvText source (Ok wikitext) :: evs' →
  (i < j)%nat →
  day_pairs wikitext !! i = Some (d, c1) →
  day_pairs wikitext !! j = Some (d, c2) →
  valid c1 → valid c2 →
  ∃ tasks flag i' j',
    (scan_sections year month_name dry_run (create_summary_of year month_name)
                   protect_reason_text (Re.split wikitext) w).2
    = Ok (tasks, flag)
    ∧ (i' < j')%nat
    ∧ tasks !! i' = Some (task_of year month_name dry_run (d, c1))
    ∧ tasks !! j' = Some (task_of year month_name dry_run (d, c2))
    ∧ title_of (task_of year month_name dry_run (d, c1)) = title
    ∧ title_of (task_of year month_name dry_run (d, c2)) = title
    ∧ (2 ≤ count (is_exists_of title) run.1.1)%nat.
Proof.
  intros source run title Hrun Hij Hi Hj Hv1 Hv2. subst run.
  destruct (filter_lookup_two (λ p, is_valid_section p.2 = true)
              (day_pairs wikitext) i j (d, c1) (d, c2) Hij Hi Hj)
    as (i' & j' & Hlt & Hi' & Hj'); [by apply is_valid_section_spec..|].
  assert ((task_of year month_name dry_run
             <$> filter (λ p, is_valid_section p.2 = true) (day_pairs wikitext))
          !! i' = Some (task_of year month_name dry_run (d, c1))) as Ht1
    by (by rewrite list_lookup_fmap, Hi').
  assert ((task_of year month_name dry_run
             <$> filter (λ p, is_valid_section p.2 = true) (day_pairs wikitext))
          !! j' = Some (task_of year month_name dry_run (d, c2))) as Ht2
    by (by rewrite list_lookup_fmap, Hj').
  eexists _, _, i', j'. rewrite scan_sections_pairs.
  split; [reflexivity|]. do 5 (split; [done|]).
  destruct (run_wotd_processed year month_name dry_run w wikitext evs' Hrun)
    as (w1 & warnings & _ & Hwarn & ->).
  pose proof (dispatch_exists_count year month_name dry_run title
    (task_of year month_name dry_run
       <$> filter (λ p, is_valid_section p.2 = true) (day_pairs wikitext))
    (bool_decide
       (Exists (λ p, Text.truthy p.2 = true ∧ is_valid_section p.2 = false)
               (day_pairs wikitext))) w1) as Hd.
  destruct (dispatch _ _ _ _ _ w1) as [[evs2 w2] r2]. cbn [fst snd] in *.
  rewrite !count_cons_if, count_app, Hd. cbn [is_exists_of].
  pose proof (hits_two title _ i' j' _ _ Hlt Ht1 Ht2 eq_refl eq_refl). lia.
Qed.

Lemma no_deduplication_witness :
  let text := "==5==
{{wotd|first}}
==5==
{{wotd|second}}" in
  let run :=
    run_wotd_processing_for_month 2006 "January" false
      (january_world text [] [1; 0; 0; 1]%nat) in
  (2 ≤ count (is_exists_of (target_page_title_of 2006 "January" "5"))
             run.1.1)%nat.
Proof.
  intros text run.
  assert (∃ evs', run.1.1
            = EvExists (source_page_title_of 2006 "January") (Ok true)
                :: EvText (source_page_title_of 2006 "January") (Ok text)
                :: evs')
    as [evs' Hrun] by (eexists; vm_compute; reflexivity).
  assert (valid "{{wotd|first}}") as Hv1
    by (by apply is_valid_section_spec; vm_compute).
  assert (valid "{{wotd|second}}") as Hv2
    by (by apply is_valid_section_spec; vm_compute).
  destruct (no_deduplication 2006 "January" false
              (january_world text [] [1; 0; 0; 1]%nat) text evs' 0 1 "5"
              "{{wotd|first}}" "{{wotd|second}}" Hrun ltac:(lia)
              ltac:(by vm_compute) ltac:(by vm_compute) Hv1 Hv2)
    as (tasks & flag & i' & j' & _ & _ & _ & _ & _ & _ & H2).
  exact H2.
Defined.

(** ** The splitter and the loop: validity *)



Example scenario_scanned :
  day_pairs sample_month
  = [("1", "{{wotd|foo}}"); ("2", "irrelevant"); ("3", "{{wotd|bar}}")]
  ∧ scanned (day_pairs sample_month)
            [("1", "{{wotd|foo}}"); ("3", "{{wotd|bar}}")] ["2"].
Proof.
  assert (day_pairs sample_month
          = [("1", "{{wotd|foo}}"); ("2", "irrelevant"); ("3", "{{wotd|bar}}")])
    as -> by (by vm_compute).
  split; [done|].
  apply scanned_valid; [by apply is_valid_section_spec; vm_compute|].
  apply (scanned_invalid ("2", "irrelevant")); [by apply rejected_iff; vm_compute|].
  apply scanned_valid; [by apply is_valid_section_spec; vm_compute|].
  constructor.
Qed.

(** ** Page titles of the tasks *)

(** C8, as amended.  For every task built from a month text, the day
    is the number of a heading of the text as it is written there (a
    non-empty run of digits, zeros at the front included); the page
    the day processor asks for, in every run, is
    [Wiktionary:Word of the day/<year>/<MonthName> <day>]; and the
    source page the orchestrator starts with is
    [Wiktionary:Word of the day/Archive/<year>/<MonthName>]. *)
Theorem page_titles (year : Z) (month_name : string) (dry_run : bool)
    (wikitext : string) (w : world) (tasks : list task_info) (flag : bool)
    (task : task_info) :
  (scan_sections year month_name dry_run (create_summary_of year month_name)
                 protect_reason_text (Re.split wikitext) w).2
  = Ok (tasks, flag) →
  task ∈ tasks →
  heading_number_in wikitext (day task)
  ∧ title_of task
    = "Wiktionary:Word of the day/" +:+ pretty year +:+ "/" +:+ month_name
      +:+ " " +:+ day task
  ∧ (∀ thread_name w',
       ∃ r, EvExists (title_of task) r
            ∈ (run_thread (process_one_day thread_name task) w').1.1)
  ∧ (∀ w', ∃ r evs,
       (run_wotd_processing_for_month year month_name dry_run w').1.1
       = EvExists ("Wiktionary:Word of the day/Archive/" +:+ pretty year
                   +:+ "/" +:+ month_name) r :: evs).
Proof.
  intros [-> _]%scan_sections_tasks (p & -> & Hp)%list_elem_of_fmap.
  apply list_elem_of_filter in Hp as [_ Hp].
  split; [by apply day_pairs_heading|]. split; [done|]. split.
  - intros thread_name w'.
    pose proof (run_thread_emits _ _ _ w'
                  (process_one_day_exists_once thread_name
                     (task_of year month_name dry_run p))) as Hc.
    destruct (count_pos_inv (is_exists_of (title_of (task_of year month_name dry_run p))) _
                ltac:(rewrite Hc; lia)) as (ev & Hin & Hev).
    destruct ev; try done. simpl in Hev.
    apply bool_decide_eq_true in Hev as ->. eauto.
  - intros w'. unfold run_wotd_processing_for_month. unmonad.
    pose proof (page_exists_event (source_page_title_of year month_name) w')
      as Hev.
    destruct (page_exists _ w') as [[evs0 w0] r0]; cbn [fst snd] in *.
    subst evs0. exists r0. destruct r0 as [[|]|e]; cbn [negb].
    + destruct (page_text _ w0) as [[evs1 w1] [text|e]].
      * destruct (scan_sections _ _ _ _ _ _ w1) as [[evs2 w2] [[tasks' flag']|e]].
        -- destruct (dispatch _ _ _ _ _ w2) as [[evs3 w3] r3]. by eexists.
        -- by eexists.
      * by eexists.
    + by eexists.
    + by eexists.
Qed.

Lemma page_titles_witness :
  let task := task_of 2006 "January" false ("3", "{{wotd|bar}}") in
  heading_number_in sample_month "3"
  ∧ title_of task = "Wiktionary:Word of the day/2006/January 3".
Proof.
  intros task.
  destruct (page_titles 2006 "January" false sample_month quiet_world
              [task_of 2006 "January" false ("1", "{{wotd|foo}}"); task]
              true task ltac:(by vm_compute)
              ltac:(apply list_elem_of_further, list_elem_of_here))
    as (Hhead & Htitle & _).
  split; [exact Hhead | exact Htitle].
Defined.

(** C8, as stated, fails: a heading written [== 01 ==] is a heading for
    day 1, and its page is [... January 01], not [... January 1]. *)
Lemma page_titles_counterexample :
  let text := "== 01 ==
{{wotd|foo}}" in
  let run :=
    run_wotd_processing_for_month 2006 "January" false
      (january_world text [] []) in
  (scan_sections 2006 "January" false (create_summary_of 2006 "January")
                 protect_reason_text (Re.split text) quiet_world).2
  = Ok ([task_of 2006 "January" false ("01", "{{wotd|foo}}")], false)
  ∧ unpadded "01" = false
  ∧ EvSave "Wiktionary:Word of the day/2006/January 01" "{{wotd|foo}}"
           (create_summary_of 2006 "January") (Ok tt) ∈ run.1.1
  ∧ count (is_exists_of "Wiktionary:Word of the day/2006/January 1") run.1.1
    = 0%nat.
Proof.
  intros text run. split; [by vm_compute|]. split; [done|]. split.
  - vm_compute. trace_has.
  - by vm_compute.
Qed.

(** ** The command line *)

(** C1 fails on the code.  [DEFAULT_DRY_RUN] is [False], so
    [is_dry_run] is false for every command line, with or without
    [-live]: started without the flag, the script announces a dry run
    and then creates and protects pages and archives the source. *)
Theorem default_run_is_live :
  (∀ argv, is_dry_run_of argv = false)
  ∧ is_dry_run_of ["wotd.py"] = false
  ∧ (let text := "==1==
{{wotd|foo}}" in
     let run := main ["wotd.py"] (2006, 1)%Z (january_world text [] []) in
     head run.1.1
     = Some (EvOutput (nl +:+ "*** DRY RUN MODE: No edits will be made. Use -live argument to save. ***" +:+ nl))
     ∧ count is_write run.1.1 = 3%nat
     ∧ texts run.1.2 !! source_page_title_of 2006 "January"
       = Some (archive_content 2006)
     ∧ texts run.1.2 !! target_page_title_of 2006 "January" "1"
       = Some "{{wotd|foo}}").
Proof.
  split; [|split].
  - intros argv. unfold is_dry_run_of. by case_bool_decide.
  - done.
  - by vm_compute.
Qed.

(** ** The calendar driver *)

Section Calendar.
Context (start_year start_month end_year end_month : Z).

Lemma month_of_index_spec (y m : Z) :
  (1 ≤ m ≤ 12)%Z → month_of_index (month_index (y, m)) = (y, m).
Proof.
  intros Hm. unfold month_of_index, month_index. cbn [fst snd].
  f_equal; Z.div_mod_to_equations; lia.
Qed.

Lemma month_index_spec (i : Z) : month_index (month_of_index i) = i.
Proof.
  unfold month_of_index, month_index. cbn [fst snd].
  Z.div_mod_to_equations; lia.
Qed.

Lemma month_of_index_range (i : Z) : (1 ≤ (month_of_index i).2 ≤ 12)%Z.
Proof.
  unfold month_of_index. cbn [snd]. Z.div_mod_to_equations; lia.
Qed.

(** The months [lo..hi] of one year are consecutive indices. *)
Lemma months_single_year (y lo hi : Z) :
  (1 ≤ lo)%Z → (hi ≤ 12)%Z →
  (λ m, (y, m)) <$> py_range lo (hi + 1)
  = month_of_index <$> seqZ (month_index (y, lo)) (hi + 1 - lo).
Proof.
  intros Hlo Hhi. unfold py_range.
  rewrite <- (Z.add_0_r lo) at 1. rewrite <- (Z.add_0_r (month_index _)).
  rewrite <- !fmap_add_seqZ, <- !list_fmap_compose.
  apply Forall_fmap_ext, Forall_seqZ. intros i Hi. simpl.
  rewrite <- (month_of_index_spec y (lo + i)) by lia.
  f_equal. unfold month_index. cbn [fst snd]. lia.
Qed.

End Calendar.

(** The two loops go through the months of the closed range. *)
Lemma visited_months (end_year end_month : Z) (n : nat) :
  (1 ≤ end_month ≤ 12)%Z →
  ∀ start_year start_month,
    (end_year - start_year < Z.of_nat n)%Z →
    (1 ≤ start_month ≤ 12)%Z →
    visited start_year start_month end_year end_month
    = months_between start_year start_month end_year end_month.
Proof.
  intros Hem. induction n as [|n IH]; intros sy sm Hn Hsm;
    unfold visited, months_between, py_range.
  - rewrite !seqZ_nil; [done | unfold month_index; cbn [fst snd]; lia | lia].
  - destruct (Z.lt_trichotomy end_year sy) as [Hlt|[->|Hgt]].
    + rewrite !seqZ_nil; [done | unfold month_index; cbn [fst snd]; lia | lia].
    + replace (sy + 1 - sy)%Z with 1%Z by lia.
      rewrite (seqZ_cons sy 1) by lia. rewrite seqZ_nil by lia.
      rewrite bind_singleton. unfold months_of_year.
      rewrite !bool_decide_eq_true_2 by done.
      rewrite months_single_year by lia. f_equal. f_equal.
      unfold month_index. cbn [fst snd]. lia.
    + rewrite (seqZ_cons sy) by lia. rewrite bind_cons.
      specialize (IH (sy + 1)%Z 1%Z ltac:(lia) ltac:(lia)).
      unfold visited, months_between, py_range in IH.
      replace (Z.succ sy) with (sy + 1)%Z by lia.
      replace (Z.pred (end_year + 1 - sy)) with (end_year + 1 - (sy + 1))%Z
        by lia.
      assert (seqZ (sy + 1) (end_year + 1 - (sy + 1))
              ≫= (λ year, (λ month_num, (year, month_num))
                    <$> months_of_year sy sm end_year end_month year)
              = seqZ (sy + 1) (end_year + 1 - (sy + 1))
                ≫= (λ year, (λ month_num, (year, month_num))
                      <$> months_of_year (sy + 1) 1 end_year end_month year))
        as ->.
      { apply Forall_bind_ext, Forall_seqZ. intros y Hy.
        unfold months_of_year. rewrite (bool_decide_eq_false_2 (y = sy)) by lia.
        by destruct (bool_decide (y = (sy + 1)%Z)). }
      rewrite IH. unfold months_of_year at 1.
      rewrite bool_decide_eq_true_2 by done.
      rewrite bool_decide_eq_false_2 by lia.
      rewrite months_single_year by lia. rewrite <- fmap_app. f_equal.
      replace (month_index (end_year, end_month) - month_index (sy, sm) + 1)%Z
        with ((12 + 1 - sm)
              + (month_index (end_year, end_month)
                 - month_index ((sy + 1)%Z, 1%Z) + 1))%Z
        by (unfold month_index; cbn [fst snd]; lia).
      rewrite (seqZ_app (month_index (sy, sm)) (12 + 1 - sm))
        by (unfold month_index; cbn [fst snd]; lia).
      replace (month_index (sy, sm) + (12 + 1 - sm))%Z
        with (month_index ((sy + 1)%Z, 1%Z))
        by (unfold month_index; cbn [fst snd]; lia).
      done.
Qed.

Lemma for_each_app {A} (l1 l2 : list A) (body : A → M flow) (w : world) :
  for_each (l1 ++ l2) body w
  = (f ← for_each l1 body;
     match f with
     | Continue => for_each l2 body
     | Returned => ret Returned
     end) w.
Proof.
  revert w. induction l1 as [|x l1 IH]; intros w; cbn [app for_each].
  - unfold mbind, M_bind, bind, ret.
    by destruct (for_each l2 body w) as [[evs w1] r].
  - unfold mbind, M_bind, bind in *.
    destruct (body x w) as [[evs w1] [[|]|e]];
      [| unfold ret; cbn; by rewrite ?app_nil_r | done].
    rewrite IH. destruct (for_each l1 body w1) as [[evs1 w2] [[|]|e]];
      [| unfold ret; cbn; by rewrite ?app_nil_r, ?app_assoc | done].
    destruct (for_each l2 body w2) as [[evs2 w3] r]. by rewrite app_assoc.
Qed.

Lemma for_each_fmap {A B} (f : A → B) (l : list A) (body : B → M flow)
    (w : world) :
  for_each (f <$> l) body w = for_each l (λ x, body (f x)) w.
Proof.
  revert w. induction l as [|x l IH]; intros w; [done|].
  rewrite fmap_cons. cbn [for_each]. unfold mbind, M_bind, bind.
  destruct (body (f x) w) as [[evs w1] [[|]|e]]; [|done..]. by rewrite IH.
Qed.

Lemma bind_pt {A B} (m m' : M A) (f g : A → M B) (w : world) :
  m w = m' w → (∀ a w', f a w' = g a w') → (m ≫= f) w = (m' ≫= g) w.
Proof.
  intros Hm Hf. unfold mbind, M_bind, bind. rewrite Hm.
  destruct (m' w) as [[evs w1] [a|e]]; [by rewrite Hf | done].
Qed.

(** Two nested loops go through the pairs of their lists. *)
Lemma for_each_nested {A B} (outer : list A) (inner : A → list B)
    (body : A → B → M flow) (w : world) :
  for_each outer (λ a, for_each (inner a) (body a)) w
  = for_each (outer ≫= λ a, (λ b, (a, b)) <$> inner a)
             (λ ab, body ab.1 ab.2) w.
Proof.
  revert w. induction outer as [|a outer IH]; intros w; [done|].
  rewrite bind_cons, for_each_app. cbn [for_each].
  apply bind_pt; [by rewrite for_each_fmap|].
  intros [|] w'; [apply IH | done].
Qed.

Section Driver.
Context (now : Z * Z) (run_month : Z → string → M unit).
Hypothesis now_month : (1 ≤ now.2 ≤ 12)%Z.

Lemma in_future_spec (y m : Z) :
  (1 ≤ m ≤ 12)%Z → in_future now y m = true ↔ after now (y, m).
Proof.
  intros Hm. unfold in_future, after, month_index. cbn [fst snd].
  rewrite orb_true_iff, andb_true_iff, !bool_decide_eq_true. lia.
Qed.

Lemma chronological_tail (ym : Z * Z) (months : list (Z * Z)) :
  chronological (ym :: months) →
  chronological months ∧ ∀ ym', ym' ∈ months → before ym ym'.
Proof.
  intros Hc. split.
  - intros i j ym1 ym2 Hij H1 H2. apply (Hc (S i) (S j)); [lia | done..].
  - intros ym' [j Hj]%list_elem_of_lookup.
    apply (Hc 0%nat (S j)); [lia | done..].
Qed.

(** Past a month in the future, every month is in the future. *)
Lemma chronological_after (ym : Z * Z) (months : list (Z * Z)) :
  chronological (ym :: months) → after now ym →
  filter (λ ym, ¬ after now ym) months = []
  ∧ filter (after now) months = months.
Proof.
  intros [_ Hc]%chronological_tail Hafter.
  assert (Forall (after now) months) as Hall.
  { apply Forall_forall. intros ym' Hin. specialize (Hc ym' Hin).
    unfold after, before in *. lia. }
  clear Hc. induction Hall as [|ym' l H' _ IH]; [done|].
  rewrite !filter_cons, decide_False, decide_True by tauto.
  destruct IH as [-> ->]. done.
Qed.

Lemma chronological_split (months : list (Z * Z)) :
  chronological months →
  months = filter (λ ym, ¬ after now ym) months ++ filter (after now) months.
Proof.
  induction months as [|ym months IH]; intros Hc; [done|].
  rewrite !filter_cons. destruct (decide (after now ym)) as [Ha|Ha].
  - rewrite decide_False by tauto.
    destruct (chronological_after ym months Hc Ha) as [-> ->]. done.
  - rewrite decide_True by done. cbn [app]. f_equal.
    apply chronological_tail in Hc as [Hc _]. by apply IH.
Qed.

Lemma calendar_month_name_pure (i : Z) (w : world) :
  ∃ r, calendar_month_name i w = ([], w, r).
Proof.
  unfold calendar_month_name, py_index.
  repeat case_bool_decide; try destruct (month_names !! _); by eexists.
Qed.

(** The loop over a chronological list of months, with the end of the
    script, is the sequence of the months not in the future, then the
    stop or the last line. *)
Lemma driver_in_sequence (months : list (Z * Z)) :
  Forall (λ ym, (1 ≤ ym.2 ≤ 12)%Z) months → chronological months →
  ∀ w,
    (f ← for_each months (λ ym, month_turn now run_month ym.1 ym.2);
     match f with
     | Returned => ret tt
     | Continue => output (nl +:+ "Script finished.")
     end) w
    = in_sequence run_month (filter (λ ym, ¬ after now ym) months)
                  (filter (after now) months) w.
Proof.
  induction months as [|[y m] months IH]; intros Hm Hc w.
  - unfold mbind, M_bind, bind. cbn. by unfold output, emit.
  - inversion Hm as [|? ? Hm1 Hm']; subst. cbn [fst snd] in Hm1.
    rewrite !filter_cons. cbn [for_each fst snd]. unfold month_turn.
    destruct (decide (after now (y, m))) as [Ha|Ha].
    + rewrite decide_False by tauto.
      destruct (chronological_after _ _ Hc Ha) as [-> _].
      rewrite (proj2 (in_future_spec y m Hm1) Ha).
      cbn [in_sequence]. unfold stop_at. cbn [fst snd].
      unfold mbind, M_bind, bind, ret, output, emit.
      destruct (calendar_month_name_pure m w) as [[name|e] ->]; by cbn.
    + rewrite decide_True by done.
      assert (in_future now y m = false) as ->.
      { apply not_true_is_false. by rewrite in_future_spec. }
      cbn [in_sequence]. unfold process_month. cbn [fst snd].
      apply chronological_tail in Hc as [Hc _].
      specialize (IH Hm' Hc).
      unfold mbind, M_bind, bind, ret, output, emit in *.
      destruct (calendar_month_name_pure m w) as [[name|e] ->]; [|by cbn].
      cbn [app]. destruct (run_month y name w) as [[evs w1] [[]|e]];
        [|by cbn].
      cbn [app]. rewrite !app_nil_r. specialize (IH w1).
      destruct (for_each months _ w1) as [[evs1 w2] [[|]|e]];
        destruct (in_sequence run_month _ _ w1) as [[evs2 w3] r3];
        cbn [app] in *.
      * destruct (w2) eqn:Hw2. injection IH as <- <- <-.
        by rewrite <- ?app_assoc, ?app_nil_r.
      * injection IH as <- <- <-. by rewrite <- ?app_assoc, ?app_nil_r.
      * injection IH as <- <- <-. by rewrite <- ?app_assoc, ?app_nil_r.
Qed.

End Driver.

Section Range.
Context (start_year start_month end_year end_month : Z).
Let months := months_between start_year start_month end_year end_month.

Lemma months_between_lookup (i : nat) (ym : Z * Z) :
  months !! i = Some ym →
  ym = month_of_index
         (month_index (start_year, start_month) + Z.of_nat i).
Proof.
  unfold months, months_between. rewrite list_lookup_fmap.
  destruct (seqZ _ _ !! i) as [z|] eqn:Hz; [|done].
  apply lookup_seqZ in Hz as [-> _]. by intros [= <-].
Qed.

Lemma months_between_chronological : chronological months.
Proof.
  intros i j ym1 ym2 Hij H1 H2.
  apply months_between_lookup in H1 as ->.
  apply months_between_lookup in H2 as ->.
  unfold before. rewrite !month_index_spec. lia.
Qed.

Lemma months_between_range : Forall (λ ym, (1 ≤ ym.2 ≤ 12)%Z) months.
Proof.
  unfold months, months_between. apply Forall_fmap, Forall_forall.
  intros i _. apply month_of_index_range.
Qed.

Lemma months_between_elem (y m : Z) :
  (y, m) ∈ months
  ↔ (1 ≤ m ≤ 12)%Z
    ∧ (month_index (start_year, start_month) ≤ month_index (y, m)
       ≤ month_index (end_year, end_month))%Z.
Proof.
  unfold months, months_between. rewrite list_elem_of_fmap. split.
  - intros (i & Hi & Hin%elem_of_seqZ).
    pose proof (month_of_index_range i) as Hr. rewrite <- Hi in Hr.
    split; [done|]. rewrite Hi, month_index_spec. lia.
  - intros [Hm Hin]. exists (month_index (y, m)).
    split; [by rewrite month_of_index_spec | apply elem_of_seqZ; lia].
Qed.
End Range.

(** C7. For every range of months (start and end month in 1..12) and
    every month [now]: the driver goes through the months of the closed
    range in strictly chronological order; it processes, in that order,
    exactly those that are not strictly after [now]; the others, all
    later, it does not process: it stops at the first of them, or
    prints the last line of the script when there is none.  (A month
    processor that raises ends the run, in the driver as in the
    sequence.) *)
Theorem calendar_order (start_year start_month end_year end_month : Z)
    (now : Z * Z) (run_month : Z → string → M unit) :
  (1 ≤ start_month ≤ 12)%Z → (1 ≤ end_month ≤ 12)%Z → (1 ≤ now.2 ≤ 12)%Z →
  let months := months_between start_year start_month end_year end_month in
  let processed := filter (λ ym, ¬ after now ym) months in
  let later := filter (after now) months in
  visited start_year start_month end_year end_month = months
  ∧ chronological months
  ∧ (∀ y m,
       (y, m) ∈ months
       ↔ (1 ≤ m ≤ 12)%Z
         ∧ (month_index (start_year, start_month) ≤ month_index (y, m)
            ≤ month_index (end_year, end_month))%Z)
  ∧ months = processed ++ later
  ∧ ∀ w,
      calendar_driver start_year start_month end_year end_month now
                      run_month w
      = in_sequence run_month processed later w.
Proof.
  intros Hsm Hem Hnow months processed later.
  assert (visited start_year start_month end_year end_month = months) as Hv.
  { apply (visited_months end_year end_month
             (S (Z.to_nat (end_year - start_year)))); [done | lia | done]. }
  pose proof (months_between_chronological start_year start_month end_year
                end_month) as Hc.
  split; [done|]. split; [done|]. split; [apply months_between_elem|].
  split; [by apply chronological_split|].
  intros w. unfold calendar_driver. subst processed later.
  rewrite <- (driver_in_sequence now run_month Hnow months
                (months_between_range _ _ _ _) Hc w).
  apply bind_pt; [|done]. rewrite for_each_nested. by rewrite <- Hv.
Qed.

Lemma calendar_order_witness :
  let months := months_between START_YEAR START_MONTH END_YEAR END_MONTH in
  let processed := filter (λ ym, ¬ after (2010, 3)%Z ym) months in
  let later := filter (after (2010, 3)%Z) months in
  (1 ≤ START_MONTH ≤ 12)%Z ∧ (1 ≤ END_MONTH ≤ 12)%Z
  ∧ months = processed ++ later
  ∧ ∀ w,
      calendar_driver START_YEAR START_MONTH END_YEAR END_MONTH (2010, 3)%Z
                      (λ _ _, ret tt) w
      = in_sequence (λ _ _, ret tt) processed later w.
Proof.
  intros months processed later.
  assert (1 ≤ START_MONTH ≤ 12)%Z as Hs by (unfold START_MONTH; lia).
  assert (1 ≤ END_MONTH ≤ 12)%Z as He by (unfold END_MONTH; lia).
  assert (1 ≤ ((2010, 3)%Z : Z * Z).2 ≤ 12)%Z as Hn by (simpl; lia).
  destruct (calendar_order START_YEAR START_MONTH END_YEAR END_MONTH
              (2010, 3)%Z (λ _ _, ret tt) Hs He Hn)
    as (_ & _ & _ & Hsplit & Hrun).
  split; [exact Hs|]. split; [exact He|]. split; [exact Hsplit | exact Hrun].
Defined.

(** The scenario of March 2010: the last month processed is March 2010,
    the run stops at April 2010. *)
Example march_2010 :
  let months := months_between START_YEAR START_MONTH END_YEAR END_MONTH in
  last (filter (λ ym, ¬ after (2010, 3)%Z ym) months) = Some (2010, 3)%Z
  ∧ head (filter (after (2010, 3)%Z) months) = Some (2010, 4)%Z
  ∧ length (filter (λ ym, ¬ after (2010, 3)%Z ym) months) = 51%nat.
Proof. by vm_compute. Qed.

(** * Further properties *)

(** ** The split loses nothing *)

Section RoundTrip.
Import Text Re.

Lemma lstrip_decompose (s : string) :
  ∃ a, s = a +:+ lstrip s ∧ all_chars is_space a = true.
Proof.
  induction s as [|c s IH]; [by exists ""|]. simpl.
  destruct (is_space c) eqn:Hc; [|by exists ""].
  destruct IH as (a & Hs & Ha). exists (String c a). simpl.
  rewrite Hc, Ha. by rewrite <- Hs.
Qed.

Lemma rstrip_decompose (s : string) :
  ∃ b, s = rstrip s +:+ b ∧ all_chars is_space b = true.
Proof.
  induction s as [|c s IH]; [by exists ""|]. simpl.
  destruct IH as (b & Hs & Hb). destruct (rstrip s) as [|x r] eqn:Hr.
  - simpl in Hs. subst s. destruct (is_space c) eqn:Hc.
    + exists (String c b). simpl. by rewrite Hc, Hb.
    + by exists b.
  - exists b. simpl. by rewrite Hs at 1.
Qed.

(** [s.strip()] is [s] without white space at both ends. *)
Lemma strip_decompose (s : string) :
  ∃ a b, s = a +:+ strip s +:+ b
         ∧ all_chars is_space a = true ∧ all_chars is_space b = true.
Proof.
  destruct (lstrip_decompose s) as (a & Hs & Ha).
  destruct (rstrip_decompose (lstrip s)) as (b & Hl & Hb).
  exists a, b. unfold strip. by rewrite <- Hl, <- Hs.
Qed.

Lemma split_scan_rebuild (n : nat) :
  ∀ s piece,
    (String.length s ≤ n)%nat →
    ∃ hd ms,
      split_scan s 0 piece = (piece +:+ hd) :: (ms ≫= λ m, [m.1.2; m.2])
      ∧ s = hd +:+ rebuild ms
      ∧ Forall (λ m, heading m.1.1 = Some (m.1.2, "")) ms.
Proof.
  induction n as [|n IH]; intros s piece Hn.
  - destruct s; [|simpl in Hn; lia]. exists "", []. simpl.
    by rewrite str_app_nil_r.
  - destruct s as [|c s]; [exists "", []; simpl; by rewrite str_app_nil_r|].
    destruct (heading (String c s)) as [[group rest]|] eqn:Hh.
    + rewrite (split_scan_match _ _ _ _ Hh).
      destruct (heading_sound _ _ _ Hh) as (ws1 & ws2 & Hs & H1 & H2 & H3 & H4).
      assert (String.length rest ≤ n)%nat as Hrest.
      { apply (f_equal String.length) in Hs. rewrite !str_length_app in Hs.
        simpl in Hs, Hn. lia. }
      destruct (IH rest "" Hrest) as (hd & ms & Hsplit & Hrest' & Hms).
      exists "", (("==" +:+ ws1 +:+ group +:+ ws2 +:+ "==", group, hd) :: ms).
      rewrite str_app_nil_r, Hsplit. split; [done|]. split.
      * rewrite Hs. cbn [rebuild]. rewrite Hrest' at 1.
        simpl. by rewrite !str_app_assoc.
      * constructor; [|done]. cbn [fst snd].
        pose proof (heading_complete ws1 group ws2 "" H1 H3 H4 H2) as Hc.
        by rewrite !str_app_nil_r in Hc.
    + rewrite (split_scan_no_match _ _ _ Hh).
      destruct (IH s (piece +:+ String c "")) as (hd & ms & Hsplit & Hs & Hms);
        [simpl in Hn; lia|].
      exists (String c hd), ms. rewrite Hsplit, str_app_assoc.
      split; [done|]. split; [|done]. simpl. by rewrite Hs at 1.
Qed.

(** X1. [re.split] loses nothing but the way the headings are written:
    the month text is the first section followed, for each match, by
    the heading and the section after it; the list of sections has an
    odd length; and the content of each pair is its section without
    the white space at its ends. *)
Theorem split_round_trip (wikitext : string) :
  ∃ hd ms,
    split wikitext = hd :: (ms ≫= λ m, [m.1.2; m.2])
    ∧ wikitext = hd +:+ rebuild ms
    ∧ length (split wikitext) = (1 + 2 * length ms)%nat
    ∧ day_pairs wikitext = (λ m, (m.1.2, strip m.2)) <$> ms
    ∧ Forall (λ m, heading m.1.1 = Some (m.1.2, "")
                   ∧ ∃ a b, m.2 = a +:+ strip m.2 +:+ b
                            ∧ all_chars is_space a = true
                            ∧ all_chars is_space b = true) ms.
Proof.
  destruct (split_scan_rebuild (String.length wikitext) wikitext "" (le_n _))
    as (hd & ms & Hsplit & Htext & Hms).
  exists hd, ms. unfold day_pairs, split. rewrite Hsplit.
  split; [done|]. split; [done|]. split; [|split].
  - cbn [length]. f_equal. clear. induction ms as [|[[h d] c] ms IH]; [done|].
    rewrite bind_cons. cbn [length app fst snd]. rewrite IH. lia.
  - cbn [tail].
    assert (pair_up (ms ≫= λ m, [m.1.2; m.2]) = (λ m, (m.1.2, m.2)) <$> ms)
      as ->.
    { clear. induction ms as [|[[h d] c] ms IH]; [done|].
      rewrite bind_cons, fmap_cons. cbn [app fst snd pair_up]. by f_equal. }
    by rewrite <- list_fmap_compose.
  - eapply Forall_impl; [exact Hms|]. intros m Hm. split; [done|].
    apply strip_decompose.
Qed.

End RoundTrip.

(** ** The month orchestrator: the paths that end early *)

Section EarlyPaths.
Context (year : Z) (month_name : string) (dry_run : bool).
Let source := source_page_title_of year month_name.

(** How a month starts: the existence check, then the text. *)
Lemma run_wotd_start (w : world) :
  let run := run_wotd_processing_for_month year month_name dry_run w in
  ∃ r evs,
    run.1.1 = EvExists source r :: evs
    ∧ (∀ e, r = Exc e → evs = [] ∧ run.2 = Exc e ∧ same_wiki w run.1.2)
    ∧ (r = Ok false →
       evs = [EvError ("Source page '" +:+ source
                       +:+ "' does not exist. Skipping month.")]
       ∧ run.2 = Ok tt ∧ same_wiki w run.1.2)
    ∧ (r = Ok true →
       ∃ r1 evs1,
         evs = EvText source r1 :: evs1
         ∧ ∀ e, r1 = Exc e →
                evs1 = [] ∧ run.2 = Exc e ∧ same_wiki w run.1.2).
Proof.
  intros run. subst run. unfold run_wotd_processing_for_month. fold source.
  unmonad.
  pose proof (page_exists_event source w) as Hev.
  pose proof (page_exists_same source w) as Hsame.
  destruct (page_exists source w) as [[evs0 w0] r0]; cbn [fst snd] in *.
  subst evs0. exists r0. destruct r0 as [[|]|e]; cbn [negb fst snd app].
  - pose proof (page_text_event source w0) as Hev.
    pose proof (page_text_same source w0) as Hsame'.
    destruct (page_text source w0) as [[evs1 w1] r1]; cbn [fst snd] in *.
    subst evs1. destruct r1 as [text|e]; cbn [fst snd app].
    + destruct (scan_sections _ _ _ _ _ _ w1) as [[evs2 w2] [[tasks flag]|e]].
      * destruct (dispatch _ _ _ _ _ w2) as [[evs3 w3] r3]. cbn [fst snd app].
        eexists. split; [done|]. repeat split; try done.
        intros _. eexists _, _. split; [done | done].
      * cbn [fst snd app]. eexists. split; [done|]. repeat split; try done.
        intros _. eexists _, _. split; [done | done].
    + eexists. split; [done|]. repeat split; try done.
      intros _. eexists _, _. split; [done|]. intros e' [= <-].
      split; [done|]. split; [done|]. by eapply same_wiki_trans.
  - eexists. split; [done|]. repeat split; try done; apply Hsame.
  - eexists. split; [done|]. split; [|done]. by intros e' [= <-].
Qed.

(** X2. A month whose source page does not exist is skipped: after the
    existence check the orchestrator logs one error and returns; it
    reads no text, starts no worker and writes nothing. *)
Theorem missing_source_skips (w : world) (evs' : list event) :
  let run := run_wotd_processing_for_month year month_name dry_run w in
  run.1.1 = EvExists source (Ok false) :: evs' →
  evs' = [EvError ("Source page '" +:+ source
                   +:+ "' does not exist. Skipping month.")]
  ∧ run.2 = Ok tt
  ∧ same_wiki w run.1.2.
Proof.
  intros run Hrun. subst run.
  destruct (run_wotd_start w) as (r & evs & Hev & _ & Hfalse & _).
  rewrite Hev in Hrun. injection Hrun as -> ->. by apply Hfalse.
Qed.

(** X3. An exception raised by the existence check of the source page,
    or by reading its text, is not caught: it leaves the orchestrator
    at once, a [pywikibot.Error] included, before any worker is started
    and before anything is logged or written. *)
Theorem source_errors_propagate (w : world) (e : exn) (evs' : list event) :
  let run := run_wotd_processing_for_month year month_name dry_run w in
  (run.1.1 = EvExists source (Exc e) :: evs'
   ∨ run.1.1 = EvExists source (Ok true) :: EvText source (Exc e) :: evs') →
  evs' = [] ∧ run.2 = Exc e ∧ same_wiki w run.1.2.
Proof.
  intros run Hrun. subst run.
  destruct (run_wotd_start w) as (r & evs & Hev & Hexc & _ & Htrue).
  rewrite Hev in Hrun. destruct Hrun as [Hrun|Hrun].
  - injection Hrun as -> ->. by apply Hexc.
  - injection Hrun as -> ->.
    destruct (Htrue eq_refl) as (r1 & evs1 & [= <- <-] & Hexc1).
    by apply Hexc1.
Qed.

End EarlyPaths.

Lemma missing_source_skips_witness :
  let run := run_wotd_processing_for_month 2006 "January" false quiet_world in
  run.1.1
  = [EvExists (source_page_title_of 2006 "January") (Ok false);
     EvError "Source page 'Wiktionary:Word of the day/Archive/2006/January' does not exist. Skipping month."]
  ∧ run.2 = Ok tt.
Proof.
  intros run.
  assert (∃ evs', run.1.1
            = EvExists (source_page_title_of 2006 "January") (Ok false) :: evs')
    as [evs' Hrun] by (eexists; vm_compute; reflexivity).
  destruct (missing_source_skips 2006 "January" false quiet_world evs' Hrun)
    as (Hevs & Hr & _).
  split; [|exact Hr]. rewrite Hrun, Hevs. reflexivity.
Defined.

Lemma source_errors_propagate_witness :
  let w := january_world sample_month [None; Some (PywikibotError "timeout")]
                         [] in
  let run := run_wotd_processing_for_month 2006 "January" false w in
  run.2 = Exc (PywikibotError "timeout") ∧ same_wiki w run.1.2.
Proof.
  intros w run.
  destruct (source_errors_propagate 2006 "January" false w
              (PywikibotError "timeout") []
              ltac:(right; vm_compute; reflexivity))
    as (_ & Hr & Hsame).
  split; [exact Hr | exact Hsame].
Defined.

(** ** What a run leaves as it was *)

Lemma count_le (P Q : event → bool) (evs : list event) :
  (∀ ev, P ev = true → Q ev = true) → (count P evs ≤ count Q evs)%nat.
Proof.
  intros HPQ. induction evs as [|ev evs IH]; [done|].
  rewrite !count_cons_if. destruct (P ev) eqn:HP.
  - rewrite (HPQ ev HP). lia.
  - destruct (Q ev); lia.
Qed.


Section Keeps.
Context (title : string).

Lemma kept_refl (w : world) : kept title w [] w.
Proof. by split. Qed.

Lemma kept_trans (w1 w2 w3 : world) (evs evs' : list event) :
  kept title w1 evs w2 → kept title w2 evs' w3 →
  kept title w1 (evs ++ evs') w3.
Proof.
  intros [H1 H2] [H3 H4]. split; rewrite count_app_0; intros [Ha Hb].
  - by rewrite H3, H1.
  - by rewrite H4, H2.
Qed.

Lemma kept_log (w : world) (evs : list event) : kept title w evs w.
Proof. by split. Qed.

Lemma keeps_ret {A} (a : A) : keeps title (ret a).
Proof. intros w. apply kept_refl. Qed.

Lemma keeps_raise {A} (e : exn) : keeps title (@raise A e).
Proof. intros w. apply kept_refl. Qed.

Lemma keeps_emit (ev : event) : keeps title (emit ev).
Proof. intros w. apply kept_log. Qed.

Lemma keeps_bind {A B} (m : M A) (f : A → M B) :
  keeps title m → (∀ a, keeps title (f a)) → keeps title (m ≫= f).
Proof.
  intros Hm Hf w. unmonad. specialize (Hm w).
  destruct (m w) as [[evs w1] [a|e]]; cbn [fst snd] in *; [|done].
  specialize (Hf a w1). destruct (f a w1) as [[evs2 w2] r]; cbn [fst snd] in *.
  by eapply kept_trans.
Qed.

Lemma keeps_try_except {A} (m : M A) (handler : string → M A) :
  keeps title m → (∀ reason, keeps title (handler reason)) →
  keeps title (try_except m handler).
Proof.
  intros Hm Hh w. unfold try_except. specialize (Hm w).
  destruct (m w) as [[evs w1] [a|[reason| |]]]; cbn [fst snd] in *; try done.
  specialize (Hh reason w1).
  destruct (handler reason w1) as [[evs2 w2] r]; cbn [fst snd] in *.
  by eapply kept_trans.
Qed.

Lemma keeps_read {A} (ev : outcome A → event) (f : world → A) :
  keeps title (backend ev (λ w, (w, f w))).
Proof.
  intros w. destruct (backend_read ev f w) as [Ht Hp].
  split; intros _; [by rewrite Ht | by rewrite Hp].
Qed.

Lemma keeps_save (t text summary : string) :
  keeps title (page_save t text summary).
Proof.
  intros w. unfold page_save, backend.
  destruct (faults w) as [|[e|] fs]; cbn [fst snd]; 
    (split; [|done]); rewrite ?count_one;
    cbn [is_saved is_protected set_texts set_faults texts prots]; try done;
    case_bool_decide; try done; intros _; by rewrite lookup_insert_ne.
Qed.

Lemma keeps_protect (t : string) (protections : list (string * string))
    (reason : string) :
  keeps title (page_protect t protections reason).
Proof.
  intros w. unfold page_protect, backend.
  destruct (faults w) as [|[e|] fs]; cbn [fst snd];
    (split; [done|]); rewrite ?count_one;
    cbn [is_saved is_protected set_prots set_faults texts prots]; try done;
    case_bool_decide; try done; intros _; by rewrite lookup_insert_ne.
Qed.

Lemma step_kept (t : thread) (w : world) :
  kept title w (step t w).1.1 (step t w).1.2.
Proof.
  destruct t as [| |lines k|t k|t text summary k|t k|t protections reason k];
    cbn [step]; try apply kept_log.
  - pose proof (keeps_read (EvExists t)
      (λ w, bool_decide (is_Some (texts w !! t))) w) as H.
    unfold page_exists. by destruct (backend _ _ w) as [[evs w1] r].
  - pose proof (keeps_save t text summary w) as H.
    by destruct (page_save t text summary w) as [[evs w1] r].
  - pose proof (keeps_read (EvProtection t)
      (λ w, default ∅ (prots w !! t)) w) as H.
    unfold page_protection. by destruct (backend _ _ w) as [[evs w1] r].
  - pose proof (keeps_protect t protections reason w) as H.
    by destruct (page_protect t protections reason w) as [[evs w1] r].
Qed.

Lemma keeps_run_thread (t : thread) : keeps title (run_thread t).
Proof.
  induction t as [| |lines k IH|t k IH|t text summary k IH
                  |t k IH|t protections reason k IH]; intros w.
  - apply kept_refl.
  - apply kept_refl.
  - cbn [run_thread]. specialize (IH w).
    destruct (run_thread k w) as [[evs w'] r]; cbn [fst snd] in *.
    eapply kept_trans; [apply kept_log | done].
  - pose proof (step_kept (PageExists t k) w) as Hs. cbn [step run_thread] in *.
    destruct (page_exists t w) as [[evs w1] r]. specialize (IH r w1).
    destruct (run_thread (k r) w1) as [[evs2 w2] r2]; cbn [fst snd] in *.
    by eapply kept_trans.
  - pose proof (step_kept (PageSave t text summary k) w) as Hs.
    cbn [step run_thread] in *.
    destruct (page_save t text summary w) as [[evs w1] r]. specialize (IH r w1).
    destruct (run_thread (k r) w1) as [[evs2 w2] r2]; cbn [fst snd] in *.
    by eapply kept_trans.
  - pose proof (step_kept (PageProtection t k) w) as Hs.
    cbn [step run_thread] in *.
    destruct (page_protection t w) as [[evs w1] r]. specialize (IH r w1).
    destruct (run_thread (k r) w1) as [[evs2 w2] r2]; cbn [fst snd] in *.
    by eapply kept_trans.
  - pose proof (step_kept (PageProtect t protections reason k) w) as Hs.
    cbn [step run_thread] in *.
    destruct (page_protect t protections reason w) as [[evs w1] r].
    specialize (IH r w1).
    destruct (run_thread (k r) w1) as [[evs2 w2] r2]; cbn [fst snd] in *.
    by eapply kept_trans.
Qed.

Lemma interleave_kept (s : list nat) (ths : list thread) (w : world) :
  kept title w (interleave s ths w).1.1.1 (interleave s ths w).1.1.2.
Proof.
  revert ths w. induction s as [|i s IH]; intros ths w; cbn [interleave];
    [apply kept_refl|].
  destruct (forallb finished ths); [apply kept_refl|].
  destruct (ths !! (i mod length ths)%nat) as [t|]; [|apply kept_refl].
  pose proof (step_kept t w) as Hs.
  destruct (step t w) as [[evs w1] t']; cbn [fst snd] in *.
  specialize (IH (<[(i mod length ths)%nat := t']> ths) w1).
  destruct (interleave s _ w1) as [[[evs2 w2] ths2] s2]; cbn [fst snd] in *.
  by eapply kept_trans.
Qed.

Lemma join_kept (ths : list thread) (w : world) :
  kept title w (join ths w).1 (join ths w).2.
Proof.
  revert w. induction ths as [|t ths IH]; intros w; cbn [join];
    [apply kept_refl|].
  pose proof (keeps_run_thread t w) as Ht.
  destruct (run_thread t w) as [[evs w1] r]; cbn [fst snd] in *.
  specialize (IH w1). destruct (join ths w1) as [evs2 w2]; cbn [fst snd] in *.
  by eapply kept_trans.
Qed.

Lemma keeps_executor_map {T} (body : string → T → thread) (tasks : list T) :
  keeps title (executor_map body tasks).
Proof.
  intros w. unfold executor_map.
  pose proof (interleave_kept (sched w)
    (imap (λ i task, body (worker_name (executors w) i) task) tasks) w) as Hi.
  destruct (interleave _ _ w) as [[[evs w1] ths1] s1]; cbn [fst snd] in *.
  pose proof (join_kept ths1 (set_sched s1 w1)) as Hj.
  destruct (join ths1 _) as [evs2 w2]; cbn [fst snd] in *.
  eapply kept_trans; [apply Hi|]. apply Hj.
Qed.

End Keeps.

(** ** The month orchestrator: after the split *)

Lemma filter_iff_in {A} (P Q : A → Prop) `{!∀ x, Decision (P x)}
    `{!∀ x, Decision (Q x)} (l : list A) :
  (∀ x, x ∈ l → P x ↔ Q x) → filter P l = filter Q l.
Proof.
  induction l as [|x l IH]; intros Hl; [done|].
  rewrite !filter_cons.
  assert (P x ↔ Q x) as Hx by apply Hl, list_elem_of_here.
  rewrite IH by (intros y Hy; by apply Hl, list_elem_of_further).
  destruct (decide (P x)), (decide (Q x)); tauto.
Qed.

Lemma last_in_tail {A} (l1 l2 : list A) (x : A) :
  last l2 = Some x → last (l1 ++ l2) = Some x.
Proof. intros H. by rewrite last_app, H. Qed.

Lemma last_after {A} (a : A) (l : list A) (x : A) :
  last l = Some x → last (a :: l) = Some x.
Proof. intros H. rewrite last_cons. by rewrite H. Qed.

Section AfterSplit.
Context (year : Z) (month_name : string).
Let source := source_page_title_of year month_name.
Let content := archive_content year.
Let summary := archive_summary_of year month_name.

(** The decision on the source page, in live mode and with no section
    skipped, by the outcome of the save. *)
Lemma archive_step_cases (w : world) :
  let '(evs, w', r) := archive_step year month_name false false w in
  ∃ r', page_save source content summary w
        = ([EvSave source content summary r'], w', r')
    ∧ match r' with
      | Ok _ =>
          evs = [EvSave source content summary r';
                 EvOutput ("SUCCESS: Source page for " +:+ month_name +:+ " "
                           +:+ pretty year +:+ " has been archived.")]
          ∧ r = Ok tt
      | Exc (PywikibotError reason) =>
          evs = [EvSave source content summary r';
                 EvError ("Could not update source page for " +:+ month_name
                          +:+ " " +:+ pretty year +:+ ". Reason: " +:+ reason)]
          ∧ r = Ok tt
      | Exc e => evs = [EvSave source content summary r'] ∧ r = Exc e
      end.
Proof.
  unfold archive_step. fold source content summary. cbn [negb].
  unfold try_except. unmonad.
  pose proof (page_save_event source content summary w) as Hev.
  destruct (page_save source content summary w) as [[evs w1] r];
    cbn [fst snd] in *.
  subst evs. destruct r as [[]|[reason| |]]; cbn [app]; by eexists.
Qed.


(** Dispatch with tasks: a line, the pool, a line, the decision. *)
Lemma dispatch_shape (dry_run : bool) (tasks : list task_info) (flag : bool)
    (w : world) :
  tasks ≠ [] →
  ∃ evs1 w1,
    executor_map process_one_day tasks w = (evs1, w1, Ok tt)
    ∧ dispatch year month_name dry_run tasks flag w
      = (let '(evs2, w2, r) := archive_step year month_name dry_run flag w1 in
         (EvOutput (nl +:+ "Starting processing for " +:+ pretty (length tasks)
                    +:+ " days in " +:+ month_name +:+ " " +:+ pretty year
                    +:+ " using " +:+ pretty (length tasks) +:+ " threads...")
          :: evs1
          ++ EvOutput (nl +:+ "Concurrent tasks complete for " +:+ month_name
                       +:+ " " +:+ pretty year +:+ ".")
          :: evs2, w2, r)).
Proof.
  intros Htasks. unfold dispatch. rewrite bool_decide_eq_false_2 by done.
  unmonad.
  pose proof (executor_map_ok process_one_day tasks w) as Hr.
  destruct (executor_map process_one_day tasks w) as [[evs1 w1] r1];
    cbn [fst snd] in *.
  subst r1. exists evs1, w1. split; [done|].
  by destruct (archive_step _ _ _ _ w1) as [[evs2 w2] r2].
Qed.

(** A processed month, with the warnings of the loop spelled out. *)
Lemma run_wotd_shape (dry_run : bool) (w : world) (wikitext : string)
    (evs' : list event) :
  (run_wotd_processing_for_month year month_name dry_run w).1.1
  = EvExists source (Ok true) :: EvText source (Ok wikitext) :: evs' →
  ∃ w1,
    same_wiki w w1
    ∧ run_wotd_processing_for_month year month_name dry_run w
      = (let '(evs2, w2, r) :=
           dispatch year month_name dry_run
             (task_of year month_name dry_run
                <$> filter (λ p, is_valid_section p.2 = true)
                           (day_pairs wikitext))
             (bool_decide
                (Exists (λ p, Text.truthy p.2 = true
                              ∧ is_valid_section p.2 = false)
                        (day_pairs wikitext))) w1 in
         (EvExists source (Ok true) :: EvText source (Ok wikitext)
            :: ((λ p, skip_warning p.1)
                  <$> filter (λ p, Text.truthy p.2 = true
                                   ∧ is_valid_section p.2 = false)
                             (day_pairs wikitext))
               ++ evs2, w2, r)).
Proof.
  unfold run_wotd_processing_for_month. fold source. unmonad.
  pose proof (page_exists_event source w) as Hev.
  pose proof (page_exists_same source w) as Hsame.
  destruct (page_exists source w) as [[evs0 w0] r0]; cbn [fst snd] in *.
  subst evs0. destruct r0 as [[|]|e]; cbn [negb fst snd app]; try done.
  pose proof (page_text_event source w0) as Hev.
  pose proof (page_text_same source w0) as Hsame'.
  destruct (page_text source w0) as [[evs1 w1] r1]; cbn [fst snd] in *.
  subst evs1. destruct r1 as [text|e]; cbn [fst snd app]; [|done].
  rewrite scan_sections_pairs.
  destruct (dispatch _ _ _ _ _ w1) as [[evs2 w2] r2] eqn:Hd.
  cbn [fst snd app]. intros [= -> _].
  exists w1. split; [by eapply same_wiki_trans|].
  unfold task_of. rewrite Hd. reflexivity.
Qed.

(** X4. A processed month without a valid pair is given up: after the
    text is read, the log has one warning for each pair that is not
    empty, in the order of the page, then the warning that no valid
    section was found; the orchestrator returns normally, no worker is
    started and the wiki is as it was. *)
Theorem no_valid_section_aborts (dry_run : bool) (w : world)
    (wikitext : string) (evs' : list event) :
  let run := run_wotd_processing_for_month year month_name dry_run w in
  run.1.1 = EvExists source (Ok true) :: EvText source (Ok wikitext) :: evs' →
  ¬ Exists (λ p, valid p.2) (day_pairs wikitext) →
  evs' = ((λ p, skip_warning p.1)
            <$> filter (λ p, p.2 ≠ "") (day_pairs wikitext))
         ++ [EvWarning ("No valid WOTD sections found in '" +:+ source
                        +:+ "'. Skipping.")]
  ∧ run.2 = Ok tt
  ∧ same_wiki w run.1.2.
Proof.
  intros run Hrun Hnone. subst run.
  destruct (run_wotd_shape dry_run w wikitext evs' Hrun) as (w1 & Hsame & Heq).
  rewrite Heq in Hrun |- *. clear Heq.
  apply (accepted_nil_iff (task_of year month_name dry_run)) in Hnone as Hnil.
  rewrite Hnil in Hrun |- *. unfold dispatch in Hrun |- *.
  rewrite bool_decide_eq_true_2 in Hrun |- * by done.
  unfold warning, emit in Hrun |- *. cbn [fst snd] in *.
  injection Hrun as <-. split; [|done]. f_equal. f_equal.
  apply filter_iff_in. intros p Hp. rewrite rejected_iff. unfold invalid.
  split; [tauto|]. intros Hne. split; [done|]. intros Hm.
  apply Hnone, Exists_exists. by exists p.
Qed.



End AfterSplit.

Lemma no_valid_section_aborts_witness :
  let text := "==1==
irrelevant
==2==
" in
  let source := source_page_title_of 2006 "January" in
  let run :=
    run_wotd_processing_for_month 2006 "January" false
      (january_world text [] []) in
  run.1.1
  = [EvExists source (Ok true); EvText source (Ok text);
     skip_warning "1";
     EvWarning "No valid WOTD sections found in 'Wiktionary:Word of the day/Archive/2006/January'. Skipping."]
  ∧ run.2 = Ok tt.
Proof.
  intros text source run.
  assert (∃ evs', run.1.1
            = EvExists source (Ok true) :: EvText source (Ok text) :: evs')
    as [evs' Hrun] by (eexists; vm_compute; reflexivity).
  assert (¬ Exists (λ p, valid p.2) (day_pairs text)) as Hnone.
  { apply (accepted_nil_iff id). vm_compute. reflexivity. }
  destruct (no_valid_section_aborts 2006 "January" false
              (january_world text [] []) text evs' Hrun Hnone)
    as (Hevs & Hr & _).
  split; [|exact Hr]. rewrite Hrun, Hevs. vm_compute. reflexivity.
Defined.



(** ** The day processor, path by path *)

Lemma page_save_prots (title text summary : string) (w : world) :
  prots (page_save title text summary w).1.2 = prots w.
Proof. unfold page_save, backend. by destruct (faults w) as [|[e|] fs]. Qed.

Lemma page_save_failed (title text summary : string) (w : world) (e : exn) :
  (page_save title text summary w).2 = Exc e →
  texts (page_save title text summary w).1.2 = texts w.
Proof.
  unfold page_save, backend. by destruct (faults w) as [|[e'|] fs].
Qed.

Lemma page_protect_texts (title : string) (protections : list (string * string))
    (reason : string) (w : world) :
  texts (page_protect title protections reason w).1.2 = texts w.
Proof. unfold page_protect, backend. by destruct (faults w) as [|[e|] fs]. Qed.

Lemma page_protect_done (title : string) (protections : list (string * string))
    (reason : string) (w : world) :
  (page_protect title protections reason w).2 = Ok tt →
  prots (page_protect title protections reason w).1.2
  = <[title := list_to_map ((λ p, (p.1, (p.2, "infinity"))) <$> protections)]>
      (prots w).
Proof.
  unfold page_protect, backend. by destruct (faults w) as [|[e|] fs].
Qed.

Ltac run_protect_full :=
  match goal with
  | |- context [page_protect ?t ?p ?s ?w] =>
      let Hev := fresh "Hev" in
      let Htexts := fresh "Htexts" in
      let Hdone := fresh "Hdone" in
      pose proof (page_protect_event t p s w) as Hev;
      pose proof (page_protect_texts t p s w) as Htexts;
      pose proof (page_protect_done t p s w) as Hdone;
      destruct (page_protect t p s w) as [[? ?] ?];
      cbn [fst snd] in Hev, Htexts, Hdone; subst
  end.

Ltac run_save_full :=
  match goal with
  | |- context [page_save ?t ?x ?s ?w] =>
      let Hev := fresh "Hev" in
      let Hprots := fresh "Hprots" in
      let Hdone := fresh "Hdone" in
      let Hfailed := fresh "Hfailed" in
      pose proof (page_save_event t x s w) as Hev;
      pose proof (page_save_prots t x s w) as Hprots;
      pose proof (page_save_ok t x s w) as Hdone;
      pose proof (page_save_failed t x s w) as Hfailed;
      destruct (page_save t x s w) as [[? ?] ?];
      cbn [fst snd] in Hev, Hprots, Hdone, Hfailed; subst
  end.

Ltac run_protection_full :=
  match goal with
  | |- context [page_protection ?t ?w] =>
      let Hev := fresh "Hev" in
      let Hok := fresh "Hok" in
      let Hsame := fresh "Hsame" in
      pose proof (page_protection_event t w) as Hev;
      pose proof (page_protection_ok t w) as Hok;
      pose proof (page_protection_same t w) as Hsame;
      destruct (page_protection t w) as [[? ?] ?];
      cbn [fst snd] in Hev, Hok, Hsame; subst
  end.

(** Membership in an explicit trace, with what follows from it. *)
Ltac settle H :=
  in_trace H; subst; cbn [failure_of] in *; try done; try congruence.

(** The thread raised: the last event is the call that failed. *)
Ltac raised :=
  repeat match goal with
         | H : Exc _ = Exc _ |- _ => injection H as ?; subst
         end;
  try done; try (eexists; by split); try (by eexists).

Section DayPaths.
Context (thread_name : string) (task_info : task_info).
Let title := title_of task_info.

(** The protection step on the page [t], path by path. *)
Lemma protection_step_paths (t : string) (w : world) :
  let run := run_thread (protection_step task_info t) w in
  texts run.1.2 = texts w
  ∧ (∀ t' x s r', EvSave t' x s r' ∉ run.1.1)
  ∧ (∀ t' r', EvExists t' r' ∉ run.1.1)
  ∧ (∀ t' ps reason r',
       EvProtect t' ps reason r' ∈ run.1.1 →
       dry_run task_info = false ∧ t' = t
       ∧ ps = [("edit", "sysop"); ("move", "sysop")]
       ∧ reason = protect_reason task_info
       ∧ edit_level (default ∅ (prots w !! t)) ≠ Some "sysop"
       ∧ (r' = Ok tt →
          edit_level (default ∅ (prots run.1.2 !! t)) = Some "sysop"
          ∧ last run.1.1 = Some (EvOutput "SUCCESS: Page has been protected.")))
  ∧ ((∀ t' ps reason r', EvProtect t' ps reason r' ∉ run.1.1) →
     prots run.1.2 = prots w)
  ∧ (∀ t' p,
       EvProtection t' (Ok p) ∈ run.1.1 →
       t' = t ∧ p = default ∅ (prots w !! t)
       ∧ (edit_level p = Some "sysop" →
          last run.1.1
          = Some (EvOutput "INFO: Page is already correctly protected."))
       ∧ (edit_level p ≠ Some "sysop" →
          ∃ r', EvProtect t [("edit", "sysop"); ("move", "sysop")]
                          (protect_reason task_info) r' ∈ run.1.1))
  ∧ (∀ ev e, ev ∈ run.1.1 → failure_of ev = Some e →
             (∀ reason, e ≠ PywikibotError reason) →
             run.2 = Exc e ∧ last run.1.1 = Some ev)
  ∧ (∀ e, run.2 = Exc e →
          (∀ reason, e ≠ PywikibotError reason)
          ∧ ∃ ev, last run.1.1 = Some ev ∧ failure_of ev = Some e)
  ∧ (dry_run task_info = false → ∃ r, head run.1.1 = Some (EvProtection t r))
  ∧ (dry_run task_info = true →
     run = ([EvOutput "DRY RUN: Page would be checked and protected if necessary."],
            w, Ok tt)).
Proof.
  intros run. subst run. unfold protection_step.
  destruct (dry_run task_info); cbn [negb run_thread].
  { unmonad. cbn [app fst snd].
    repeat split; intros; try (intros H; settle H); try settle H. }
  run_protection_full. destruct Hsame as [Htx Hpr]. destruct o as [p|e].
  2: { destruct e as [reason'| |]; cbn [run_thread]; unmonad;
         cbn [app fst snd];
         repeat split; intros; try (intros H; settle H);
         try (settle H); raised. }
  specialize (Hok _ eq_refl). subst p.
  destruct (bool_decide (edit_level (default ∅ (prots w !! t)) = Some "sysop"))
    eqn:Hlevel; cbn [negb run_thread].
  { apply bool_decide_eq_true in Hlevel. unmonad. cbn [app fst snd].
    repeat split; intros; try (intros H; settle H); try settle H; raised. }
  apply bool_decide_eq_false in Hlevel.
  run_protect_full. destruct o as [[]|[reason'| |]]; cbn [run_thread];
    unmonad; cbn [app fst snd];
    repeat split; intros; try (intros H; settle H); try settle H; raised.
  all: try (exfalso;
            match goal with
            | H : ∀ t' ps reason r', EvProtect t' ps reason r' ∉ _ |- _ =>
                eapply H; trace_has
            end).
  all: try solve [eexists; trace_has].
  rewrite Hdone by done. by rewrite lookup_insert_eq.
Qed.


(** X8. A dry run of the day processor calls the backend once, for the
    existence check, and leaves the wiki as it was.  When the check
    answers, the answer is whether the page exists, the content is
    logged if it does not, and the run ends normally on the line that
    says what a live run would do; when the check fails, its exception
    leaves the day processor. *)
Theorem dry_day_reads_once (w : world) :
  let run := run_thread (process_one_day thread_name task_info) w in
  dry_run task_info = true →
  ∃ r0,
    filter (λ ev, is_backend ev = true) run.1.1 = [EvExists title r0]
    ∧ same_wiki w run.1.2
    ∧ match r0 with
      | Exc e => run.2 = Exc e
      | Ok b =>
          run.2 = Ok tt
          ∧ b = bool_decide (is_Some (texts w !! title))
          ∧ (b = false → EvOutput (content task_info) ∈ run.1.1)
          ∧ last run.1.1
            = Some (EvOutput "DRY RUN: Page would be checked and protected if necessary.")
      end.
Proof.
  intros run Hdry. subst run. unfold process_one_day. fold title.
  rewrite Hdry. cbn [run_thread]. run_exists. exists o.
  destruct o as [[|]|e]; cbn [negb run_thread].
  - pose proof (protection_step_paths title w0) as Hp.
    destruct (run_thread (protection_step _ _) w0) as [[evs_p w2] r_p].
    destruct Hp as (_ & _ & _ & _ & _ & _ & _ & _ & _ & Hp).
    injection (Hp Hdry) as -> -> ->.
    cbn [app fst snd]. split; [reflexivity|]. split; [done|].
    split; [done|]. split; [by apply Hok|]. done.
  - pose proof (protection_step_paths title w0) as Hp.
    destruct (run_thread (protection_step _ _) w0) as [[evs_p w2] r_p].
    destruct Hp as (_ & _ & _ & _ & _ & _ & _ & _ & _ & Hp).
    injection (Hp Hdry) as -> -> ->.
    cbn [app fst snd]. split; [reflexivity|]. split; [done|].
    split; [done|]. split; [by apply Hok|]. split; [|done].
    intros _. trace_has.
  - unmonad. cbn [app fst snd]. split; [reflexivity|]. by split.
Qed.


(** X10. The day processor protects only where it has to: a call of
    [protect] happens in live mode only, on the target page, with edit
    and move at the level sysop and the reason of the task, and only
    when the edit level of the page was not sysop already; the page
    exists by then.  When the call succeeds the page is left created
    and protected, and the run ends normally on the line that reports
    it. *)
Theorem protect_only_when_needed (w : world) (t : string)
    (ps : list (string * string)) (reason : string) (r' : outcome unit) :
  let run := run_thread (process_one_day thread_name task_info) w in
  EvProtect t ps reason r' ∈ run.1.1 →
  dry_run task_info = false
  ∧ t = title
  ∧ ps = [("edit", "sysop"); ("move", "sysop")]
  ∧ reason = protect_reason task_info
  ∧ edit_level (default ∅ (prots w !! title)) ≠ Some "sysop"
  ∧ is_Some (texts run.1.2 !! title)
  ∧ (r' = Ok tt →
     created_and_protected run.1.2 title
     ∧ run.2 = Ok tt
     ∧ last run.1.1 = Some (EvOutput "SUCCESS: Page has been protected.")).
Proof.
  intros run. subst run. unfold process_one_day. fold title.
  cbn [run_thread]. run_exists. destruct Hsame as [Htx Hpr].
  assert (∀ w1 : world,
            prots w1 = prots w → is_Some (texts w1 !! title) →
            ∀ pre,
              (∀ t ps reason r', EvProtect t ps reason r' ∉ pre) →
              let run := run_thread (protection_step task_info title) w1 in
              EvProtect t ps reason r' ∈ pre ++ run.1.1 →
              dry_run task_info = false
              ∧ t = title
              ∧ ps = [("edit", "sysop"); ("move", "sysop")]
              ∧ reason = protect_reason task_info
              ∧ edit_level (default ∅ (prots w !! title)) ≠ Some "sysop"
              ∧ is_Some (texts run.1.2 !! title)
              ∧ (r' = Ok tt →
                 created_and_protected run.1.2 title
                 ∧ run.2 = Ok tt
                 ∧ last (pre ++ run.1.1)
                   = Some (EvOutput "SUCCESS: Page has been protected.")))
    as Hstep.
  { intros w1 Hprots Hex pre Hpre run.
    pose proof (protection_step_paths title w1) as Hp. fold run in Hp.
    destruct Hp as (Hp1 & _ & _ & Hp4 & _ & _ & _ & Hp8 & _).
    intros [Hin|Hin]%elem_of_app; [by apply Hpre in Hin|].
    destruct (Hp4 _ _ _ _ Hin) as (Hlive & -> & -> & -> & Hlev & Hdone).
    rewrite Hprots in Hlev. rewrite Hp1.
    repeat split; try done; destruct (Hdone H) as [Hnow Hlast];
      try done; [by rewrite Hp1| |by apply last_in_tail].
    destruct run.2 as [[]|e] eqn:Hr; [done|].
    destruct (Hp8 e eq_refl) as (_ & ev & Hlast' & Hfail).
    rewrite Hlast in Hlast'. by injection Hlast' as <-. }
  destruct o as [[|]|e]; cbn [negb run_thread].
  - specialize (Hok _ eq_refl). symmetry in Hok.
    apply bool_decide_eq_true in Hok.
    specialize (Hstep w0 (eq_sym Hpr)). rewrite <- Htx in Hstep.
    specialize (Hstep Hok).
    destruct (run_thread (protection_step _ _) w0) as [[evs_p w2] r_p].
    cbn [fst snd] in *.
    apply (Hstep [_; _; _; _]). intros t' ps' reason' r'' H. settle H.
  - destruct (dry_run task_info) eqn:Hdry; cbn [negb run_thread].
    + pose proof (protection_step_paths title w0) as Hp.
      destruct (run_thread (protection_step _ _) w0) as [[evs_p w2] r_p].
      destruct Hp as (_ & _ & _ & _ & _ & _ & _ & _ & _ & Hp).
      injection (Hp Hdry) as -> -> ->. cbn [app fst snd].
      intros H. settle H.
    + run_save_full. destruct o as [[]|[reason'| |]]; cbn [run_thread].
      * specialize (Hstep w1). rewrite Hprots, Hdone, <- Hpr in Hstep by done.
        specialize (Hstep eq_refl).
        rewrite lookup_insert_eq in Hstep. specialize (Hstep (mk_is_Some _ _ eq_refl)).
        destruct (run_thread (protection_step _ _) w1) as [[evs_p w2] r_p].
        cbn [fst snd] in *.
        apply (Hstep [_; _; _; _; _; _; _; _; _]).
        intros t' ps' reason' r'' H. settle H.
      * unmonad. cbn [app fst snd]. intros H. settle H.
      * unmonad. cbn [app fst snd]. intros H. settle H.
      * unmonad. cbn [app fst snd]. intros H. settle H.
  - unmonad. cbn [app fst snd]. intros H. settle H.
Qed.

(** X11. The protection is looked up before it is changed: the query
    happens in live mode only, on the target page, and answers what
    the wiki holds.  When the edit level it reports is sysop, no
    [protect] follows, the protections stay as they were and the run
    ends normally on the line that says so; otherwise [protect] is
    called. *)
Theorem protection_is_looked_up (w : world) (t : string)
    (p : protection_dict) :
  let run := run_thread (process_one_day thread_name task_info) w in
  EvProtection t (Ok p) ∈ run.1.1 →
  dry_run task_info = false
  ∧ t = title
  ∧ p = default ∅ (prots w !! title)
  ∧ (edit_level p = Some "sysop" →
     (∀ t' ps reason r', EvProtect t' ps reason r' ∉ run.1.1)
     ∧ prots run.1.2 = prots w
     ∧ run.2 = Ok tt
     ∧ last run.1.1
       = Some (EvOutput "INFO: Page is already correctly protected."))
  ∧ (edit_level p ≠ Some "sysop" →
     ∃ r', EvProtect title [("edit", "sysop"); ("move", "sysop")]
                     (protect_reason task_info) r' ∈ run.1.1).
Proof.
  intros run. subst run. unfold process_one_day. fold title.
  cbn [run_thread]. run_exists. destruct Hsame as [Htx Hpr].
  assert (∀ w1 : world,
            prots w1 = prots w →
            ∀ pre,
              (∀ t ps reason r', EvProtect t ps reason r' ∉ pre) →
              (∀ t r', EvProtection t r' ∉ pre) →
              let run := run_thread (protection_step task_info title) w1 in
              EvProtection t (Ok p) ∈ pre ++ run.1.1 →
              dry_run task_info = false
              ∧ t = title
              ∧ p = default ∅ (prots w !! title)
              ∧ (edit_level p = Some "sysop" →
                 (∀ t' ps reason r', EvProtect t' ps reason r' ∉ pre ++ run.1.1)
                 ∧ prots run.1.2 = prots w
                 ∧ run.2 = Ok tt
                 ∧ last (pre ++ run.1.1)
                   = Some (EvOutput "INFO: Page is already correctly protected."))
              ∧ (edit_level p ≠ Some "sysop" →
                 ∃ r', EvProtect title [("edit", "sysop"); ("move", "sysop")]
                                 (protect_reason task_info) r'
                       ∈ pre ++ run.1.1))
    as Hstep.
  { intros w1 Hprots pre Hpre Hpre' run.
    pose proof (protection_step_paths title w1) as Hp. fold run in Hp.
    destruct Hp as (_ & _ & _ & Hp4 & Hp5 & Hp6 & _ & Hp8 & _ & Hp10).
    intros [Hin|Hin]%elem_of_app; [by apply Hpre' in Hin|].
    destruct (Hp6 _ _ Hin) as (-> & -> & Hyes & Hno). rewrite Hprots in *.
    split.
    { destruct (dry_run task_info); [|done]. rewrite Hp10 in Hin by done.
      settle Hin. }
    split; [done|]. split; [done|]. split.
    - intros Hlev. specialize (Hyes Hlev).
      assert (∀ t' ps reason r', EvProtect t' ps reason r' ∉ run.1.1) as Hnone.
      { intros t' ps reason r' H. apply Hp4 in H.
        destruct H as (_ & _ & _ & _ & H & _). by rewrite ?Hprots in H. }
      split.
      { intros t' ps reason r' [H|H]%elem_of_app;
          [by apply Hpre in H | by apply Hnone in H]. }
      split; [by rewrite Hp5|]. split; [|by apply last_in_tail].
      destruct run.2 as [[]|e] eqn:Hr; [done|].
      destruct (Hp8 e eq_refl) as (_ & ev & Hlast' & Hfail).
      rewrite Hyes in Hlast'. by injection Hlast' as <-.
    - intros Hlev. destruct (Hno Hlev) as [r' Hr']. exists r'.
      apply elem_of_app. by right. }
  destruct o as [[|]|e]; cbn [negb run_thread].
  - specialize (Hstep w0 (eq_sym Hpr)).
    destruct (run_thread (protection_step _ _) w0) as [[evs_p w2] r_p].
    cbn [fst snd] in *.
    apply (Hstep [_; _; _; _]); intros; intros H; settle H.
  - destruct (dry_run task_info) eqn:Hdry; cbn [negb run_thread].
    + pose proof (protection_step_paths title w0) as Hp.
      destruct (run_thread (protection_step _ _) w0) as [[evs_p w2] r_p].
      destruct Hp as (_ & _ & _ & _ & _ & _ & _ & _ & _ & Hp).
      injection (Hp Hdry) as -> -> ->. cbn [app fst snd].
      intros H. settle H.
    + run_save_full. destruct o as [[]|[reason'| |]]; cbn [run_thread].
      * specialize (Hstep w1). rewrite Hprots, <- Hpr in Hstep.
        specialize (Hstep eq_refl).
        destruct (run_thread (protection_step _ _) w1) as [[evs_p w2] r_p].
        cbn [fst snd] in *.
        apply (Hstep [_; _; _; _; _; _; _; _; _]); intros; intros H; settle H.
      * unmonad. cbn [app fst snd]. intros H. settle H.
      * unmonad. cbn [app fst snd]. intros H. settle H.
      * unmonad. cbn [app fst snd]. intros H. settle H.
  - unmonad. cbn [app fst snd]. intros H. settle H.
Qed.


End DayPaths.


Lemma dry_day_reads_once_witness :
  let run := run_thread (process_one_day "MainThread" sample_dry_task)
                        quiet_world in
  ∃ r0, filter (λ ev, is_backend ev = true) run.1.1
        = [EvExists (title_of sample_dry_task) r0].
Proof.
  intros run.
  destruct (dry_day_reads_once "MainThread" sample_dry_task quiet_world
              eq_refl) as (r0 & H & _).
  by exists r0.
Defined.


Lemma protect_only_when_needed_witness :
  let run := run_thread (process_one_day "MainThread" sample_task)
                        quiet_world in
  created_and_protected run.1.2 (title_of sample_task).
Proof.
  intros run.
  assert (EvProtect (title_of sample_task)
                    [("edit", "sysop"); ("move", "sysop")]
                    (protect_reason sample_task) (Ok tt) ∈ run.1.1) as Hin
    by (vm_compute; trace_has).
  destruct (protect_only_when_needed "MainThread" sample_task quiet_world
              _ _ _ _ Hin) as (_ & _ & _ & _ & _ & _ & Hdone).
  exact (proj1 (Hdone eq_refl)).
Defined.

Lemma protection_is_looked_up_witness :
  let w := World {[ title_of sample_task := "{{wotd|foo}}" ]}
                 {[ title_of sample_task
                    := {[ "edit" := ("sysop", "infinity") ]} ]} [] [] 0 in
  let run := run_thread (process_one_day "MainThread" sample_task) w in
  (∀ t ps reason r, EvProtect t ps reason r ∉ run.1.1) ∧ run.2 = Ok tt.
Proof.
  intros w run.
  assert (EvProtection (title_of sample_task)
            (Ok {[ "edit" := ("sysop", "infinity") ]}) ∈ run.1.1) as Hin
    by (vm_compute; trace_has).
  destruct (protection_is_looked_up "MainThread" sample_task w _ _ Hin)
    as (_ & _ & _ & Hyes & _).
  destruct (Hyes eq_refl) as (Hnone & _ & Hr & _).
  split; [exact Hnone | exact Hr].
Defined.


(** ** What a month writes *)

(** The events of the day processor: log lines, the existence check,
    the protection query, the save of the target page with the content
    and the summary of the task, and its [protect].  A predicate that
    holds of none of them holds of no event of a worker. *)
Lemma process_one_day_alphabet (P : event → bool) (thread_name : string)
    (task_info : task_info) :
  (∀ msg, P (EvOutput msg) = false) →
  (∀ msg, P (EvError msg) = false) →
  (∀ t r, P (EvExists t r) = false) →
  (∀ t r, P (EvProtection t r) = false) →
  (∀ r, P (EvSave (title_of task_info) (content task_info)
                  (create_summary task_info) r) = false) →
  (∀ r, P (EvProtect (title_of task_info)
                     [("edit", "sysop"); ("move", "sysop")]
                     (protect_reason task_info) r) = false) →
  emits P (process_one_day thread_name task_info) 0.
Proof.
  intros Ho He Hx Hq Hs Hp.
  unfold process_one_day, protection_step. fold (title_of task_info).
  repeat first
    [ progress (cbn [emits negb];
                rewrite ?count_cons_if, ?count_nil, ?Ho, ?He, ?Hx, ?Hq, ?Hs,
                  ?Hp)
    | progress intros
    | split
    | match goal with
      | |- context [match ?x with _ => _ end] => destruct x
      end
    | lia
    | done ].
Qed.

Lemma count_0_elem (P : event → bool) (evs : list event) (ev : event) :
  count P evs = 0%nat → ev ∈ evs → P ev = false.
Proof.
  intros H0 Hin. destruct (P ev) eqn:HP; [|done].
  pose proof (count_pos P ev evs Hin HP). lia.
Qed.

Lemma keeps_py_index (title : string) (l : list string) (i : nat) :
  keeps title (py_index l i).
Proof.
  unfold py_index. destruct (l !! i); [apply keeps_ret | apply keeps_raise].
Qed.

Lemma keeps_for_fold {A S} (title : string) (l : list A)
    (body : S → A → M S) (s : S) :
  (∀ s x, keeps title (body s x)) → keeps title (for_fold l body s).
Proof.
  intros Hbody. revert s. induction l as [|x l IH]; intros s; cbn [for_fold].
  - apply keeps_ret.
  - apply keeps_bind; [apply Hbody | apply IH].
Qed.

Lemma keeps_run_wotd (title : string) (year : Z) (month_name : string)
    (dry_run : bool) :
  keeps title (run_wotd_processing_for_month year month_name dry_run).
Proof.
  unfold run_wotd_processing_for_month.
  apply keeps_bind; [apply keeps_read|]. intros [|]; cbn [negb];
    [|apply keeps_emit].
  apply keeps_bind; [apply keeps_read|]. intros wikitext.
  apply keeps_bind.
  { apply keeps_for_fold. intros [tasks flag] i. unfold scan_section.
    apply keeps_bind; [apply keeps_py_index|]. intros d.
    apply keeps_bind; [apply keeps_py_index|]. intros c.
    destruct (is_valid_section _); [apply keeps_ret|].
    destruct (Text.truthy _); [|apply keeps_ret].
    apply keeps_bind; [apply keeps_emit | intros; apply keeps_ret]. }
  intros [tasks flag]. unfold dispatch.
  destruct (bool_decide (tasks = [])); [apply keeps_emit|].
  apply keeps_bind; [apply keeps_emit|]. intros _.
  apply keeps_bind; [apply keeps_executor_map|]. intros _.
  apply keeps_bind; [apply keeps_emit|]. intros _.
  unfold archive_step. destruct flag; [apply keeps_emit|].
  destruct dry_run; cbn [negb]; [apply keeps_emit|].
  apply keeps_try_except.
  - apply keeps_bind; [apply keeps_save|]. intros _. apply keeps_emit.
  - intros reason. apply keeps_emit.
Qed.

Section MonthWrites.
Context (year : Z) (month_name : string) (dry_run : bool).
Let source := source_page_title_of year month_name.

(** What the month may save: the archive template on the source page,
    and for each of [pairs] its content on its target page. *)
Let allowed (pairs : list (string * string))
  : list (string * string * string) :=
  (source, archive_content year, archive_summary_of year month_name)
  :: ((λ p, (target_page_title_of year month_name p.1, p.2,
             create_summary_of year month_name)) <$> pairs).

Let targets (pairs : list (string * string)) : list string :=
  (λ p, target_page_title_of year month_name p.1) <$> pairs.

Lemma archive_step_alphabet (P : event → bool) (flag : bool) :
  (∀ msg, P (EvOutput msg) = false) →
  (∀ msg, P (EvError msg) = false) →
  (∀ r, P (EvSave source (archive_content year)
                  (archive_summary_of year month_name) r) = false) →
  silent P (archive_step year month_name dry_run flag).
Proof.
  intros Ho He Hs. unfold archive_step. fold source.
  destruct flag; [by apply silent_emit|].
  destruct dry_run; cbn [negb]; [by apply silent_emit|].
  apply silent_try_except.
  - apply silent_bind; [by apply silent_backend|]. intros _.
    by apply silent_emit.
  - intros reason. by apply silent_emit.
Qed.

(** A processed month calls [save] and [protect] within what its valid
    pairs allow. *)
Lemma run_wotd_inside (w : world) (wikitext : string) (evs' : list event) :
  let run := run_wotd_processing_for_month year month_name dry_run w in
  let pairs := filter (λ p, is_valid_section p.2 = true)
                      (day_pairs wikitext) in
  run.1.1 = EvExists source (Ok true) :: EvText source (Ok wikitext) :: evs' →
  count (saves_outside (allowed pairs)) run.1.1 = 0%nat
  ∧ count (protects_outside (targets pairs)) run.1.1 = 0%nat.
Proof.
  intros run pairs Hrun. subst run.
  destruct (run_wotd_shape year month_name dry_run w wikitext evs' Hrun)
    as (w1 & Hsame & ->).
  clear Hrun. fold pairs.
  set (flag := bool_decide _).
  set (warnings := (λ p : string * string, skip_warning p.1) <$> _).
  assert (∀ ev, ev ∈ warnings → ∃ msg, ev = EvWarning msg) as Hwarn.
  { intros ev (p & -> & _)%list_elem_of_fmap. by eexists. }
  assert (silent (saves_outside (allowed pairs))
            (dispatch year month_name dry_run
               (task_of year month_name dry_run <$> pairs) flag)) as Hs.
  { apply (dispatch_silent _ _ _ _ wikitext w1); try done.
    + intros name task (p & -> & Hin)%list_elem_of_fmap.
      apply process_one_day_alphabet; try done.
      intros r. cbn [saves_outside]. apply negb_false_iff, bool_decide_eq_true_2.
      apply list_elem_of_further, list_elem_of_fmap. by exists p.
    + apply archive_step_alphabet; try done.
      intros r. cbn [saves_outside]. apply negb_false_iff, bool_decide_eq_true_2.
      apply list_elem_of_here. }
  assert (silent (protects_outside (targets pairs))
            (dispatch year month_name dry_run
               (task_of year month_name dry_run <$> pairs) flag)) as Hp.
  { apply (dispatch_silent _ _ _ _ wikitext w1); try done.
    + intros name task (p & -> & Hin)%list_elem_of_fmap.
      apply process_one_day_alphabet; try done.
      intros r. cbn [protects_outside]. apply negb_false_iff.
      rewrite !andb_true_iff, !bool_decide_eq_true. repeat split.
      apply list_elem_of_fmap. by exists p.
    + by apply archive_step_alphabet. }
  specialize (Hs w1). specialize (Hp w1).
  destruct (dispatch _ _ _ _ _ w1) as [[evs2 w2] r2]. cbn [fst snd] in *.
  rewrite !count_cons_if, !count_app. cbn [saves_outside protects_outside].
  rewrite !(count_warnings _ warnings) by done. cbn [Nat.add].
  by split.
Qed.

(** X13. A processed month calls [save] and [protect] for its own
    pages only, whatever fails and however the workers interleave:
    every [save] is the archive template on the source page, with the
    archive summary, or the content of a valid pair on the target page
    of its day, with the creation summary; every [protect] puts edit
    and move at sysop, with the fixed reason, on the target page of a
    valid pair. *)
Theorem month_writes_only_its_pages (w : world) (wikitext : string)
    (evs' : list event) :
  let run := run_wotd_processing_for_month year month_name dry_run w in
  run.1.1 = EvExists source (Ok true) :: EvText source (Ok wikitext) :: evs' →
  (∀ t x s r,
     EvSave t x s r ∈ run.1.1 →
     (t = source ∧ x = archive_content year
      ∧ s = archive_summary_of year month_name)
     ∨ (∃ d, (d, x) ∈ day_pairs wikitext ∧ valid x
             ∧ t = target_page_title_of year month_name d
             ∧ s = create_summary_of year month_name))
  ∧ (∀ t ps reason r,
       EvProtect t ps reason r ∈ run.1.1 →
       ps = [("edit", "sysop"); ("move", "sysop")]
       ∧ reason = protect_reason_text
       ∧ ∃ d x, (d, x) ∈ day_pairs wikitext ∧ valid x
                ∧ t = target_page_title_of year month_name d).
Proof.
  intros run Hrun. destruct (run_wotd_inside w wikitext evs' Hrun) as [Hs Hp].
  fold run in Hs, Hp. split.
  - intros t x s r Hin. apply (count_0_elem _ _ _ Hs) in Hin.
    cbn [saves_outside] in Hin.
    apply negb_false_iff, bool_decide_eq_true in Hin.
    apply elem_of_cons in Hin as [[= -> -> ->]|Hin]; [by left | right].
    apply list_elem_of_fmap in Hin as ([d c] & [= -> -> ->] & Hin).
    apply list_elem_of_filter in Hin as [Hv Hin]. cbn [fst snd] in *.
    exists d. split; [done|]. split; [by apply is_valid_section_spec | done].
  - intros t ps reason r Hin. apply (count_0_elem _ _ _ Hp) in Hin.
    cbn [protects_outside] in Hin.
    apply negb_false_iff in Hin.
    rewrite !andb_true_iff, !bool_decide_eq_true in Hin.
    destruct Hin as [[Hin ->] ->]. split; [done|]. split; [done|].
    apply list_elem_of_fmap in Hin as ([d c] & -> & Hin).
    apply list_elem_of_filter in Hin as [Hv Hin]. cbn [fst snd] in *.
    exists d, c. split; [done|]. split; [by apply is_valid_section_spec | done].
Qed.

(** X14. A processed month leaves every other page alone: the text of
    a page that is neither the source page nor the target page of a
    valid pair is what it was, and so is its protection; the
    protection of the source page is never changed either. *)
Theorem month_leaves_other_pages (w : world) (wikitext : string)
    (evs' : list event) (t : string) :
  let run := run_wotd_processing_for_month year month_name dry_run w in
  run.1.1 = EvExists source (Ok true) :: EvText source (Ok wikitext) :: evs' →
  (∀ d x, (d, x) ∈ day_pairs wikitext → valid x →
          t ≠ target_page_title_of year month_name d) →
  prots run.1.2 !! t = prots w !! t
  ∧ (t ≠ source → texts run.1.2 !! t = texts w !! t).
Proof.
  intros run Hrun Hother.
  destruct (run_wotd_inside w wikitext evs' Hrun) as [Hs Hp].
  fold run in Hs, Hp.
  destruct (keeps_run_wotd t year month_name dry_run w) as [Htexts Hprots].
  fold run in Htexts, Hprots.
  set (pairs := filter (λ p, is_valid_section p.2 = true)
                       (day_pairs wikitext)) in *.
  assert (∀ p, p ∈ pairs → t ≠ target_page_title_of year month_name p.1)
    as Hother'.
  { intros [d c] [Hv Hin]%list_elem_of_filter. cbn [fst snd] in *.
    apply (Hother d c Hin). by apply is_valid_section_spec. }
  split.
  - apply Hprots.
    pose proof (count_le (is_protected t) (protects_outside (targets pairs))
                  run.1.1) as Hle.
    rewrite Hp in Hle. apply Nat.le_0_r, Hle.
    intros [| | | | |t' ps reason [[]|]| | |]; cbn [is_protected]; try done.
    intros ->%bool_decide_eq_true. cbn [protects_outside].
    apply negb_true_iff. rewrite !andb_false_iff. left. left.
    apply bool_decide_eq_false_2.
    intros (p & Heq & Hin)%list_elem_of_fmap. by apply (Hother' p Hin).
  - intros Hne. apply Htexts.
    pose proof (count_le (is_saved t) (saves_outside (allowed pairs)) run.1.1)
      as Hle.
    rewrite Hs in Hle. apply Nat.le_0_r, Hle.
    intros [| | |t' x s [[]|]| | | | |]; cbn [is_saved]; try done.
    intros ->%bool_decide_eq_true. cbn [saves_outside].
    apply negb_true_iff, bool_decide_eq_false_2.
    intros [[= Heq _ _]|Hin]%elem_of_cons; [done|].
    apply list_elem_of_fmap in Hin as (p & [= Heq _ _] & Hin).
    by apply (Hother' p Hin).
Qed.

End MonthWrites.

Lemma month_writes_only_its_pages_witness :
  let source := source_page_title_of 2006 "January" in
  let run :=
    run_wotd_processing_for_month 2006 "January" false
      (january_world sample_month [] [1; 0; 1]%nat) in
  EvSave (target_page_title_of 2006 "January" "3") "{{wotd|bar}}"
         (create_summary_of 2006 "January") (Ok tt) ∈ run.1.1
  ∧ ∃ d, (d, "{{wotd|bar}}") ∈ day_pairs sample_month
         ∧ target_page_title_of 2006 "January" "3"
           = target_page_title_of 2006 "January" d.
Proof.
  intros source run.
  assert (∃ evs', run.1.1
            = EvExists source (Ok true) :: EvText source (Ok sample_month)
                :: evs')
    as [evs' Hrun] by (eexists; vm_compute; reflexivity).
  assert (EvSave (target_page_title_of 2006 "January" "3") "{{wotd|bar}}"
                 (create_summary_of 2006 "January") (Ok tt) ∈ run.1.1) as Hin
    by (vm_compute; trace_has).
  split; [exact Hin|].
  destruct (proj1 (month_writes_only_its_pages 2006 "January" false
                     (january_world sample_month [] [1; 0; 1]%nat)
                     sample_month evs' Hrun) _ _ _ _ Hin)
    as [(Heq & _)|(d & Hd & _ & Ht & _)].
  - vm_compute in Heq. discriminate Heq.
  - by exists d.
Defined.

Lemma month_leaves_other_pages_witness :
  let source := source_page_title_of 2006 "January" in
  let w := World {[ source := sample_month; "Main Page" := "Welcome" ]} ∅
                 [] [1; 0; 1]%nat 0 in
  let run := run_wotd_processing_for_month 2006 "January" false w in
  texts run.1.2 !! "Main Page" = Some "Welcome".
Proof.
  intros source w run.
  assert (∃ evs', run.1.1
            = EvExists source (Ok true) :: EvText source (Ok sample_month)
                :: evs')
    as [evs' Hrun] by (eexists; vm_compute; reflexivity).
  assert (∀ d x, (d, x) ∈ day_pairs sample_month → valid x →
                 "Main Page" ≠ target_page_title_of 2006 "January" d)
    as Hother.
  { intros d x _ _ H. vm_compute in H. discriminate H. }
  destruct (month_leaves_other_pages 2006 "January" false w sample_month evs'
              "Main Page" Hrun Hother) as [_ Htexts].
  fold run in Htexts. rewrite Htexts.
  - vm_compute. reflexivity.
  - intros H. vm_compute in H. discriminate H.
Defined.

(** ** What stops the script *)

Section RaisesAtEnd.
Context (Q : exn → event → Prop).






End RaisesAtEnd.



(** X15. The script logs in right after the line that names the mode,
    and a login that fails ends it there: the exception leaves [main],
    no month is looked at and the wiki is as it was. *)
Theorem login_failure_stops_main (argv : list string) (now : Z * Z)
    (w : world) (e : exn) :
  let run := main argv now w in
  run.1.1 !! 1%nat = Some (EvLogin (Exc e)) →
  length run.1.1 = 2%nat ∧ run.2 = Exc e ∧ same_wiki w run.1.2.
Proof.
  intros run. subst run. unfold main. unmonad.
  assert (∀ w, (login w).1.1 = [EvLogin (login w).2]) as Hev
    by (intros; apply backend_event).
  assert (∀ w, same_wiki w (login w).1.2) as Hsame
    by (intros; apply (backend_read EvLogin (λ _, tt))).
  destruct (bool_decide ("-live" ∈ argv)); cbn [fst snd].
  all: specialize (Hev w); specialize (Hsame w);
    destruct (login w) as [[evs1 w1] r1]; cbn [fst snd] in *; subst evs1;
    destruct r1 as [[]|e']; cbn [app].
  all: try (destruct (calendar_driver _ _ _ _ _ _ w1) as [[evs2 w2] r2];
            by cbn [app lookup]).
  all: cbn. all: by intros [= ->].
Qed.


Lemma login_failure_stops_main_witness :
  let w := World ∅ ∅ [Some (PywikibotError "NoUsername")] [] 0 in
  let run := main ["wotd.py"; "-live"] (2010, 3)%Z w in
  length run.1.1 = 2%nat ∧ run.2 = Exc (PywikibotError "NoUsername").
Proof.
  intros w run.
  destruct (login_failure_stops_main ["wotd.py"; "-live"] (2010, 3)%Z w
              (PywikibotError "NoUsername") eq_refl) as (Hlen & Hr & _).
  split; [exact Hlen | exact Hr].
Defined.


(** ** The last line of a month *)

Section Decision.
Context (year : Z) (month_name : string).
Let source := source_page_title_of year month_name.
Let content := archive_content year.
Let summary := archive_summary_of year month_name.

(** X17. The last line of a processed month with a valid pair tells
    what became of the source page.  With an invalid pair it is the
    error that the page will not be archived, and the page is not
    saved, in either mode.  Without one, a dry run ends on the line
    that says what would be written, and a live run calls [save] on
    the source page; when that succeeds the last line reports it.  In
    all these cases the orchestrator returns normally. *)
Theorem archive_decision_is_last_line (dry_run : bool) (w : world)
    (wikitext : string) (evs' : list event) :
  let run := run_wotd_processing_for_month year month_name dry_run w in
  run.1.1 = EvExists source (Ok true) :: EvText source (Ok wikitext) :: evs' →
  Exists (λ p, valid p.2) (day_pairs wikitext) →
  (Exists (λ p, invalid p.2) (day_pairs wikitext) →
   last run.1.1
   = Some (EvError (nl +:+ "Source page for " +:+ month_name +:+ " "
                    +:+ pretty year
                    +:+ " will NOT be archived because one or more sections were invalid."))
   ∧ run.2 = Ok tt
   ∧ count (is_save_of source) run.1.1 = 0%nat)
  ∧ (¬ Exists (λ p, invalid p.2) (day_pairs wikitext) →
     if dry_run then
       last run.1.1
       = Some (EvOutput (nl +:+ "DRY RUN: All sections valid. Would replace content of '"
                         +:+ source +:+ "' with: " +:+ content))
       ∧ run.2 = Ok tt
     else
       ∃ r, EvSave source content summary r ∈ run.1.1
            ∧ (r = Ok tt →
               last run.1.1
               = Some (EvOutput ("SUCCESS: Source page for " +:+ month_name
                                 +:+ " " +:+ pretty year
                                 +:+ " has been archived."))
               ∧ run.2 = Ok tt)).
Proof.
  intros run Hrun Hvalid. subst run.
  destruct (run_wotd_shape year month_name dry_run w wikitext evs' Hrun)
    as (w1 & Hsame & ->).
  clear Hrun.
  set (tasks := task_of year month_name dry_run <$> _).
  set (warnings := (λ p : string * string, skip_warning p.1) <$> _).
  assert (∀ ev, ev ∈ warnings → ∃ msg, ev = EvWarning msg) as Hwarn.
  { intros ev (p & -> & _)%list_elem_of_fmap. by eexists. }
  assert (tasks ≠ []) as Hnil.
  { intros Hnil. by apply accepted_nil_iff in Hnil. }
  rewrite <- exists_rejected_iff.
  destruct (dispatch_shape year month_name dry_run tasks
              (bool_decide (Exists (λ p, Text.truthy p.2 = true
                                         ∧ is_valid_section p.2 = false)
                                   (day_pairs wikitext))) w1 Hnil)
    as (evs2 & w2 & Hpool & ->).
  pose proof (silent_executor_map (is_save_of source) process_one_day tasks)
    as Hsilent.
  specialize (Hsilent (λ name task Hin,
    process_one_day_save_other name task source
      (λ H, task_title_differs year month_name dry_run _ task Hin (eq_sym H)))
    w1).
  rewrite Hpool in Hsilent. cbn [fst snd] in Hsilent.
  split.
  - intros Hinv. rewrite bool_decide_eq_true_2 by done.
    unfold archive_step, error, emit. cbn [fst snd].
    split; [|split; [done|]].
    + do 2 apply last_after.
      apply last_in_tail, last_after, last_in_tail. done.
    + rewrite !count_cons_if, !count_app, !count_cons_if, ?count_nil.
      cbn [is_save_of]. rewrite (count_warnings _ warnings) by done.
      rewrite !count_app, !count_cons_if, ?count_nil. cbn [is_save_of]. lia.
  - intros Hinv. rewrite bool_decide_eq_false_2 by done.
    destruct dry_run.
    + unfold archive_step, output, emit. cbn [negb fst snd].
      split; [|done]. do 2 apply last_after.
      apply last_in_tail, last_after, last_in_tail. done.
    + pose proof (archive_step_cases year month_name w2) as Ha.
      destruct (archive_step _ _ _ _ w2) as [[evs3 w3] r3]. cbn [fst snd].
      destruct Ha as (r' & _ & Ha). exists r'.
      destruct r' as [[]|[reason| |]]; destruct Ha as [-> ->].
      all: split;
        [ do 2 apply list_elem_of_further; apply elem_of_app; right;
          apply list_elem_of_further, elem_of_app; right;
          apply list_elem_of_further, list_elem_of_here
        | try done ].
      intros _. split; [|done]. do 2 apply last_after.
      apply last_in_tail, last_after, last_in_tail. done.
Qed.

End Decision.

Lemma archive_decision_is_last_line_witness :
  let source := source_page_title_of 2006 "January" in
  let run :=
    run_wotd_processing_for_month 2006 "January" true
      (january_world sample_month [] [1; 0; 1]%nat) in
  last run.1.1
  = Some (EvError (nl +:+ "Source page for January 2006 will NOT be archived because one or more sections were invalid."))
  ∧ run.2 = Ok tt.
Proof.
  intros source run.
  assert (∃ evs', run.1.1
            = EvExists source (Ok true) :: EvText source (Ok sample_month)
                :: evs')
    as [evs' Hrun] by (eexists; vm_compute; reflexivity).
  assert (Exists (λ p, valid p.2) (day_pairs sample_month)) as Hvalid.
  { apply Exists_exists. exists ("1", "{{wotd|foo}}").
    split; [vm_compute; trace_has|].
    by apply is_valid_section_spec. }
  assert (Exists (λ p, invalid p.2) (day_pairs sample_month)) as Hinvalid.
  { apply Exists_exists. exists ("2", "irrelevant").
    split; [vm_compute; trace_has|].
    by apply rejected_iff. }
  destruct (proj1 (archive_decision_is_last_line 2006 "January" true
                     (january_world sample_month [] [1; 0; 1]%nat)
                     sample_month evs' Hrun Hvalid) Hinvalid)
    as (Hlast & Hr & _).
  split; [exact Hlast | exact Hr].
Defined.

(** ** A month that was archived *)

Section Archived.
Import Text Re.

Lemma all_chars_app (p : ascii → bool) (a b : string) :
  all_chars p (a +:+ b) = all_chars p a && all_chars p b.
Proof.
  induction a as [|c a IH]; [done|]. cbn [String.append all_chars].
  rewrite IH. by rewrite andb_assoc.
Qed.

Lemma pretty_N_go_chars (p : ascii → bool) (x : N) (s : string) :
  (∀ d, p (pretty_N_char d) = true) → all_chars p s = true →
  all_chars p (pretty_N_go x s) = true.
Proof.
  intros Hp. revert s. induction (N.lt_wf_0 x) as [x _ IH]; intros s Hs.
  destruct (decide (x = 0)%N) as [->|Hx]; [by rewrite pretty_N_go_0|].
  rewrite pretty_N_go_step by lia.
  apply IH; [apply N.div_lt; lia|]. cbn [all_chars]. by rewrite Hp, Hs.
Qed.

Lemma pretty_Z_chars (p : ascii → bool) (y : Z) :
  (∀ d, p (pretty_N_char d) = true) → p "-"%char = true →
  all_chars p (pretty y) = true.
Proof.
  intros Hp Hm.
  assert (p "0"%char = true) as H0 by apply (Hp 0%N).
  assert (∀ n : N, all_chars p (pretty n) = true) as HN.
  { intros n. unfold pretty, pretty_N. case_decide.
    - cbn [all_chars]. by rewrite H0.
    - by apply pretty_N_go_chars. }
  unfold pretty, pretty_Z. destruct y as [|q|q].
  - cbn [all_chars]. by rewrite H0.
  - apply (HN (N.pos q)).
  - change (all_chars p ("-" +:+ pretty (N.pos q)) = true).
    rewrite all_chars_app. cbn [all_chars]. by rewrite Hm, HN.
Qed.

(** A text without an equals sign has no heading: the split is the text
    itself. *)
Lemma split_scan_plain (s piece : string) :
  all_chars (λ c, negb (Ascii.eqb c "=")) s = true →
  split_scan s 0 piece = [piece +:+ s].
Proof.
  revert piece. induction s as [|c s IH]; intros piece; cbn [all_chars].
  - intros _. cbn [split_scan]. by rewrite str_app_nil_r.
  - intros [Hc Hs]%andb_true_iff. apply negb_true_iff in Hc.
    rewrite split_scan_no_match.
    + rewrite IH by done. by rewrite str_app_assoc.
    + unfold heading. cbn [lit]. rewrite Ascii.eqb_sym. by rewrite Hc.
Qed.

Lemma archive_content_pairs (year : Z) : day_pairs (archive_content year) = [].
Proof.
  unfold day_pairs, split. rewrite split_scan_plain; [done|].
  unfold archive_content. rewrite !all_chars_app.
  rewrite pretty_Z_chars; [done| |done].
  intros d. unfold pretty_N_char.
  destruct d as [|q]; [done|]. by do 4 (destruct q as [q|q|]; try done).
Qed.

End Archived.

(** X18. A month that was archived is not processed again: when the
    text read from the source page is an archive template, of any
    year, the orchestrator logs that no valid section was found and
    returns; no warning about a skipped section, no worker, no write. *)
Theorem archived_month_is_skipped (year : Z) (month_name : string)
    (dry_run : bool) (w : world) (archived : Z) (evs' : list event) :
  let source := source_page_title_of year month_name in
  let run := run_wotd_processing_for_month year month_name dry_run w in
  run.1.1 = EvExists source (Ok true)
            :: EvText source (Ok (archive_content archived)) :: evs' →
  evs' = [EvWarning ("No valid WOTD sections found in '" +:+ source
                     +:+ "'. Skipping.")]
  ∧ run.2 = Ok tt
  ∧ same_wiki w run.1.2.
Proof.
  intros source run Hrun. subst run.
  destruct (run_wotd_shape year month_name dry_run w _ evs' Hrun)
    as (w1 & Hsame & Heq).
  rewrite Heq in Hrun |- *. clear Heq.
  rewrite archive_content_pairs in Hrun |- *.
  rewrite filter_nil in Hrun |- *. cbn [fmap list_fmap] in Hrun |- *.
  unfold dispatch in Hrun |- *.
  rewrite bool_decide_eq_true_2 in Hrun |- * by done.
  unfold warning, emit in Hrun |- *. cbn [fst snd app] in *.
  by injection Hrun as <-.
Qed.

Lemma archived_month_is_skipped_witness :
  let source := source_page_title_of 2006 "January" in
  let w := january_world (archive_content 2006) [] [] in
  let run := run_wotd_processing_for_month 2006 "January" false w in
  run.1.1
  = [EvExists source (Ok true); EvText source (Ok (archive_content 2006));
     EvWarning "No valid WOTD sections found in 'Wiktionary:Word of the day/Archive/2006/January'. Skipping."]
  ∧ same_wiki w run.1.2.
Proof.
  intros source w run.
  assert (∃ evs', run.1.1
            = EvExists source (Ok true)
                :: EvText source (Ok (archive_content 2006)) :: evs')
    as [evs' Hrun] by (eexists; vm_compute; reflexivity).
  destruct (archived_month_is_skipped 2006 "January" false w 2006 evs' Hrun)
    as (Hevs & _ & Hsame).
  split; [|exact Hsame]. rewrite Hrun, Hevs. reflexivity.
Defined.
